(** * Session snapshot/restore (src/utils/RemoteAuth.js)

    A shallow embedding of the session store strategy: the collector
    ([collectEssentialFiles], [collectDirFiles]), the packager
    ([saveSession]), the restorer ([preRestoreSession]), the presence
    check ([hasPreRestoredSession]) and the strategy object built on them
    (the constructor, [afterAuthReady] and its timer,
    [beforeBrowserInitialized], [logout], [destroy]).

    The program runs on Node.js.  What it takes from the platform is kept
    apart from what it does itself:
    - JavaScript values, property reads and truthiness are modelled by the
      type [value];
    - the [path] module by functions on strings ([path_join],
      [path_dirname]) over '/'-separated POSIX paths;
    - the [fs] module by a directory tree ([node]) with [mkdir_p],
      [writeFile], [lookup];
    - the codecs ([JSON], [zlib], base64 and UTF-8 conversion of [Buffer])
      by the fields of the class [Runtime], so that every theorem holds for
      any implementation of them; [ref_runtime] is an executable one;
    - the durable store [db] by a finite map from account identifiers to
      blobs that may be offline, and the logger by a trace of events;
    - [setTimeout] and [clearTimeout] by a table of pending timers
      ([loop]), and [fs.rm] by the removal of a subtree ([fs_rm]). *)

From Stdlib Require Import ZArith List Ascii String Bool Lia.
From Stdlib.Strings Require Import Byte.
From Stdlib Require Import DecimalString DecimalN DecimalPos.
From stdpp Require Import base option gmap strings.
Import ListNotations.

Local Open Scope string_scope.
Local Open Scope Z_scope.

(** Let [simpl] and [cbn] compute the concatenation of strings. *)
#[local] Arguments String.append : simpl nomatch.

(* ================================================================== *)
(** * JavaScript values *)
(* ================================================================== *)

(** The values that [JSON.parse] can return, and [undefined] (the result
    of reading a property that is absent).  An object is the list of its
    own enumerable properties in enumeration order; numbers are the
    integer-valued ones. *)
#[local] Unset Elimination Schemes.
Inductive value : Type :=
| VUndef
| VNull
| VBool (b : bool)
| VNum (n : Z)
| VStr (s : string)
| VArr (items : list value)
| VObj (props : list (string * value)).
#[local] Set Elimination Schemes.

(** [if (v)], [!v]. *)
Definition truthy (v : value) : bool :=
  match v with
  | VUndef | VNull => false
  | VBool b => b
  | VNum n => negb (n =? 0)
  | VStr s => negb (String.eqb s "")
  | VArr _ | VObj _ => true
  end.

(** Reading and writing a property of an object. *)
Fixpoint obj_get (k : string) (props : list (string * value)) : option value :=
  match props with
  | [] => None
  | (k', v) :: rest => if String.eqb k k' then Some v else obj_get k rest
  end.

(** [o[k] = v]: an existing property keeps its place, a new one is
    enumerated last. *)
Fixpoint obj_set (k : string) (v : value) (props : list (string * value))
  : list (string * value) :=
  match props with
  | [] => [(k, v)]
  | (k', v') :: rest =>
      if String.eqb k k' then (k, v) :: rest else (k', v') :: obj_set k v rest
  end.

(** [v.k] for the property names the program reads ([data], [files],
    [type]): [None] is the TypeError thrown on [null] and [undefined];
    primitives and arrays have no such property. *)
Definition get_prop (v : value) (k : string) : option value :=
  match v with
  | VUndef | VNull => None
  | VObj props => Some (default VUndef (obj_get k props))
  | _ => Some VUndef
  end.

(** Decimal spelling of an array index. *)
Definition index_name (i : nat) : string :=
  NilEmpty.string_of_uint (Nat.to_uint i).

Fixpoint indexed {A} (i : nat) (l : list A) : list (string * A) :=
  match l with
  | [] => []
  | x :: rest => (index_name i, x) :: indexed (S i) rest
  end.

Fixpoint chars (s : string) : list value :=
  match s with
  | EmptyString => []
  | String c rest => VStr (String c EmptyString) :: chars rest
  end.

(** [Object.entries(v)] for a [v] that is neither [null] nor [undefined]. *)
Definition Object_entries (v : value) : list (string * value) :=
  match v with
  | VObj props => props
  | VArr items => indexed 0 items
  | VStr s => indexed 0 (chars s)
  | _ => []
  end.

(** [Object.keys(v)]. *)
Definition Object_keys (v : value) : list string := map fst (Object_entries v).

(* ================================================================== *)
(** * The [path] module (POSIX) *)
(* ================================================================== *)

Definition is_slash (c : ascii) : bool := Ascii.eqb c "/"%char.

(** The pieces of a path between its slashes, empty ones included. *)
Fixpoint split_path (s : string) : list string :=
  match s with
  | EmptyString => [EmptyString]
  | String c rest =>
      if is_slash c then EmptyString :: split_path rest
      else match split_path rest with
           | seg :: segs => String c seg :: segs
           | [] => [String c EmptyString]
           end
  end.

Fixpoint join_slash (segs : list string) : string :=
  match segs with
  | [] => EmptyString
  | [x] => x
  | x :: rest => x ++ "/" ++ join_slash rest
  end.

Definition is_absolute (p : string) : bool :=
  match p with
  | String c _ => is_slash c
  | EmptyString => false
  end.

Fixpoint ends_with_slash (p : string) : bool :=
  match p with
  | EmptyString => false
  | String c EmptyString => is_slash c
  | String _ rest => ends_with_slash rest
  end.

(** One step of [normalizeString]: the segments kept so far are on a
    stack, the last one on top. *)
Definition norm_step (allowAboveRoot : bool) (stack : list string) (seg : string)
  : list string :=
  if String.eqb seg "" || String.eqb seg "." then stack
  else if String.eqb seg ".." then
    match stack with
    | top :: below =>
        if String.eqb top ".." then ".." :: stack else below
    | [] => if allowAboveRoot then [".."] else []
    end
  else seg :: stack.

Definition norm_segs (allowAboveRoot : bool) (segs : list string) : list string :=
  rev (fold_left (norm_step allowAboveRoot) segs []).

(** [path.normalize]. *)
Definition path_normalize (p : string) : string :=
  if String.eqb p "" then "."
  else
    let abs := is_absolute p in
    let body := join_slash (norm_segs (negb abs) (split_path p)) in
    if String.eqb body "" then
      (if abs then "/" else if ends_with_slash p then "./" else ".")
    else
      let body := if ends_with_slash p then body ++ "/" else body in
      if abs then "/" ++ body else body.

(** [path.join(...args)]: the non-empty arguments, joined by a slash and
    normalized. *)
Definition path_join (args : list string) : string :=
  path_normalize
    (join_slash (List.filter (fun a => negb (String.eqb a "")) args)).

(** The path of normalized segments: what [path.normalize] returns for a
    path without a trailing slash. *)
Definition render (abs : bool) (segs : list string) : string :=
  match segs with
  | [] => if abs then "/" else "."
  | _ => if abs then "/" ++ join_slash segs else join_slash segs
  end.

(** [path.dirname] of a normalized path (the program takes it of a result
    of [path.join]): the path without its last segment. *)
Definition path_dirname (p : string) : string :=
  render (is_absolute p)
    (removelast (List.filter (fun a => negb (String.eqb a "")) (split_path p))).

(** The place a path names: its segments from the root of the file
    system, relative paths starting at the working directory [cwd]. *)
Definition resolve (cwd : list string) (p : string) : list string :=
  if is_absolute p then norm_segs false (split_path p)
  else norm_segs false (cwd ++ split_path p).

(* ================================================================== *)
(** * The [fs] module: a directory tree *)
(* ================================================================== *)

Definition bytes := list byte.

(** A file holds its content; a locked file is one that another process
    holds, so that reading or writing it fails.  A directory lists its
    entries in the order [readdir] returns them. *)
#[local] Unset Elimination Schemes.
Inductive node : Type :=
| File (content : bytes) (locked : bool)
| Dir (entries : list (string * node)).
#[local] Set Elimination Schemes.

Definition is_dir (n : node) : bool :=
  match n with Dir _ => true | File _ _ => false end.

Fixpoint find_entry (name : string) (entries : list (string * node)) : option node :=
  match entries with
  | [] => None
  | (k, n) :: rest => if String.eqb name k then Some n else find_entry name rest
  end.

(** Replace the entry called [name], or add it at the end. *)
Fixpoint put_entry (name : string) (n : node) (entries : list (string * node))
  : list (string * node) :=
  match entries with
  | [] => [(name, n)]
  | (k, n') :: rest =>
      if String.eqb name k then (k, n) :: rest else (k, n') :: put_entry name n rest
  end.

Fixpoint lookup_node (p : list string) (n : node) : option node :=
  match p with
  | [] => Some n
  | seg :: rest =>
      match n with
      | Dir entries =>
          match find_entry seg entries with
          | Some child => lookup_node rest child
          | None => None
          end
      | File _ _ => None
      end
  end.

(** [fs.mkdir(p, { recursive: true })]: the directories missing along [p]
    are created; a file on the way is an error ([None]). *)
Fixpoint mkdir_p (p : list string) (n : node) : option node :=
  match n with
  | File _ _ => None
  | Dir entries =>
      match p with
      | [] => Some n
      | seg :: rest =>
          match mkdir_p rest (default (Dir []) (find_entry seg entries)) with
          | Some child => Some (Dir (put_entry seg child entries))
          | None => None
          end
      end
  end.

(** [fs.writeFile(p, data)]: the parent must be a directory; the file is
    created or its content replaced; a directory or a locked file at [p]
    is an error. *)
Fixpoint write_node (p : list string) (data : bytes) (n : node) : option node :=
  match p with
  | [] => None
  | seg :: rest =>
      match n with
      | File _ _ => None
      | Dir entries =>
          match rest with
          | [] =>
              match find_entry seg entries with
              | Some (Dir _) => None
              | Some (File _ true) => None
              | _ => Some (Dir (put_entry seg (File data false) entries))
              end
          | _ =>
              match find_entry seg entries with
              | Some child =>
                  match write_node rest data child with
                  | Some child' => Some (Dir (put_entry seg child' entries))
                  | None => None
                  end
              | None => None
              end
          end
      end
  end.

Definition file_size (content : bytes) : Z := Z.of_nat (List.length content).

(* ================================================================== *)
(** * The platform codecs *)
(* ================================================================== *)

(** What the program calls in [Buffer], [zlib], [JSON] and [Date].  A
    [None] result is a thrown exception (a rejected promise). *)
Class Runtime : Type := {
  (** [buf.toString('base64')] *)
  base64_encode : bytes -> string;
  (** [Buffer.from(s, 'base64')] for a string [s] (never throws) *)
  base64_decode : string -> bytes;
  (** [Buffer.from(v, 'base64')] for a [v] that is not a string *)
  buffer_from_other : value -> option bytes;
  (** [Buffer.from(s)], and the conversion [zlib] applies to a string *)
  utf8_encode : string -> bytes;
  (** [buf.toString('utf-8')] *)
  utf8_decode : bytes -> string;
  gzip : bytes -> option bytes;
  gunzip : bytes -> option bytes;
  JSON_parse : string -> option value;
  JSON_stringify : value -> string;
  (** [new Date(t).toISOString()] *)
  toISOString : Z -> string
}.

(* ================================================================== *)
(** * The world the program runs in *)
(* ================================================================== *)

Inductive level := Info | Warn | Error.

(** What the process does to the outside: the calls of the store, the
    files it has written, the lines it has logged. *)
Inductive event :=
| DbGet (accountId : string)
| DbClear (accountId : string)
| DbSet (accountId blob : string)
| FsWrite (path : string)
| Log (lvl : level) (text : string) (args : list value).

Record world := {
  fs : node;                      (* the file system, from its root *)
  cwd : list string;              (* the working directory *)
  rows : gmap string string;      (* the store: one blob per account *)
  online : bool;                  (* whether the store answers *)
  clock : Z;                      (* [Date.now()] *)
  trace : list event              (* latest first *)
}.

Definition with_fs (t : node) (w : world) : world :=
  {| fs := t; cwd := cwd w; rows := rows w; online := online w;
     clock := clock w; trace := trace w |}.

Definition with_rows (r : gmap string string) (w : world) : world :=
  {| fs := fs w; cwd := cwd w; rows := r; online := online w;
     clock := clock w; trace := trace w |}.

Definition emit (e : event) (w : world) : world :=
  {| fs := fs w; cwd := cwd w; rows := rows w; online := online w;
     clock := clock w; trace := e :: trace w |}.

(** A computation returns a value or throws, and leaves a world either
    way. *)
Inductive result (A : Type) : Type :=
| Ok (a : A)
| Throw.
Arguments Ok {A} a.
Arguments Throw {A}.

Definition M (A : Type) : Type := world -> result A * world.

Definition ret {A} (a : A) : M A := fun w => (Ok a, w).

Definition bind {A B} (m : M A) (k : A -> M B) : M B :=
  fun w => match m w with
           | (Ok a, w') => k a w'
           | (Throw, w') => (Throw, w')
           end.

Definition throw {A} : M A := fun w => (Throw, w).

(** [try { body } catch { handler }] *)
Definition try_catch {A} (body handler : M A) : M A :=
  fun w => match body w with
           | (Ok a, w') => (Ok a, w')
           | (Throw, w') => handler w'
           end.

(** An exception of a platform call. *)
Definition lift {A} (o : option A) : M A :=
  match o with Some a => ret a | None => throw end.

Declare Scope js_scope.
Delimit Scope js_scope with js.
Notation "x <- m ;; k" := (bind m (fun x => k))
  (at level 100, m at next level, right associativity) : js_scope.
Notation "m ;; k" := (bind m (fun _ => k))
  (at level 100, right associativity) : js_scope.
Local Open Scope js_scope.

Definition log (lvl : level) (text : string) (args : list value) : M unit :=
  fun w => (Ok tt, emit (Log lvl text args) w).

(** ** The store ([db]) *)

Definition db_getSessionData (accountId : string) : M (option string) :=
  fun w =>
    let w' := emit (DbGet accountId) w in
    if online w then (Ok (rows w !! accountId), w') else (Throw, w').

Definition db_clearSessionData (accountId : string) : M unit :=
  fun w =>
    let w' := emit (DbClear accountId) w in
    if online w then (Ok tt, with_rows (delete accountId (rows w)) w')
    else (Throw, w').

Definition db_saveSessionData (accountId blob : string) : M unit :=
  fun w =>
    let w' := emit (DbSet accountId blob) w in
    if online w then (Ok tt, with_rows (<[accountId := blob]> (rows w)) w')
    else (Throw, w').

(** ** The file system ([fs]) *)

Definition fs_lookup (p : string) (w : world) : option node :=
  lookup_node (resolve (cwd w) p) (fs w).

(** [fs.mkdir(p, { recursive: true })]: the directories on the way to
    [p] that are missing are made.  It rejects when a file is on the way,
    and when [p] is the empty string, which names no place (ENOENT). *)
Definition fs_mkdir (p : string) : M unit :=
  fun w => if String.eqb p "" then (Throw, w)
           else match mkdir_p (resolve (cwd w) p) (fs w) with
                | Some t => (Ok tt, with_fs t w)
                | None => (Throw, w)
                end.

Definition fs_writeFile (p : string) (data : bytes) : M unit :=
  fun w =>
    if ends_with_slash p then (Throw, w)
    else match write_node (resolve (cwd w) p) data (fs w) with
         | Some t => (Ok tt, emit (FsWrite p) (with_fs t w))
         | None => (Throw, w)
         end.

Definition fs_access (p : string) : M unit :=
  fun w => match fs_lookup p w with
           | Some _ => (Ok tt, w)
           | None => (Throw, w)
           end.

Definition fs_existsSync (p : string) : M bool :=
  fun w => (Ok (bool_decide (is_Some (fs_lookup p w))), w).

Definition fs_readdirSync (p : string) : M (list string) :=
  fun w => match fs_lookup p w with
           | Some (Dir entries) => (Ok (map fst entries), w)
           | _ => (Throw, w)
           end.

Definition Date_now : M Z := fun w => (Ok (clock w), w).

(* ================================================================== *)
(** * The program *)
(* ================================================================== *)

Definition MAX_TOTAL_SIZE : Z := 15 * 1024 * 1024.
Definition MAX_FILE_SIZE : Z := 5 * 1024 * 1024.

Definition ESSENTIAL_DIRS : list string := ["IndexedDB"; "Local Storage"].

Definition LOCK_NAMES : list string :=
  ["LOCK"; "SingletonLock"; "SingletonCookie"; "SingletonSocket"].

(** [names.includes(name)] *)
Definition includes (names : list string) (name : string) : bool :=
  existsb (String.eqb name) names.

Section Program.
Context {R : Runtime}.

(** ** preRestoreSession *)

Record restore_result := { restored : bool; sessionPath : string }.

(** [Buffer.from(v, 'base64')] *)
Definition Buffer_from_base64 (v : value) : option bytes :=
  match v with
  | VStr s => Some (base64_decode s)
  | _ => buffer_from_other v
  end.

(** Lines 64 to 66: the payload carried by [payload.data], or an
    exception of the base64 decoding, of [gunzip] or of [JSON.parse]. *)
Definition decode_payload (data : value) : option value :=
  compressed ← Buffer_from_base64 data;
  decompressed ← gunzip compressed;
  JSON_parse (utf8_decode decompressed).

(** Lines 64 to 67, the body of the inner [try]: [sessionObj.files]. *)
Definition decode_files (data : value) : option value :=
  sessionObj ← decode_payload data;
  get_prop sessionObj "files".

(** The body of the loop over [Object.entries(files)], inside its [try]. *)
Definition restore_entry (sessionPath relPath : string) (b64Content : value)
  : M unit :=
  let fullPath := path_join [sessionPath; relPath] in
  fs_mkdir (path_dirname fullPath) ;;
  data <- lift (Buffer_from_base64 b64Content) ;;
  fs_writeFile fullPath data.

Fixpoint restore_entries (sessionPath : string)
    (entries : list (string * value)) (restored : Z) : M Z :=
  match entries with
  | [] => ret restored
  | (relPath, b64Content) :: rest =>
      restored' <- try_catch
        (restore_entry sessionPath relPath b64Content ;; ret (restored + 1))
        (log Warn "[Session] Failed" [VStr relPath] ;; ret restored) ;;
      restore_entries sessionPath rest restored'
  end.

(** Lines 78 to 99: what is done with the decoded [files]. *)
Definition restore_files (sessionPath : string) (files : value)
  : M restore_result :=
  if negb (truthy files) || (List.length (Object_keys files) =? 0)%nat then
    log Warn "[Session] Empty session" [] ;;
    ret {| restored := false; sessionPath := sessionPath |}
  else
    let fileCount := Z.of_nat (List.length (Object_keys files)) in
    log Info "[Session] Restoring files" [VNum fileCount] ;;
    restored <- restore_entries sessionPath (Object_entries files) 0 ;;
    log Info "[Session] Restored" [VNum restored; VNum fileCount] ;;
    ret {| restored := true; sessionPath := sessionPath |}.

(** Lines 59 to 99: what is done with the parsed envelope. *)
Definition restore_payload (accountId sessionPath : string) (payload : value)
  : M restore_result :=
  data <- lift (get_prop payload "data") ;;
  if truthy data then
    files <- try_catch
      (files <- lift (decode_files data) ;; ret (Some files))
      (log Error "[Session] Decompression failed" [] ;;
       db_clearSessionData accountId ;;
       ret None) ;;
    match files with
    | None => ret {| restored := false; sessionPath := sessionPath |}
    | Some files => restore_files sessionPath files
    end
  else
    type <- lift (get_prop payload "type") ;;
    log Warn "[Session] Unknown format" [type] ;;
    ret {| restored := false; sessionPath := sessionPath |}.

(** Lines 37 to 99: the body of the outer [try]. *)
Definition preRestoreSession_body (accountId dataPath sessionPath : string)
  : M restore_result :=
  fs_mkdir dataPath ;;
  fs_mkdir sessionPath ;;
  log Info "[Session] Checking database" [VStr accountId] ;;
  sessionData <- db_getSessionData accountId ;;
  match sessionData with
  | None | Some EmptyString =>
      log Info "[Session] No saved session" [VStr accountId] ;;
      ret {| restored := false; sessionPath := sessionPath |}
  | Some sessionData =>
      let payloadJson := utf8_decode (base64_decode sessionData) in
      match JSON_parse payloadJson with
      | None =>
          log Error "[Session] Corrupted session data, clearing" [] ;;
          db_clearSessionData accountId ;;
          ret {| restored := false; sessionPath := sessionPath |}
      | Some payload => restore_payload accountId sessionPath payload
      end
  end.

(** The function at an identifier and a data path that are strings,
    where the [path.join] of line 34 returns. *)
Definition preRestoreSession (accountId dataPath : string) : M restore_result :=
  let sessionPath := path_join [dataPath; accountId] in
  try_catch
    (preRestoreSession_body accountId dataPath sessionPath)
    (log Error "[Session] Restore error" [] ;;
     ret {| restored := false; sessionPath := sessionPath |}).

(** The function as the module exports it, called with any values.
    Line 33: a data path that is [undefined] is the default one.  Line
    34: [path.join] throws a [TypeError] unless its two arguments are
    strings, and it is called before the [try] of line 36, so that the
    exception goes to the caller. *)
Definition exports_preRestoreSession (accountId dataPath : value)
  : M restore_result :=
  let dataPath := match dataPath with
                  | VUndef => VStr "./wa-sessions-temp"
                  | _ => dataPath
                  end in
  match dataPath, accountId with
  | VStr dataPath, VStr accountId => preRestoreSession accountId dataPath
  | _, _ => throw
  end.

(** ** hasPreRestoredSession *)

Definition hasPreRestoredSession (sessionPath : string) : M bool :=
  try_catch
    (let indexedDb := path_join [sessionPath; "Default"; "IndexedDB"] in
     found <- fs_existsSync indexedDb ;;
     if found then
       files <- fs_readdirSync indexedDb ;;
       ret (0 <? List.length files)%nat
     else ret false)
    (ret false).

(** ** collectDirFiles *)

(** The two objects the walk updates in place: [files] and
    [stats.totalSize]. *)
Record collected := { st_files : list (string * value); st_totalSize : Z }.

(** One file entry of a directory: lines 233 to 244. *)
Definition collect_file (relPath name : string) (content : bytes) (locked : bool)
    (st : collected) : collected :=
  if includes LOCK_NAMES name then st
  else
    let size := file_size content in
    if (size =? 0) || (MAX_FILE_SIZE <? size) then st
    else if locked then st
    else {| st_files := obj_set relPath (VStr (base64_encode content)) (st_files st);
            st_totalSize := st_totalSize st + file_size content |}.

(** The walk reads the directory [dir], whose path relative to [baseDir]
    is [rel], and descends into its subdirectories.  [readdir] of a file
    throws, which the walk swallows. *)
Fixpoint collectDirFiles (dir : node) (rel : string) (st : collected)
  : collected :=
  match dir with
  | File _ _ => st
  | Dir entries =>
      (fix each (entries : list (string * node)) (st : collected) : collected :=
         match entries with
         | [] => st
         | (name, entry) :: rest =>
             if MAX_TOTAL_SIZE <? st_totalSize st then st
             else
               let relPath := rel ++ "/" ++ name in
               match entry with
               | Dir _ => each rest (collectDirFiles entry relPath st)
               | File content locked =>
                   each rest (collect_file relPath name content locked st)
               end
         end) entries st
  end.

(** ** collectEssentialFiles *)

Fixpoint collect_essential (defaultPath : string) (dirs : list string)
    (files : list (string * value)) (totalSize : Z)
  : M (list (string * value) * Z) :=
  match dirs with
  | [] => ret (files, totalSize)
  | essentialDir :: rest =>
      let dirPath := path_join [defaultPath; essentialDir] in
      found <- try_catch
        (fs_access dirPath ;; ret true)
        (log Warn "[Session] Missing essential dir" [VStr essentialDir] ;;
         ret false) ;;
      if found : bool then
        fun w =>
          let st := collectDirFiles (default (Dir []) (fs_lookup dirPath w))
                      ("Default/" ++ essentialDir)
                      {| st_files := files; st_totalSize := 0 |} in
          collect_essential defaultPath rest
            (st_files st) (totalSize + st_totalSize st) w
      else collect_essential defaultPath rest files totalSize
  end.

Definition collectEssentialFiles (sessionPath : string)
  : M (list (string * value) * Z) :=
  let defaultPath := path_join [sessionPath; "Default"] in
  collect_essential defaultPath ESSENTIAL_DIRS [] 0.

(** ** saveSession *)

(** [(num / den).toFixed(0)], which a template puts in a line: the
    integer nearest to the quotient, the larger one when two are as
    near. *)
Definition toFixed_0 (num den : Z) : Z := (2 * num + den) / (2 * den).

(** Lines 276 to 286: the blob handed to the store. *)
Definition pack (files : list (string * value)) (accountId : string) : M string :=
  ts <- Date_now ;;
  let data := VObj [("files", VObj files); ("ts", VNum ts); ("id", VStr accountId)] in
  let json := JSON_stringify data in
  compressed <- lift (gzip (utf8_encode json)) ;;
  saved <- Date_now ;;
  let payload := JSON_stringify
    (VObj [("type", VStr "session_v4");
           ("data", VStr (base64_encode compressed));
           ("saved", VStr (toISOString saved))]) in
  ret (base64_encode (utf8_encode payload)).

Definition saveSession (accountId dataPath : string) : M bool :=
  try_catch
    (let sessionPath := path_join [dataPath; accountId] in
     let defaultPath := path_join [sessionPath; "Default"] in
     found <- try_catch
       (fs_access defaultPath ;; ret true)
       (log Warn "[Session] No Default folder" [] ;; ret false) ;;
     if found : bool then
       log Info "[Session] Collecting essential files" [] ;;
       essential <- collectEssentialFiles sessionPath ;;
       let '(files, totalSize) := essential in
       let fileCount := List.length files in
       if (fileCount =? 0)%nat then
         log Warn "[Session] No essential files found" [] ;;
         ret false
       else
         log Info "[Session] Got files"
           [VNum (Z.of_nat fileCount); VNum (toFixed_0 totalSize 1024)] ;;
         final <- pack files accountId ;;
         log Info "[Session] Saving to database" [] ;;
         db_saveSessionData accountId final ;;
         log Info "[Session] Saved" [VNum (Z.of_nat fileCount)] ;;
         ret true
     else ret false)
    (log Error "[Session] Save error" [] ;; ret false).

End Program.

(* ================================================================== *)
(** * The strategy object *)
(* ================================================================== *)

(** The class [RemoteAuth]: its constructor and the methods the client
    calls around the life of the browser.  What the methods take from
    outside the file is modelled beside the world:
    - the fields of [this] by the record [strategy];
    - the timers of the event loop ([setTimeout], [clearTimeout]) by the
      table [loop];
    - [this.client.options], which the client sets before it calls the
      strategy, by the list of its properties. *)

(** ** [fs.rm] *)

Definition drop_entry (name : string) (entries : list (string * node))
  : list (string * node) :=
  List.filter (fun e => negb (String.eqb name (fst e))) entries.

(** The tree without what is at [p]: nothing there is no error (the call
    is forced), a file on the way is one ([None]), and so is the root. *)
Fixpoint remove_node (p : list string) (n : node) : option node :=
  match p with
  | [] => None
  | seg :: rest =>
      match n with
      | File _ _ => None
      | Dir entries =>
          match rest with
          | [] => Some (Dir (drop_entry seg entries))
          | _ =>
              match find_entry seg entries with
              | Some child =>
                  match remove_node rest child with
                  | Some child' => Some (Dir (put_entry seg child' entries))
                  | None => None
                  end
              | None => Some n
              end
          end
      end
  end.

(** The last name of a path, its empty pieces aside. *)
Definition last_name (p : string) : string :=
  List.last (List.filter (fun a => negb (String.eqb a "")) (split_path p))
    EmptyString.

(** [fs.rm(p, { recursive: true, force: true })].  The empty path names
    nothing, which is no error.  A path that ends in [.] or [..], or that
    is the root, names no entry of a directory: the system refuses to
    remove it, which is modelled as an exception that leaves the tree as
    it is (what is removed before the refusal differs between systems;
    the theorems below take paths that end in a name). *)
Definition fs_rm (p : string) : M unit :=
  fun w =>
    let name := last_name p in
    if String.eqb p "" then (Ok tt, w)
    else if String.eqb name "" || String.eqb name "." || String.eqb name ".."
    then (Throw, w)
    else match remove_node (resolve (cwd w) p) (fs w) with
         | Some t => (Ok tt, with_fs t w)
         | None => (Throw, w)
         end.

(** ** [path.join] of values *)

(** The arguments of [path.join] must be strings: anything else is a
    TypeError ([None]). *)
Fixpoint strings_of (args : list value) : option (list string) :=
  match args with
  | [] => Some []
  | VStr s :: rest =>
      match strings_of rest with
      | Some strs => Some (s :: strs)
      | None => None
      end
  | _ :: _ => None
  end.

Definition path_join_values (args : list value) : option string :=
  match strings_of args with
  | Some strs => Some (path_join strs)
  | None => None
  end.

Section Strategy.
Context {R : Runtime}.

(** ** The fields of [this] *)

(** [saveTimer] is [null] ([None]) or the handle that [setTimeout]
    returned. *)
Record strategy := {
  this_accountId : value;
  this_clientId : value;
  this_dataPath : value;
  this_saveTimer : option nat
}.

(** ** The constructor *)

(** [new RemoteAuth(options)], with [VUndef] for a call without argument;
    [None] is an exception: the TypeError of reading a property of
    [null], or the error [accountId is required]. *)
Definition RemoteAuth_new (options : value) : option strategy :=
  let options := match options with VUndef => VObj [] | _ => options end in
  match get_prop options "accountId", get_prop options "dataPath" with
  | Some accountId, Some dataPath =>
      let this :=
        {| this_accountId := accountId;
           this_clientId := accountId;
           this_dataPath :=
             if truthy dataPath then dataPath else VStr "./wa-sessions-temp";
           this_saveTimer := None |} in
      if negb (truthy (this_accountId this)) then None else Some this
  | _, _ => None
  end.

(** ** The timers *)

(** A timer that is pending: its handle, its delay, and the object whose
    session its callback saves (the callback reads [this.accountId] and
    [this.dataPath], which are assigned once, in the constructor). *)
Record timer := { handle : nat; delay : Z; owner : strategy }.

Record loop := { next_handle : nat; pending : list timer }.

Definition setTimeout (ms : Z) (this : strategy) (l : loop) : nat * loop :=
  (next_handle l,
   {| next_handle := S (next_handle l);
      pending := (pending l
                  ++ [{| handle := next_handle l; delay := ms; owner := this |}])%list |}).

Definition clearTimeout (h : nat) (l : loop) : loop :=
  {| next_handle := next_handle l;
     pending := List.filter (fun t => negb (Nat.eqb (handle t) h)) (pending l) |}.

(** ** saveSession, as a method *)

(** [path.join(this.dataPath, this.accountId)] is inside the [try]: when
    one of the two is not a string the method logs the error and answers
    [false]. *)
Definition RemoteAuth_saveSession (this : strategy) : M bool :=
  match this_dataPath this, this_accountId this with
  | VStr dataPath, VStr accountId => saveSession accountId dataPath
  | _, _ => log Error "[Session] Save error" [] ;; ret false
  end.

(** ** afterAuthReady *)

Definition afterAuthReady (this : strategy) (l : loop) : M (strategy * loop) :=
  log Info "[Session] Auth ready" [this_accountId this] ;;
  log Info "[Session] Waiting 60s for session to stabilize before saving..." [] ;;
  let '(h, l') := setTimeout 60000 this l in
  ret ({| this_accountId := this_accountId this;
          this_clientId := this_clientId this;
          this_dataPath := this_dataPath this;
          this_saveTimer := Some h |}, l').

(** The callback of the timer with the handle [h], when the event loop
    runs it: the timer is no longer pending, and the session of its owner
    is saved.  A handle that is not pending runs nothing. *)
Definition run_timer (h : nat) (l : loop) : M loop :=
  match List.find (fun t => Nat.eqb (handle t) h) (pending l) with
  | Some t =>
      log Info "[Session] Starting initial session save..." [] ;;
      RemoteAuth_saveSession (owner t) ;;
      ret (clearTimeout h l)
  | None => ret l
  end.

(** ** beforeBrowserInitialized *)

(** [options] holds the properties of [this.client.options]; the method
    returns them as it leaves them.  [path.join] is before the [try]: an
    identifier or a data path that is not a string makes the method
    throw.  The assignment of [puppeteer] is the only change of
    [options]: what throws before it leaves them as they were, what
    throws after it leaves them assigned, and both are caught by the one
    [catch] of the method. *)
Definition beforeBrowserInitialized (this : strategy)
    (options : list (string * value)) : M (list (string * value)) :=
  match this_dataPath this, this_accountId this with
  | VStr dataPath, VStr accountId =>
      let sessionPath := path_join [dataPath; accountId] in
      try_catch
        (fs_mkdir dataPath ;;
         fs_mkdir sessionPath ;;
         log Info "[Session] Data dir" [VStr sessionPath] ;;
         let puppeteer := default VUndef (obj_get "puppeteer" options) in
         let options' :=
           obj_set "puppeteer"
             (VObj (obj_set "userDataDir" (VStr sessionPath)
                      (Object_entries puppeteer)))
             options in
         try_catch
           (found <- hasPreRestoredSession sessionPath ;;
            if found : bool then
              log Info "[Session] Session files exist, ready" [] ;;
              ret options'
            else
              log Info "[Session] No local files, checking DB..." [] ;;
              preRestoreSession accountId dataPath ;;
              ret options')
           (log Error "[Session] Setup error" [] ;; ret options'))
        (log Error "[Session] Setup error" [] ;; ret options)
  | _, _ => throw
  end.

(** ** logout *)

(** The stored session is left alone: the user may reconnect. *)
Definition logout (this : strategy) (l : loop) : M loop :=
  log Info "[Session] Logout" [this_accountId this] ;;
  ret (match this_saveTimer this with
       | Some h => clearTimeout h l
       | None => l
       end).

(** ** destroy *)

Definition destroy (this : strategy) (l : loop) : M loop :=
  log Info "[Session] Destroy" [this_accountId this] ;;
  let l' := match this_saveTimer this with
            | Some h => clearTimeout h l
            | None => l
            end in
  try_catch
    (sessionPath <- lift (path_join_values [this_dataPath this; this_accountId this]) ;;
     fs_rm sessionPath)
    (ret tt) ;;
  ret l'.

End Strategy.


(* ================================================================== *)
(** * A reference runtime *)
(* ================================================================== *)

(** An executable implementation of the codecs, on which the program can
    be run: base64 as in RFC 4648 with Node's lenient decoder, JSON in its
    compact form, byte strings as UTF-8 text, and a container without
    compression in the place of [zlib]. *)

Definition byte_of_N (n : N) : byte :=
  default x00 (Byte.of_N (n mod 256)).

(** ** base64 *)

Definition b64_alphabet : list ascii :=
  list_ascii_of_string
    "ABCDEFGHIJKLMNOPQRSTUVWXYZabcdefghijklmnopqrstuvwxyz0123456789+/".

Definition sextet_char (n : N) : ascii :=
  nth (N.to_nat n) b64_alphabet "A"%char.

(** The value of a base64 character, in the standard or in the URL-safe
    alphabet. *)
Definition char_sextet (c : ascii) : option N :=
  let n := N_of_ascii c in
  (if (65 <=? n) && (n <=? 90) then Some (n - 65)
  else if (97 <=? n) && (n <=? 122) then Some (n - 71)
  else if (48 <=? n) && (n <=? 57) then Some (n + 4)
  else if (n =? 43) || (n =? 45) then Some 62
  else if (n =? 47) || (n =? 95) then Some 63
  else None)%N.

Fixpoint ref_base64_encode (b : bytes) : string :=
  match b with
  | [] => EmptyString
  | [x] =>
      let x := Byte.to_N x in
      String (sextet_char (x / 4)) (String (sextet_char (x mod 4 * 16)) "==")
  | [x; y] =>
      let x := Byte.to_N x in
      let y := Byte.to_N y in
      String (sextet_char (x / 4))
        (String (sextet_char (x mod 4 * 16 + y / 16))
           (String (sextet_char (y mod 16 * 4)) "="))
  | x :: y :: z :: rest =>
      let x := Byte.to_N x in
      let y := Byte.to_N y in
      let z := Byte.to_N z in
      String (sextet_char (x / 4))
        (String (sextet_char (x mod 4 * 16 + y / 16))
           (String (sextet_char (y mod 16 * 4 + z / 64))
              (String (sextet_char (z mod 64)) (ref_base64_encode rest))))
  end%N.

(** The decoder passes over every character outside the alphabets, the
    padding included. *)
Fixpoint sextets (s : string) : list N :=
  match s with
  | EmptyString => []
  | String c rest =>
      match char_sextet c with
      | Some n => n :: sextets rest
      | None => sextets rest
      end
  end.

Fixpoint unsextets (l : list N) : bytes :=
  match l with
  | a :: b :: c :: d :: rest =>
      byte_of_N (a * 4 + b / 16)
        :: byte_of_N (b mod 16 * 16 + c / 4)
        :: byte_of_N (c mod 4 * 64 + d) :: unsextets rest
  | [a; b; c] =>
      [byte_of_N (a * 4 + b / 16); byte_of_N (b mod 16 * 16 + c / 4)]
  | [a; b] => [byte_of_N (a * 4 + b / 16)]
  | _ => []
  end%N.

Definition ref_base64_decode (s : string) : bytes := unsextets (sextets s).

(** ** UTF-8: a string is the sequence of the bytes of its text *)

Definition ref_utf8_encode (s : string) : bytes := list_byte_of_string s.
Definition ref_utf8_decode (b : bytes) : string := string_of_list_byte b.

(** ** A container without compression: two magic bytes, then the data *)

Definition ref_gzip (b : bytes) : option bytes := Some (x1f :: x8b :: b).

Definition ref_gunzip (b : bytes) : option bytes :=
  match b with
  | x1f :: x8b :: data => Some data
  | _ => None
  end.

(** ** [Buffer.from] of a value that is not a string: an array of numbers
    gives its bytes, anything else is a TypeError *)

Definition ref_buffer_from_other (v : value) : option bytes :=
  match v with
  | VArr items =>
      Some (map (fun i => match i with
                          | VNum n => byte_of_N (Z.to_N (n mod 256))
                          | _ => x00
                          end) items)
  | _ => None
  end.

(** ** JSON: the printer *)

Definition quote : ascii := "034"%char.
Definition backslash : ascii := "092"%char.

Definition hex_char (n : N) : ascii :=
  nth (N.to_nat n) (list_ascii_of_string "0123456789abcdef") "0"%char.

Definition escape_char (c : ascii) : string :=
  let n := N_of_ascii c in
  if Ascii.eqb c quote then String backslash (String quote EmptyString)
  else if Ascii.eqb c backslash then String backslash (String backslash EmptyString)
  else if (n =? 8)%N then String backslash "b"
  else if (n =? 9)%N then String backslash "t"
  else if (n =? 10)%N then String backslash "n"
  else if (n =? 12)%N then String backslash "f"
  else if (n =? 13)%N then String backslash "r"
  else if (n <? 32)%N then
    String backslash
      (String "u" (String "0" (String "0"
         (String (hex_char (n / 16)) (String (hex_char (n mod 16)) EmptyString)))))
  else String c EmptyString.

Fixpoint print_chars (s : string) : string :=
  match s with
  | EmptyString => String quote EmptyString
  | String c rest => escape_char c ++ print_chars rest
  end.

(** A string literal: the opening quote, the escaped characters, the
    closing quote. *)
Definition print_string (s : string) : string := String quote (print_chars s).

Definition print_number (n : Z) : string :=
  if n <? 0 then String "-" (NilEmpty.string_of_uint (N.to_uint (Z.abs_N n)))
  else NilEmpty.string_of_uint (N.to_uint (Z.abs_N n)).

Fixpoint print_value (v : value) : string :=
  match v with
  | VUndef | VNull => "null"
  | VBool true => "true"
  | VBool false => "false"
  | VNum n => print_number n
  | VStr s => print_string s
  | VArr items =>
      String "["
        ((fix print_items (items : list value) : string :=
            match items with
            | [] => "]"
            | [x] => print_value x ++ "]"
            | x :: rest => print_value x ++ String "," (print_items rest)
            end) items)
  | VObj props =>
      String "{"
        ((fix print_members (props : list (string * value)) : string :=
            match props with
            | [] => "}"
            | [(k, x)] => print_string k ++ String ":" (print_value x ++ "}")
            | (k, x) :: rest =>
                print_string k
                ++ String ":" (print_value x ++ String "," (print_members rest))
            end) props)
  end.

(** The elements of an array and the members of an object, up to the
    closing bracket. *)
Fixpoint print_items (items : list value) : string :=
  match items with
  | [] => "]"
  | [x] => print_value x ++ "]"
  | x :: rest => print_value x ++ String "," (print_items rest)
  end.

Fixpoint print_members (props : list (string * value)) : string :=
  match props with
  | [] => "}"
  | [(k, x)] => print_string k ++ String ":" (print_value x ++ "}")
  | (k, x) :: rest =>
      print_string k
      ++ String ":" (print_value x ++ String "," (print_members rest))
  end.

(** ** JSON: the parser *)

Definition is_ws (c : ascii) : bool :=
  let n := N_of_ascii c in
  ((n =? 32) || (n =? 9) || (n =? 10) || (n =? 13))%N.

Fixpoint skip_ws (s : string) : string :=
  match s with
  | String c rest => if is_ws c then skip_ws rest else s
  | EmptyString => EmptyString
  end.

Definition hex_value (c : ascii) : option N :=
  let n := N_of_ascii c in
  (if (48 <=? n) && (n <=? 57) then Some (n - 48)
   else if (97 <=? n) && (n <=? 102) then Some (n - 87)
   else if (65 <=? n) && (n <=? 70) then Some (n - 55)
   else None)%N.

(** The UTF-8 bytes of a code point below 2^16. *)
Definition utf8_of_code (n : N) : string :=
  (if n <? 128 then String (ascii_of_N n) EmptyString
   else if n <? 2048 then
     String (ascii_of_N (192 + n / 64))
       (String (ascii_of_N (128 + n mod 64)) EmptyString)
   else
     String (ascii_of_N (224 + n / 4096))
       (String (ascii_of_N (128 + n / 64 mod 64))
          (String (ascii_of_N (128 + n mod 64)) EmptyString)))%N.

Definition unescape_char (c : ascii) : option ascii :=
  if Ascii.eqb c quote then Some quote
  else if Ascii.eqb c backslash then Some backslash
  else if Ascii.eqb c "/" then Some "/"%char
  else if Ascii.eqb c "b" then Some "008"%char
  else if Ascii.eqb c "t" then Some "009"%char
  else if Ascii.eqb c "n" then Some "010"%char
  else if Ascii.eqb c "f" then Some "012"%char
  else if Ascii.eqb c "r" then Some "013"%char
  else None.

(** The characters of a string literal, read after its opening quote, and
    what follows its closing quote. *)
Fixpoint parse_chars (s : string) : option (string * string) :=
  match s with
  | EmptyString => None
  | String c rest =>
      if Ascii.eqb c quote then Some (EmptyString, rest)
      else if Ascii.eqb c backslash then
        match rest with
        | String e rest1 =>
            if Ascii.eqb e "u" then
              match rest1 with
              | String h1 (String h2 (String h3 (String h4 rest2))) =>
                  match hex_value h1, hex_value h2, hex_value h3, hex_value h4 with
                  | Some a, Some b, Some c, Some d =>
                      match parse_chars rest2 with
                      | Some (str, after) =>
                          Some (utf8_of_code (((a * 16 + b) * 16 + c) * 16 + d)%N
                                  ++ str, after)
                      | None => None
                      end
                  | _, _, _, _ => None
                  end
              | _ => None
              end
            else
              match unescape_char e with
              | Some ch =>
                  match parse_chars rest1 with
                  | Some (str, after) => Some (String ch str, after)
                  | None => None
                  end
              | None => None
              end
        | EmptyString => None
        end
      else if (N_of_ascii c <? 32)%N then None
      else
        match parse_chars rest with
        | Some (str, after) => Some (String c str, after)
        | None => None
        end
  end.

Definition is_digit (c : ascii) : bool :=
  let n := N_of_ascii c in ((48 <=? n) && (n <=? 57))%N.

Fixpoint span_digits (s : string) : string * string :=
  match s with
  | String c rest =>
      if is_digit c then
        let '(ds, after) := span_digits rest in (String c ds, after)
      else (EmptyString, s)
  | EmptyString => (EmptyString, EmptyString)
  end.

(** The digits of an integer literal, and what follows them; a fraction
    or an exponent is beyond the numbers of [value]. *)
Definition parse_digits (neg : bool) (s : string) : option (Z * string) :=
  let '(ds, after) := span_digits s in
  match ds, NilEmpty.uint_of_string ds with
  | String _ _, Some u =>
      let continues :=
        match after with
        | String c _ => Ascii.eqb c "." || Ascii.eqb c "e" || Ascii.eqb c "E"
        | EmptyString => false
        end in
      if continues then None
      else Some (if neg then - Z.of_N (N.of_uint u) else Z.of_N (N.of_uint u),
                 after)
  | _, _ => None
  end.

Definition parse_number (s : string) : option (Z * string) :=
  match s with
  | String c rest =>
      if Ascii.eqb c "-" then parse_digits true rest else parse_digits false s
  | EmptyString => None
  end.

Fixpoint strip_prefix (p s : string) : option string :=
  match p with
  | EmptyString => Some s
  | String c p' =>
      match s with
      | String d s' => if Ascii.eqb c d then strip_prefix p' s' else None
      | EmptyString => None
      end
  end.

(** The properties of an object literal in the order [Object.keys] gives
    them: a repeated name keeps its first place and its last value. *)
Definition props_of_members (members : list (string * value))
  : list (string * value) :=
  fold_left (fun props m => obj_set (fst m) (snd m) props) members [].

(** What follows a value in an array or in an object: a comma and more,
    or the closing bracket. *)
Definition next_or_close {A} (close : ascii) (s : string)
    (more : string -> option A) (done : string -> option A) : option A :=
  match skip_ws s with
  | String c after =>
      if Ascii.eqb c "," then more after
      else if Ascii.eqb c close then done after
      else None
  | EmptyString => None
  end.

(** After an opening bracket: the closing one, or the elements. *)
Definition close_or_elements {A} (close : ascii) (s : string)
    (empty : string -> option A) (elements : option A) : option A :=
  match skip_ws s with
  | String c after => if Ascii.eqb c close then empty after else elements
  | EmptyString => elements
  end.

Fixpoint parse_value (fuel : nat) (s : string) : option (value * string) :=
  match fuel with
  | O => None
  | S fuel =>
      match skip_ws s with
      | EmptyString => None
      | String c rest =>
          if Ascii.eqb c quote then
            match parse_chars rest with
            | Some (str, after) => Some (VStr str, after)
            | None => None
            end
          else if Ascii.eqb c "[" then
            close_or_elements "]" rest
              (fun after => Some (VArr [], after))
              match parse_items fuel rest with
              | Some (items, after) => Some (VArr items, after)
              | None => None
              end
          else if Ascii.eqb c "{" then
            close_or_elements "}" rest
              (fun after => Some (VObj [], after))
              match parse_members fuel rest with
              | Some (members, after) =>
                  Some (VObj (props_of_members members), after)
              | None => None
              end
          else if Ascii.eqb c "n" then
            match strip_prefix "ull" rest with
            | Some after => Some (VNull, after)
            | None => None
            end
          else if Ascii.eqb c "t" then
            match strip_prefix "rue" rest with
            | Some after => Some (VBool true, after)
            | None => None
            end
          else if Ascii.eqb c "f" then
            match strip_prefix "alse" rest with
            | Some after => Some (VBool false, after)
            | None => None
            end
          else
            match parse_number (String c rest) with
            | Some (n, after) => Some (VNum n, after)
            | None => None
            end
      end
  end
with parse_items (fuel : nat) (s : string) : option (list value * string) :=
  match fuel with
  | O => None
  | S fuel =>
      match parse_value fuel s with
      | Some (v, after) =>
          next_or_close "]" after
            (fun after1 =>
               match parse_items fuel after1 with
               | Some (vs, after2) => Some (v :: vs, after2)
               | None => None
               end)
            (fun after1 => Some ([v], after1))
      | None => None
      end
  end
with parse_members (fuel : nat) (s : string)
  : option (list (string * value) * string) :=
  match fuel with
  | O => None
  | S fuel =>
      match skip_ws s with
      | String c rest =>
          if Ascii.eqb c quote then
            match parse_chars rest with
            | Some (k, after) =>
                match skip_ws after with
                | String c1 after1 =>
                    if Ascii.eqb c1 ":" then
                      match parse_value fuel after1 with
                      | Some (v, after2) =>
                          next_or_close "}" after2
                            (fun after3 =>
                               match parse_members fuel after3 with
                               | Some (ms, after4) => Some ((k, v) :: ms, after4)
                               | None => None
                               end)
                            (fun after3 => Some ([(k, v)], after3))
                      | None => None
                      end
                    else None
                | EmptyString => None
                end
            | None => None
            end
          else None
      | EmptyString => None
      end
  end.

Definition ref_JSON_stringify (v : value) : string := print_value v.

Definition ref_JSON_parse (s : string) : option value :=
  match parse_value (2 * String.length s + 2) s with
  | Some (v, after) =>
      match skip_ws after with
      | EmptyString => Some v
      | _ => None
      end
  | None => None
  end.

(** ** Dates *)

Definition digits_of (width : nat) (n : Z) : string :=
  let s := NilEmpty.string_of_uint (N.to_uint (Z.to_N n)) in
  string_of_list_ascii (repeat "0"%char (width - String.length s)) ++ s.

(** [new Date(ms).toISOString()] for a time from the year 0 on: the civil
    date of the day, then the time of day. *)
Definition ref_toISOString (ms : Z) : string :=
  let days := ms / 86400000 in
  let rem := ms mod 86400000 in
  let z := days + 719468 in
  let era := z / 146097 in
  let doe := z - era * 146097 in
  let yoe := (doe - doe / 1460 + doe / 36524 - doe / 146096) / 365 in
  let doy := doe - (365 * yoe + yoe / 4 - yoe / 100) in
  let mp := (5 * doy + 2) / 153 in
  let d := doy - (153 * mp + 2) / 5 + 1 in
  let m := if mp <? 10 then mp + 3 else mp - 9 in
  let y := yoe + era * 400 + (if m <=? 2 then 1 else 0) in
  digits_of 4 y ++ "-" ++ digits_of 2 m ++ "-" ++ digits_of 2 d ++ "T"
    ++ digits_of 2 (rem / 3600000) ++ ":"
    ++ digits_of 2 (rem / 60000 mod 60) ++ ":"
    ++ digits_of 2 (rem / 1000 mod 60) ++ "."
    ++ digits_of 3 (rem mod 1000) ++ "Z".

#[export] Instance ref_runtime : Runtime := {
  base64_encode := ref_base64_encode;
  base64_decode := ref_base64_decode;
  buffer_from_other := ref_buffer_from_other;
  utf8_encode := ref_utf8_encode;
  utf8_decode := ref_utf8_decode;
  gzip := ref_gzip;
  gunzip := ref_gunzip;
  JSON_parse := ref_JSON_parse;
  JSON_stringify := ref_JSON_stringify;
  toISOString := ref_toISOString
}.

(* ================================================================== *)
(** * Observations on a run *)
(* ================================================================== *)

(** The blobs handed to [db.saveSessionData], the accounts cleared, the
    files written, latest first. *)
Fixpoint db_sets (tr : list event) : list (string * string) :=
  match tr with
  | [] => []
  | DbSet a b :: rest => (a, b) :: db_sets rest
  | _ :: rest => db_sets rest
  end.

Fixpoint db_clears (tr : list event) : list string :=
  match tr with
  | [] => []
  | DbClear a :: rest => a :: db_clears rest
  | _ :: rest => db_clears rest
  end.

Fixpoint fs_writes (tr : list event) : list string :=
  match tr with
  | [] => []
  | FsWrite p :: rest => p :: fs_writes rest
  | _ :: rest => fs_writes rest
  end.

(** [w'] is [w] after some more events, the rest of the world aside. *)
Definition events_since (w w' : world) (evs : list event) : Prop :=
  trace w' = (evs ++ trace w)%list.

(** What a run may change besides the file system and the trace:
    nothing. *)
Definition same_store (w w' : world) : Prop :=
  rows w' = rows w /\ online w' = online w /\ cwd w' = cwd w
  /\ clock w' = clock w.

(** [files] is falsy or has no keys: line 78. *)
Definition no_entries (files : value) : bool :=
  negb (truthy files) || (List.length (Object_keys files) =? 0)%nat.

(** The world in which the blob is decoded: both directories made and the
    store asked.  There is none when one of the two [fs.mkdir] rejects:
    a file is on the way, or the data path is the empty string (the
    session path, a result of [path.join], never is). *)
Definition asked (accountId dataPath : string) (w : world) : option world :=
  if String.eqb dataPath "" then None
  else
    t1 ← mkdir_p (resolve (cwd w) dataPath) (fs w);
    t2 ← mkdir_p (resolve (cwd w) (path_join [dataPath; accountId])) t1;
    Some (emit (DbGet accountId)
            (emit (Log Info "[Session] Checking database" [VStr accountId])
               (with_fs t2 w))).

(** The snapshot [collectEssentialFiles] takes in a world: the loop over
    the essential directories as a function of the file system. *)
Fixpoint essential_snapshot {R : Runtime} (w : world) (defaultPath : string)
    (dirs : list string) (files : list (string * value)) (totalSize : Z)
  : list (string * value) * Z :=
  match dirs with
  | [] => (files, totalSize)
  | essentialDir :: rest =>
      match fs_lookup (path_join [defaultPath; essentialDir]) w with
      | Some dir =>
          let st := collectDirFiles dir ("Default/" ++ essentialDir)
                      {| st_files := files; st_totalSize := 0 |} in
          essential_snapshot w defaultPath rest
            (st_files st) (totalSize + st_totalSize st)
      | None => essential_snapshot w defaultPath rest files totalSize
      end
  end.

Definition snapshot {R : Runtime} (sessionPath : string) (w : world)
  : list (string * value) * Z :=
  essential_snapshot w (path_join [sessionPath; "Default"]) ESSENTIAL_DIRS [] 0.

(** The blob [pack] makes at a given time, if [gzip] does not throw. *)
Definition packed {R : Runtime} (files : list (string * value))
    (accountId : string) (now : Z) : option string :=
  let data := VObj [("files", VObj files); ("ts", VNum now); ("id", VStr accountId)] in
  compressed ← gzip (utf8_encode (JSON_stringify data));
  Some (base64_encode (utf8_encode (JSON_stringify
    (VObj [("type", VStr "session_v4");
           ("data", VStr (base64_encode compressed));
           ("saved", VStr (toISOString now))])))).

(** The events of a list that are lines of the log. *)
Definition only_logs (evs : list event) : Prop :=
  Forall (fun e => match e with Log _ _ _ => True | _ => False end) evs.

(** A run that has only logged. *)
Definition logged (w w' : world) : Prop :=
  same_store w w' /\ fs w' = fs w /\
  exists evs, trace w' = (evs ++ trace w)%list /\ only_logs evs.

(** ** The files of a tree *)

(** The loop of [collectDirFiles] over the entries of a directory. *)
Fixpoint collect_entries {R : Runtime} (entries : list (string * node))
    (rel : string) (st : collected) : collected :=
  match entries with
  | [] => st
  | (name, entry) :: rest =>
      if MAX_TOTAL_SIZE <? st_totalSize st then st
      else
        let relPath := rel ++ "/" ++ name in
        match entry with
        | Dir _ => collect_entries rest rel (collectDirFiles entry relPath st)
        | File content locked =>
            collect_entries rest rel (collect_file relPath name content locked st)
        end
  end.

(** [file_in dir p content locked]: below the directory [dir], the path
    [p] leads to a file with that content. *)
Inductive file_in : node -> list string -> bytes -> bool -> Prop :=
| file_here name content locked entries :
    In (name, File content locked) entries ->
    file_in (Dir entries) [name] content locked
| file_below name child entries p content locked :
    In (name, child) entries ->
    file_in child p content locked ->
    file_in (Dir entries) (name :: p) content locked.

(** The name of a file: the last segment of its path. *)
Definition basename (p : list string) : string := List.last p EmptyString.

(** The files the walk takes: not a lock file, not empty, not above the
    cap of a file, readable. *)
Definition eligible (name : string) (content : bytes) (locked : bool) : Prop :=
  includes LOCK_NAMES name = false /\
  0 < file_size content <= MAX_FILE_SIZE /\
  locked = false.


Fixpoint has_slash (s : string) : bool :=
  match s with
  | EmptyString => false
  | String c rest => is_slash c || has_slash rest
  end.

(** The names a directory can hold: not empty, without a slash, neither
    [.] nor [..]. *)
Definition clean_name (s : string) : bool :=
  negb (String.eqb s "") && negb (String.eqb s ".")
  && negb (String.eqb s "..") && negb (has_slash s).

(** A tree as a file system has them: clean names, no name twice in a
    directory. *)
Fixpoint wf_node (n : node) : bool :=
  match n with
  | File _ _ => true
  | Dir entries =>
      bool_decide (NoDup (map fst entries))
      && (fix all (entries : list (string * node)) : bool :=
            match entries with
            | [] => true
            | (name, child) :: rest =>
                clean_name name && wf_node child && all rest
            end) entries
  end.

(** A file of [n] zero bytes. *)
Definition zeros (n : Z) : bytes := repeat x00 (Z.to_nat n).

(** A session whose [IndexedDB] holds four files of [content] and which
    has no [Local Storage]. *)
Definition four_files (content : bytes) : node :=
  Dir [("Default", Dir
    [("IndexedDB", Dir [("000001.ldb", File content false);
                        ("000002.ldb", File content false);
                        ("000003.ldb", File content false);
                        ("000004.ldb", File content false)])])].

(** ** Normalized paths *)

(** A segment that [normalizeString] keeps: not empty, not [.], without a
    slash. *)
Definition kept (s : string) : Prop :=
  s <> "" /\ s <> "." /\ has_slash s = false.

(** Where the resolution of a path starts. *)
Definition base_of (cwd : list string) (p : string) : list string :=
  if is_absolute p then [] else cwd.

(** The segments of a path given to [path.join]. *)
Definition segs_of (p : string) : list string :=
  if String.eqb p "" then [] else split_path p.


(** The directory [Default/d] of a session tree. *)
Definition essential_dir (session : node) (d : string) : option node :=
  lookup_node ["Default"; d] session.


(** ** Restoring into a tree *)


(** An entry of a snapshot of [session]: its key is the path of a file of
    [session], joined, and its value is a string. *)
Definition from_session (session : node) (e : string * value) : Prop :=
  let ks := split_path (fst e) in
  fst e = join_slash ks /\ ks <> [] /\
  Forall (fun s => clean_name s = true) ks /\
  (exists content locked, lookup_node ks session = Some (File content locked)) /\
  exists s, snd e = VStr s.

(** ** The contract of the codecs *)

(** A property name that an engine enumerates as an array index, before
    the other names: a string of digits. *)
Definition index_like (k : string) : bool :=
  negb (String.eqb k "") && forallb is_digit (list_ascii_of_string k).

(** The values that [JSON.stringify] writes and [JSON.parse] reads back as
    they were: no [undefined], no property twice, no property that would
    change its place in the enumeration. *)
Fixpoint plain (v : value) : bool :=
  match v with
  | VUndef => false
  | VNull | VBool _ | VNum _ | VStr _ => true
  | VArr items =>
      (fix all (items : list value) : bool :=
         match items with
         | [] => true
         | x :: rest => plain x && all rest
         end) items
  | VObj props =>
      bool_decide (NoDup (map fst props))
      && (fix all (props : list (string * value)) : bool :=
            match props with
            | [] => true
            | (k, x) :: rest => negb (index_like k) && plain x && all rest
            end) props
  end.

(** What the program relies on: each decoder undoes its encoder, and
    what is encoded is not the empty string. *)
Class RuntimeLaws (R : Runtime) : Prop := {
  base64_roundtrip : forall b, base64_decode (base64_encode b) = b;
  utf8_roundtrip :
    forall v, utf8_decode (utf8_encode (JSON_stringify v)) = JSON_stringify v;
  gzip_roundtrip : forall b z, gzip b = Some z -> gunzip z = Some b;
  json_roundtrip :
    forall v, plain v = true -> JSON_parse (JSON_stringify v) = Some v;
  blob_nonempty :
    forall v, base64_encode (utf8_encode (JSON_stringify v)) <> EmptyString;
  gzip_nonempty :
    forall b z, gzip b = Some z -> base64_encode z <> EmptyString
}.

(** ** The text of a value *)

(** What can follow a value in a text: nothing, a comma, a closing
    bracket. *)
Definition ends_value (s : string) : bool :=
  match s with
  | EmptyString => true
  | String c _ => Ascii.eqb c "," || Ascii.eqb c "]" || Ascii.eqb c "}"
  end.

Definition all_digits (s : string) : bool :=
  forallb is_digit (list_ascii_of_string s).

(** The number of steps the parser takes on the text of a value. *)
Fixpoint size (v : value) : nat :=
  match v with
  | VArr items =>
      S ((fix sum (items : list value) : nat :=
            match items with
            | [] => O
            | x :: rest => S (size x + sum rest)
            end) items)
  | VObj props =>
      S ((fix sum (props : list (string * value)) : nat :=
            match props with
            | [] => O
            | (_, x) :: rest => S (size x + sum rest)
            end) props)
  | _ => 1%nat
  end.

Fixpoint size_items (items : list value) : nat :=
  match items with
  | [] => O
  | x :: rest => S (size x + size_items rest)
  end.

Fixpoint size_members (props : list (string * value)) : nat :=
  match props with
  | [] => O
  | (_, x) :: rest => S (size x + size_members rest)
  end.

(** A value whose text the parser reads back, whatever follows it. *)
Definition reads_back (v : value) : Prop :=
  plain v = true ->
  forall (fuel : nat) (rest : string),
    (size v <= fuel)%nat -> ends_value rest = true ->
    parse_value fuel (print_value v ++ rest) = Some (v, rest).

(** ** What a run leaves of the file system *)

(** What was in [t] is in [t'], a directory as a directory and a file as
    a file. *)
Definition persists (t t' : node) : Prop :=
  forall q n,
    lookup_node q t = Some n ->
    exists n', lookup_node q t' = Some n' /\ is_dir n' = is_dir n.

(** The files of [t] are in [t'] as they were: the locked ones, and those
    that are at none of the places [written]. *)
Definition keeps_files (written : list (list string)) (t t' : node) : Prop :=
  forall q content locked,
    lookup_node q t = Some (File content locked) ->
    locked = true \/ ~ In q written ->
    lookup_node q t' = Some (File content locked).

Definition grows (written : list (list string)) (t t' : node) : Prop :=
  persists t t' /\ keeps_files written t t'.

(** The accounts the store was asked for, latest first. *)
Fixpoint db_gets (tr : list event) : list string :=
  match tr with
  | [] => []
  | DbGet a :: rest => a :: db_gets rest
  | _ :: rest => db_gets rest
  end.

(** What a part of a run of the restorer does to the world: it writes
    the files [written], it clears the row of the account or leaves the
    rows alone, and the rest stays. *)
Definition restore_step (acc : string) (written : list string) (cleared : bool)
    (w w' : world) : Prop :=
  online w' = online w /\ cwd w' = cwd w /\ clock w' = clock w /\
  db_sets (trace w') = db_sets (trace w) /\
  fs_writes (trace w') = (written ++ fs_writes (trace w))%list /\
  grows (map (resolve (cwd w)) written) (fs w) (fs w') /\
  if cleared
  then rows w' = delete acc (rows w)
       /\ db_clears (trace w') = acc :: db_clears (trace w)
  else rows w' = rows w /\ db_clears (trace w') = db_clears (trace w).

(** ** Worlds to run the program in *)

Definition text (s : string) : bytes := list_byte_of_string s.

(** The session of the end-to-end scenario: a log of 10 bytes and a
    pointer file of 4. *)
Definition demo_session : node :=
  Dir [("Default", Dir
    [("IndexedDB", Dir [("000003.log", File (text "0123456789") false)]);
     ("Local Storage", Dir
        [("leveldb", Dir [("CURRENT", File (text "MANI") false)])])])].

(** A process started in the root directory, its store online. *)
Definition world_of (t : node) (r : gmap string string) : world :=
  {| fs := t; cwd := []; rows := r; online := true;
     clock := 1700000000123; trace := [] |}.

Definition demo_world : world :=
  world_of (Dir [("wa-sessions-temp", Dir [("acc1", demo_session)])]) ∅.


(** A stored blob as the reference runtime writes it: the envelope with
    the given [type] around the packed [inner] payload. *)
Definition envelope (type inner : value) : string :=
  ref_base64_encode (ref_utf8_encode (ref_JSON_stringify
    (VObj [("type", type);
           ("data", VStr (ref_base64_encode
                            (default [] (ref_gzip (ref_utf8_encode
                                                     (ref_JSON_stringify inner))))));
           ("saved", VStr (ref_toISOString 1700000000123))]))).

(** The blob of an envelope written as JSON by the reference runtime. *)
Definition blob_of (payload : value) : string :=
  ref_base64_encode (ref_utf8_encode (ref_JSON_stringify payload)).


(** Split a conjunction as it is written, leaving defined predicates
    folded. *)
Ltac splits := repeat match goal with |- _ /\ _ => split end.

(** Linear arithmetic with quotients and remainders by numerals. *)
Ltac div_lia := zify; Z.to_euclidean_division_equations; lia.

(* ================================================================== *)
(** * Theorems *)
(* ================================================================== *)

(** ** The presence check *)
(* ================================================================== *)

(** C8.  [hasPreRestoredSession] returns [true] exactly when
    [Default/IndexedDB] under the session path is a directory whose
    listing is not empty; whatever else the file system holds there (a
    file, nothing) it returns [false]; it never throws and leaves the
    world as it was. *)
Theorem hasPreRestoredSession_spec (sessionPath : string) (w : world) :
  exists b : bool,
    hasPreRestoredSession sessionPath w = (Ok b, w) /\
    (b = true <->
     exists entries,
       fs_lookup (path_join [sessionPath; "Default"; "IndexedDB"]) w
         = Some (Dir entries) /\ entries <> []).
Proof.
  unfold hasPreRestoredSession, try_catch, bind, fs_existsSync, fs_readdirSync, ret.
  destruct (fs_lookup _ w) as [[content locked | entries] | ] eqn:Hl.
  - rewrite bool_decide_eq_true_2 by eauto. rewrite Hl.
    exists false. split; [reflexivity |]. split; [discriminate |].
    intros (es & Hes & _). discriminate.
  - rewrite bool_decide_eq_true_2 by eauto. rewrite Hl.
    destruct entries as [| e es]; cbn.
    + exists false. split; [reflexivity |]. split; [discriminate |].
      intros (es & Hes & Hne). congruence.
    + exists true. split; [reflexivity |]. split; [| reflexivity].
      intros _. eexists. split; [reflexivity | discriminate].
  - rewrite bool_decide_eq_false_2 by (intros [x Hx]; discriminate).
    exists false. split; [reflexivity |]. split; [discriminate |].
    intros (es & Hes & _). discriminate.
Qed.

(** ** Paths that are not empty *)

(** [path.normalize], and so [path.join], never returns the empty
    string: it returns a dot for it. *)
Lemma path_normalize_nonempty p : path_normalize p <> "".
Proof.
  unfold path_normalize. destruct (String.eqb p ""); [discriminate |].
  destruct (String.eqb_spec
              (join_slash (norm_segs (negb (is_absolute p)) (split_path p))) "")
    as [E | E].
  - destruct (is_absolute p); [discriminate |].
    destruct (ends_with_slash p); discriminate.
  - destruct (join_slash _) as [| c body]; [congruence |].
    destruct (ends_with_slash p), (is_absolute p); discriminate.
Qed.

Lemma path_join_nonempty args : String.eqb (path_join args) "" = false.
Proof. apply String.eqb_neq, path_normalize_nonempty. Qed.

Lemma path_dirname_nonempty p : String.eqb (path_dirname p) "" = false.
Proof.
  unfold path_dirname, render.
  destruct (List.filter _ (split_path p)) as [| a [| b l]] eqn:E;
    cbn [removelast].
  1,2: destruct (is_absolute p); reflexivity.
  destruct (is_absolute p); [reflexivity |].
  assert (Ha : negb (String.eqb a "") = true).
  { assert (Hin : In a (List.filter (fun a => negb (String.eqb a ""))
                          (split_path p))) by (rewrite E; left; reflexivity).
    apply List.filter_In in Hin. apply Hin. }
  destruct a as [| c a]; [discriminate |].
  cbn [join_slash]. destruct l; reflexivity.
Qed.

(** [fs.mkdir] of a path that is not the empty string. *)
Lemma fs_mkdir_path p w :
  String.eqb p "" = false ->
  fs_mkdir p w = match mkdir_p (resolve (cwd w) p) (fs w) with
                 | Some t => (Ok tt, with_fs t w)
                 | None => (Throw, w)
                 end.
Proof. unfold fs_mkdir. intros ->. reflexivity. Qed.

Lemma fs_mkdir_empty w : fs_mkdir "" w = (Throw, w).
Proof. reflexivity. Qed.

(** The two directories of [asked], one by one. *)
Lemma asked_Some acc dp w w0 :
  asked acc dp w = Some w0 ->
  String.eqb dp "" = false /\
  exists t1 t2,
    mkdir_p (resolve (cwd w) dp) (fs w) = Some t1 /\
    mkdir_p (resolve (cwd w) (path_join [dp; acc])) t1 = Some t2 /\
    w0 = emit (DbGet acc)
           (emit (Log Info "[Session] Checking database" [VStr acc])
              (with_fs t2 w)).
Proof.
  unfold asked. destruct (String.eqb dp ""); [discriminate |].
  destruct (mkdir_p _ (fs w)) as [t1 |]; [| discriminate].
  cbn [mbind option_bind].
  destruct (mkdir_p _ t1) as [t2 |] eqn:Hm2; [| discriminate].
  cbn [mbind option_bind]. intros [= <-].
  split; [reflexivity |]. exists t1, t2. auto.
Qed.


(** ** The restorer *)

Section Restore.
Context {R : Runtime}.

Lemma same_store_refl w : same_store w w.
Proof. repeat split. Qed.

Lemma same_store_trans w1 w2 w3 :
  same_store w1 w2 -> same_store w2 w3 -> same_store w1 w3.
Proof.
  unfold same_store. intros (? & ? & ? & ?) (? & ? & ? & ?).
  repeat split; congruence.
Qed.

Lemma same_store_emit e w : same_store w (emit e w).
Proof. repeat split. Qed.

Lemma same_store_with_fs t w : same_store w (with_fs t w).
Proof. repeat split. Qed.

Lemma fs_mkdir_inv p w r w' :
  fs_mkdir p w = (r, w') ->
  same_store w w' /\ trace w' = trace w /\
  ((r = Throw /\ w' = w) \/
   (r = Ok tt /\ exists t, mkdir_p (resolve (cwd w) p) (fs w) = Some t
                            /\ w' = with_fs t w)).
Proof.
  unfold fs_mkdir. destruct (String.eqb p "").
  { intros [= <- <-]. split; [apply same_store_refl |].
    split; [reflexivity |]. left. auto. }
  destruct (mkdir_p _ _) as [t |]; intros [= <- <-].
  - split; [apply same_store_with_fs |]. split; [reflexivity |].
    right. eauto.
  - split; [apply same_store_refl |]. split; [reflexivity |]. left. auto.
Qed.

Lemma fs_writeFile_inv p data w r w' :
  fs_writeFile p data w = (r, w') ->
  same_store w w' /\
  ((r = Throw /\ w' = w) \/
   (r = Ok tt /\ ends_with_slash p = false /\
    exists t, write_node (resolve (cwd w) p) data (fs w) = Some t
              /\ w' = emit (FsWrite p) (with_fs t w))).
Proof.
  unfold fs_writeFile. destruct (ends_with_slash p).
  { intros [= <- <-]. split; [apply same_store_refl | left; auto]. }
  destruct (write_node _ _ _) as [t |]; intros [= <- <-].
  - split; [repeat split |]. right. eauto.
  - split; [apply same_store_refl | left; auto].
Qed.

(** One entry: either the file is written, which the trace records, or
    the entry throws and no file is written. *)
Lemma restore_entry_inv sp relPath v w r w' :
  restore_entry sp relPath v w = (r, w') ->
  same_store w w' /\
  ((r = Throw /\ trace w' = trace w) \/
   (r = Ok tt /\ trace w' = FsWrite (path_join [sp; relPath]) :: trace w)).
Proof.
  unfold restore_entry, bind.
  destruct (fs_mkdir _ w) as [r1 w1] eqn:H1.
  apply fs_mkdir_inv in H1 as (Hs1 & Ht1 & H1).
  destruct H1 as [(-> & ->) | (-> & t & _ & ->)].
  { intros [= <- <-]. auto. }
  unfold lift. destruct (Buffer_from_base64 v) as [data |]; cbn [ret throw].
  2:{ intros [= <- <-]. split; [assumption | left; auto]. }
  intros H2. apply fs_writeFile_inv in H2 as (Hs2 & H2).
  split; [exact (same_store_trans _ _ _ Hs1 Hs2) |].
  destruct H2 as [(-> & ->) | (-> & _ & t' & _ & ->)]; [left | right]; auto.
Qed.

(** The loop never throws; the count it returns has grown by the number
    of files written. *)
Lemma restore_entries_spec sp entries :
  forall n w, exists n' w' written,
    restore_entries sp entries n w = (Ok n', w') /\
    same_store w w' /\
    db_clears (trace w') = db_clears (trace w) /\
    db_sets (trace w') = db_sets (trace w) /\
    fs_writes (trace w') = (written ++ fs_writes (trace w))%list /\
    n' = n + Z.of_nat (List.length written).
Proof.
  induction entries as [| [relPath v] rest IH]; intros n w.
  - exists n, w, []. cbn.
    splits; try reflexivity; [apply same_store_refl | lia].
  - cbn [restore_entries]. unfold bind at 1. unfold try_catch, bind at 1.
    destruct (restore_entry sp relPath v w) as [r1 w1] eqn:H1.
    apply restore_entry_inv in H1 as (Hs1 & H1).
    destruct H1 as [(-> & Ht1) | (-> & Ht1)].
    + unfold log, bind, ret. cbn.
      destruct (IH n (emit (Log Warn "[Session] Failed" [VStr relPath]) w1))
        as (n' & w' & written & Hrun & Hs & Hc & Hd & Hw & Hn).
      exists n', w', written. rewrite Hrun. cbn in *.
      rewrite Ht1 in *.
      splits; try assumption; try reflexivity.
      exact (same_store_trans _ _ _ Hs1
               (same_store_trans _ _ _ (same_store_emit _ _) Hs)).
    + unfold ret.
      destruct (IH (n + 1) w1) as (n' & w' & written & Hrun & Hs & Hc & Hd & Hw & Hn).
      exists n', w', (written ++ [path_join [sp; relPath]])%list.
      rewrite Hrun. rewrite Ht1 in *. cbn in *.
      splits; try assumption; try reflexivity.
      * exact (same_store_trans _ _ _ Hs1 Hs).
      * rewrite Hw. rewrite <- app_assoc. reflexivity.
      * rewrite length_app. cbn. lia.
Qed.

(** *** The decoded files *)

Lemma restore_files_empty sp files w :
  no_entries files = true ->
  restore_files sp files w =
    (Ok {| restored := false; sessionPath := sp |},
     emit (Log Warn "[Session] Empty session" []) w).
Proof.
  unfold no_entries, restore_files. intros ->. reflexivity.
Qed.

Lemma restore_files_some sp files w :
  no_entries files = false ->
  exists w' written,
    restore_files sp files w =
      (Ok {| restored := true; sessionPath := sp |}, w') /\
    same_store w w' /\
    db_clears (trace w') = db_clears (trace w) /\
    db_sets (trace w') = db_sets (trace w) /\
    fs_writes (trace w') = (written ++ fs_writes (trace w))%list /\
    exists older,
      trace w' =
        Log Info "[Session] Restored"
          [VNum (Z.of_nat (List.length written));
           VNum (Z.of_nat (List.length (Object_keys files)))] :: older.
Proof.
  unfold no_entries, restore_files. intros ->.
  unfold bind at 1. unfold log at 1. unfold bind at 1.
  destruct (restore_entries_spec sp (Object_entries files) 0
              (emit (Log Info "[Session] Restoring files"
                       [VNum (Z.of_nat (List.length (Object_keys files)))]) w))
    as (n' & w' & written & Hrun & Hs & Hc & Hd & Hw & Hn).
  rewrite Hrun. unfold bind, log, ret. cbn in *.
  eexists _, written. splits; try reflexivity; try assumption.
  subst n'. eexists. reflexivity.
Qed.

(** [restore_files] never throws and answers with the session path. *)
Lemma restore_files_total sp files w :
  exists b w', restore_files sp files w
               = (Ok {| restored := b; sessionPath := sp |}, w').
Proof.
  destruct (no_entries files) eqn:He.
  - rewrite restore_files_empty by assumption. eauto.
  - destruct (restore_files_some sp files w He) as (w' & ? & -> & _). eauto.
Qed.

(** *** The parsed envelope *)

Lemma restore_payload_null acc sp payload w :
  get_prop payload "data" = None ->
  restore_payload acc sp payload w = (Throw, w).
Proof. unfold restore_payload, bind, lift. intros ->. reflexivity. Qed.

Lemma restore_payload_unknown acc sp payload data w :
  get_prop payload "data" = Some data ->
  truthy data = false ->
  exists type,
    restore_payload acc sp payload w =
      (Ok {| restored := false; sessionPath := sp |},
       emit (Log Warn "[Session] Unknown format" [type]) w).
Proof.
  unfold restore_payload, bind, lift. intros Hd Ht. rewrite Hd. cbn.
  rewrite Ht.
  destruct payload; try discriminate; cbn; eexists; reflexivity.
Qed.

Lemma restore_payload_corrupt acc sp payload data w :
  get_prop payload "data" = Some data ->
  truthy data = true ->
  decode_files data = None ->
  restore_payload acc sp payload w =
    let w1 := emit (DbClear acc)
                (emit (Log Error "[Session] Decompression failed" []) w) in
    if online w
    then (Ok {| restored := false; sessionPath := sp |},
          with_rows (delete acc (rows w)) w1)
    else (Throw, w1).
Proof.
  unfold restore_payload, bind, lift. intros Hd Ht Hf. rewrite Hd. cbn.
  rewrite Ht. unfold try_catch, bind. rewrite Hf. cbn.
  unfold db_clearSessionData. cbn. destruct (online w); reflexivity.
Qed.

Lemma restore_payload_files acc sp payload data files w :
  get_prop payload "data" = Some data ->
  truthy data = true ->
  decode_files data = Some files ->
  restore_payload acc sp payload w = restore_files sp files w.
Proof.
  unfold restore_payload, bind, lift. intros Hd Ht Hf. rewrite Hd. cbn.
  rewrite Ht. unfold try_catch, bind. rewrite Hf. cbn.
  destruct (restore_files sp files w) as [[r |] w']; reflexivity.
Qed.

(** Whatever [restore_payload] returns carries the session path. *)
Lemma restore_payload_result acc sp payload w res w' :
  restore_payload acc sp payload w = (res, w') ->
  res = Throw \/ exists b, res = Ok {| restored := b; sessionPath := sp |}.
Proof.
  destruct (get_prop payload "data") as [data |] eqn:Hd.
  2:{ rewrite restore_payload_null by assumption. intros [= <- <-]. auto. }
  destruct (truthy data) eqn:Ht.
  2:{ destruct (restore_payload_unknown acc sp payload data w Hd Ht) as (ty & ->).
      intros [= <- <-]. eauto. }
  destruct (decode_files data) as [files |] eqn:Hf.
  - rewrite (restore_payload_files acc sp payload data files) by assumption.
    destruct (restore_files_total sp files w) as (b & w2 & ->).
    intros [= <- <-]. eauto.
  - rewrite (restore_payload_corrupt acc sp payload data) by assumption.
    cbn. destruct (online w); intros [= <- <-]; eauto.
Qed.

(** *** The whole function *)

Lemma asked_same_store acc dp w w0 :
  asked acc dp w = Some w0 ->
  same_store w w0 /\ db_clears (trace w0) = db_clears (trace w)
  /\ db_sets (trace w0) = db_sets (trace w)
  /\ fs_writes (trace w0) = fs_writes (trace w).
Proof.
  intros Ha. apply asked_Some in Ha as (_ & t1 & t2 & _ & _ & ->).
  cbn. splits; try reflexivity. repeat split.
Qed.

(** With the store online and holding a non-empty blob for the account,
    the body parses the blob and goes on with the envelope. *)
Lemma preRestoreSession_body_blob acc dp w w0 blob :
  asked acc dp w = Some w0 ->
  online w = true ->
  rows w !! acc = Some blob ->
  blob <> EmptyString ->
  preRestoreSession_body acc dp (path_join [dp; acc]) w =
    match JSON_parse (utf8_decode (base64_decode blob)) with
    | None =>
        (Ok {| restored := false; sessionPath := path_join [dp; acc] |},
         with_rows (delete acc (rows w))
           (emit (DbClear acc)
              (emit (Log Error "[Session] Corrupted session data, clearing" [])
                 w0)))
    | Some payload => restore_payload acc (path_join [dp; acc]) payload w0
    end.
Proof.
  unfold preRestoreSession_body. intros Ha Ho Hr Hb.
  apply asked_Some in Ha as (Hdp & t1 & t2 & Hm1 & Hm2 & ->).
  unfold bind at 1. rewrite (fs_mkdir_path _ _ Hdp), Hm1.
  unfold bind at 1. rewrite (fs_mkdir_path _ _ (path_join_nonempty _)).
  cbn [cwd with_fs fs]. rewrite Hm2.
  unfold bind at 1. unfold log at 1.
  unfold bind at 1. unfold db_getSessionData at 1. cbn [online emit with_fs rows].
  rewrite Ho, Hr.
  destruct blob as [| c blob]; [congruence |].
  destruct (JSON_parse _) as [payload |]; [reflexivity |].
  unfold bind, log, db_clearSessionData, ret. cbn. rewrite Ho. reflexivity.
Qed.

(** Whatever the body returns carries the session path. *)
Lemma preRestoreSession_body_result acc dp sp w res w' :
  preRestoreSession_body acc dp sp w = (res, w') ->
  res = Throw \/ exists b, res = Ok {| restored := b; sessionPath := sp |}.
Proof.
  unfold preRestoreSession_body.
  unfold bind at 1. destruct (fs_mkdir dp w) as [[[] |] w1].
  2:{ intros [= <- <-]. auto. }
  unfold bind at 1. destruct (fs_mkdir sp w1) as [[[] |] w2].
  2:{ intros [= <- <-]. auto. }
  unfold bind at 1. unfold log at 1.
  unfold bind at 1. unfold db_getSessionData at 1.
  destruct (online _).
  2:{ intros [= <- <-]. auto. }
  destruct (rows _ !! acc) as [[| c blob] |].
  1,3: unfold bind, log, ret; cbn; intros [= <- <-]; eauto.
  destruct (JSON_parse _) as [payload |].
  - apply restore_payload_result.
  - unfold bind, log, db_clearSessionData, ret. cbn.
    destruct (online w2); intros [= <- <-]; eauto.
Qed.

End Restore.

(** C9, amended.  Called with an account identifier that is a string and
    a data path that is a string or left out, [preRestoreSession] never
    throws: in every world (whatever the store holds) it returns an
    object whose [sessionPath] is the join of the data path and the
    account identifier; and when anything inside its [try] throws,
    [restored] is [false].  Called with an account identifier that is
    not a string, or with a data path that is neither a string nor
    [undefined], it throws to its caller: [path.join] is before the
    [try]. *)
Theorem preRestoreSession_total {R : Runtime} (accountId : string)
    (dataPath : option string) (w : world) :
  let given := match dataPath with Some s => VStr s | None => VUndef end in
  let dp := default "./wa-sessions-temp" dataPath in
  (exists r w',
     exports_preRestoreSession (VStr accountId) given w = (Ok r, w') /\
     sessionPath r = path_join [dp; accountId] /\
     (forall w1,
         preRestoreSession_body accountId dp (path_join [dp; accountId]) w
         = (Throw, w1) ->
         restored r = false))
  /\
  (forall v other,
      (forall s, v <> VStr s) ->
      exports_preRestoreSession v other w = (Throw, w))
  /\
  (forall v a,
      v <> VUndef -> (forall s, v <> VStr s) ->
      exports_preRestoreSession a v w = (Throw, w)).
Proof.
  cbv zeta. splits.
  - assert (Hcall :
      exports_preRestoreSession (VStr accountId)
        match dataPath with Some s => VStr s | None => VUndef end w
      = preRestoreSession accountId (default "./wa-sessions-temp" dataPath) w)
      by (destruct dataPath; reflexivity).
    rewrite Hcall. set (dp := default "./wa-sessions-temp" dataPath).
    unfold preRestoreSession, try_catch.
    destruct (preRestoreSession_body accountId dp _ w) as [res w1] eqn:Hb.
    destruct (preRestoreSession_body_result _ _ _ _ _ _ Hb) as [-> | (b & ->)].
    + unfold bind, log, ret. cbn. eexists _, _. splits; try reflexivity.
    + eexists _, _. splits; try reflexivity. intros w2 [=].
  - intros v other Hv. unfold exports_preRestoreSession.
    destruct v; try (exfalso; exact (Hv _ eq_refl));
      destruct other; reflexivity.
  - intros v a Hundef Hv. unfold exports_preRestoreSession.
    destruct v; try congruence; try reflexivity;
      exfalso; exact (Hv _ eq_refl).
Qed.

Lemma preRestoreSession_total_witness :
  let w := world_of (Dir []) {["acc1" := blob_of (VStr "no envelope")]} in
  (exists r w',
     exports_preRestoreSession (VStr "acc1") VUndef w = (Ok r, w') /\
     sessionPath r = path_join ["./wa-sessions-temp"; "acc1"]) /\
  exports_preRestoreSession (VNum 42) VUndef w = (Throw, w) /\
  exports_preRestoreSession (VStr "acc1") VNull w = (Throw, w).
Proof.
  intros w.
  destruct (preRestoreSession_total "acc1" None w)
    as ((r & w' & Hrun & Hsp & _) & Hid & Hpath).
  split; [exists r, w'; split; [exact Hrun | exact Hsp] |].
  split.
  - apply Hid. intros s. discriminate.
  - apply Hpath; [discriminate |]. intros s. discriminate.
Defined.

(** C9 as stated fails for the account identifiers that are not strings:
    with the number 42, or with no argument at all, and with a data path
    that is [null], the call throws. *)
Lemma preRestoreSession_throws_counterexample :
  let w := world_of (Dir []) {["42" := envelope (VStr "session_v4") (VObj [])]} in
  exports_preRestoreSession (VNum 42) VUndef w = (Throw, w) /\
  exports_preRestoreSession VUndef VUndef w = (Throw, w) /\
  exports_preRestoreSession (VStr "42") VNull w = (Throw, w).
Proof. intros w. splits; reflexivity. Qed.


(** ** The collector and the packager *)

Section Save.
Context {R : Runtime}.

Lemma logged_refl w : logged w w.
Proof.
  split; [apply same_store_refl |]. split; [reflexivity |].
  exists []. split; [reflexivity | constructor].
Qed.

Lemma logged_emit lvl text args w w' :
  logged (emit (Log lvl text args) w) w' -> logged w w'.
Proof.
  intros (Hs & Hf & evs & Ht & Hl).
  split; [exact (same_store_trans _ _ _ (same_store_emit _ _) Hs) |].
  split; [exact Hf |].
  exists (evs ++ [Log lvl text args])%list. split.
  - rewrite Ht. cbn. rewrite <- app_assoc. reflexivity.
  - apply Forall_app. split; [assumption |]. repeat constructor.
Qed.

Lemma fs_lookup_logged p w w' : logged w w' -> fs_lookup p w' = fs_lookup p w.
Proof.
  intros ((_ & _ & Hc & _) & Hf & _). unfold fs_lookup. rewrite Hc, Hf.
  reflexivity.
Qed.

Lemma essential_snapshot_logged w w' dp dirs :
  logged w w' ->
  forall files total,
    essential_snapshot w' dp dirs files total
    = essential_snapshot w dp dirs files total.
Proof.
  intros Hl. induction dirs as [| d rest IH]; intros files total; cbn.
  - reflexivity.
  - rewrite (fs_lookup_logged _ _ _ Hl).
    destruct (fs_lookup _ w); apply IH.
Qed.

Lemma logs_no_effect evs tr :
  only_logs evs ->
  db_sets (evs ++ tr) = db_sets tr /\
  db_clears (evs ++ tr) = db_clears tr /\
  fs_writes (evs ++ tr) = fs_writes tr.
Proof.
  induction 1 as [| e evs He _ IH]; [auto |].
  destruct e; try contradiction. cbn. exact IH.
Qed.

Lemma snapshot_logged w w' sp :
  logged w w' -> snapshot sp w' = snapshot sp w.
Proof. intros Hl. apply essential_snapshot_logged, Hl. Qed.

(** The loop over the essential directories never throws and only logs. *)
Lemma collect_essential_spec defaultPath dirs :
  forall files total w, exists w',
    collect_essential defaultPath dirs files total w
    = (Ok (essential_snapshot w defaultPath dirs files total), w')
    /\ logged w w'.
Proof.
  induction dirs as [| d rest IH]; intros files total w.
  - exists w. split; [reflexivity | apply logged_refl].
  - cbn [collect_essential essential_snapshot].
    unfold bind at 1. unfold try_catch, bind at 1. unfold fs_access.
    destruct (fs_lookup (path_join [defaultPath; d]) w) as [dir |] eqn:Hd.
    + cbn. rewrite Hd. cbn. apply IH.
    + unfold bind, log, ret. cbn.
      destruct (IH files total
                  (emit (Log Warn "[Session] Missing essential dir" [VStr d]) w))
        as (w' & Hrun & Hl).
      exists w'. rewrite Hrun. split; [| eapply logged_emit; eassumption].
      rewrite (essential_snapshot_logged w _ defaultPath rest); [reflexivity |].
      eapply logged_emit. apply logged_refl.
Qed.

Lemma collectEssentialFiles_spec sp w :
  exists w',
    collectEssentialFiles sp w = (Ok (snapshot sp w), w') /\ logged w w'.
Proof. apply collect_essential_spec. Qed.

Lemma pack_spec files acc w :
  pack files acc w =
    match packed files acc (clock w) with
    | Some blob => (Ok blob, w)
    | None => (Throw, w)
    end.
Proof.
  unfold pack, packed, bind, Date_now, lift.
  destruct (gzip _); reflexivity.
Qed.

(** The paths of a run of [saveSession]: it never throws; it answers
    [true] exactly when the blob is packed and the store takes it; the
    store is called only with that blob. *)
Lemma saveSession_cases acc dp w :
  exists b w',
    saveSession acc dp w = (Ok b, w') /\
    fs w' = fs w /\ online w' = online w /\
    fs_writes (trace w') = fs_writes (trace w) /\
    db_clears (trace w') = db_clears (trace w) /\
    let sp := path_join [dp; acc] in
    match fs_lookup (path_join [sp; "Default"]) w with
    | None =>
        b = false /\ rows w' = rows w /\ db_sets (trace w') = db_sets (trace w)
    | Some _ =>
        match fst (snapshot sp w) with
        | [] =>
            b = false /\ rows w' = rows w
            /\ db_sets (trace w') = db_sets (trace w)
        | files =>
            match packed files acc (clock w) with
            | None =>
                b = false /\ rows w' = rows w
                /\ db_sets (trace w') = db_sets (trace w)
            | Some blob =>
                db_sets (trace w') = (acc, blob) :: db_sets (trace w) /\
                if online w
                then b = true /\ rows w' = <[acc := blob]> (rows w)
                else b = false /\ rows w' = rows w
            end
        end
    end.
Proof.
  unfold saveSession. cbv zeta. unfold try_catch at 1. unfold bind at 1.
  unfold try_catch at 1. unfold bind at 1. unfold fs_access.
  destruct (fs_lookup (path_join [path_join [dp; acc]; "Default"]) w)
    as [dflt |] eqn:Hd.
  2:{ unfold bind, log, ret. cbn. eexists _, _. splits; reflexivity. }
  cbn [ret]. unfold bind at 1. unfold log at 1. unfold bind at 1.
  destruct (collectEssentialFiles_spec (path_join [dp; acc])
              (emit (Log Info "[Session] Collecting essential files" []) w))
    as (w1 & Hrun & Hl).
  rewrite Hrun.
  assert (Hl0 : logged w w1) by (eapply logged_emit; eassumption).
  clear Hl Hrun.
  rewrite (snapshot_logged w (emit _ w)) by (eapply logged_emit; apply logged_refl).
  destruct (snapshot (path_join [dp; acc]) w) as [files total].
  cbn [fst].
  destruct Hl0 as ((Hr & Ho & Hc & Hk) & Hf & evs & Ht & Hevs).
  destruct (logs_no_effect evs (trace w) Hevs) as (Hs1 & Hc1 & Hw1).
  destruct files as [| f files].
  { unfold bind, log, ret. cbn. eexists _, _.
    splits; try reflexivity; try assumption; cbn; rewrite Ht; assumption. }
  cbn [List.length Nat.eqb].
  unfold bind at 1. unfold log at 1. unfold bind at 1.
  rewrite pack_spec. cbn [clock emit]. rewrite Hk.
  destruct (packed (f :: files) acc (clock w)) as [blob |].
  2:{ unfold bind, log, ret. cbn. eexists _, _.
      splits; try reflexivity; try assumption; cbn; rewrite Ht; assumption. }
  unfold bind at 1. unfold log at 1. unfold bind at 1.
  unfold db_saveSessionData. cbn [online emit]. rewrite Ho.
  destruct (online w).
  - unfold bind, log, ret. cbn. eexists _, _.
    splits; try reflexivity; try assumption; cbn; rewrite ?Ht, ?Hr; try assumption.
    + rewrite Hs1. reflexivity.
    + reflexivity.
  - unfold bind, log, ret. cbn. eexists _, _.
    splits; try reflexivity; try assumption; cbn; rewrite ?Ht; try assumption.
    rewrite Hs1. reflexivity.
Qed.

End Save.




(** ** Empty payloads *)

(** C7.  When the decoded payload has no [files] or its [files] has no
    entry, [preRestoreSession] answers [restored: false] and writes no
    file; when the collection has no entry, [saveSession] answers
    [false]. *)
Theorem empty_payload_not_restored {R : Runtime}
    (accountId dataPath blob : string) (w w0 : world)
    (payload data files : value) :
  (asked accountId dataPath w = Some w0 ->
   online w = true ->
   rows w !! accountId = Some blob ->
   blob <> EmptyString ->
   JSON_parse (utf8_decode (base64_decode blob)) = Some payload ->
   get_prop payload "data" = Some data ->
   truthy data = true ->
   decode_files data = Some files ->
   files = VUndef \/ Object_keys files = [] ->
   exists w',
     preRestoreSession accountId dataPath w
       = (Ok {| restored := false;
                sessionPath := path_join [dataPath; accountId] |}, w') /\
     fs_writes (trace w') = fs_writes (trace w) /\
     fs w' = fs w0)
  /\
  (fst (snapshot (path_join [dataPath; accountId]) w) = [] ->
   exists w', saveSession accountId dataPath w = (Ok false, w')).
Proof.
  split.
  - intros Ha Ho Hr Hb Hp Hd Ht Hf He.
    unfold preRestoreSession, try_catch.
    rewrite (preRestoreSession_body_blob _ _ _ _ _ Ha Ho Hr Hb), Hp.
    rewrite (restore_payload_files _ _ _ _ _ _ Hd Ht Hf).
    rewrite restore_files_empty.
    + eexists. splits; try reflexivity. cbn.
      apply (asked_same_store _ _ _ _ Ha).
    + unfold no_entries. destruct He as [-> | ->]; [reflexivity |].
      apply orb_true_r.
  - intros He.
    destruct (saveSession_cases accountId dataPath w)
      as (b & w1 & Hrun & _ & _ & _ & _ & Hcase).
    cbv zeta in Hcase. rewrite Hrun.
    destruct (fs_lookup _ w); [rewrite He in Hcase |];
      destruct Hcase as (-> & _); eauto.
Qed.

Lemma empty_payload_not_restored_witness :
  let w := world_of (Dir [])
             {["acc1" := envelope (VStr "session_v4") (VObj [("id", VStr "acc1")])]} in
  (exists w',
     preRestoreSession "acc1" "./wa-sessions-temp" w
       = (Ok {| restored := false; sessionPath := "wa-sessions-temp/acc1" |}, w') /\
     fs_writes (trace w') = [] /\
     fs w' = Dir [("wa-sessions-temp", Dir [("acc1", Dir [])])])
  /\
  (exists w',
     saveSession "acc1" "./wa-sessions-temp"
       (world_of (Dir [("wa-sessions-temp", Dir [("acc1",
          Dir [("Default", Dir [("IndexedDB", Dir [("LOCK", File [] false)])])])])]) ∅)
       = (Ok false, w')).
Proof.
  intros w. split.
  - eapply (proj1 (empty_payload_not_restored "acc1" "./wa-sessions-temp"
                     _ w (default w (asked "acc1" "./wa-sessions-temp" w))
                     _ _ VUndef)).
    + reflexivity.
    + reflexivity.
    + reflexivity.
    + discriminate.
    + vm_compute. reflexivity.
    + reflexivity.
    + reflexivity.
    + vm_compute. reflexivity.
    + left. reflexivity.
  - eapply (proj2 (empty_payload_not_restored "acc1" "./wa-sessions-temp"
                     EmptyString _ (world_of (Dir []) ∅) VUndef VUndef VUndef)).
    vm_compute. reflexivity.
Defined.

(** ** Dispatch on the payload, not on the tag *)

(** The rows of the store play no part in writing the files back. *)
Lemma restore_entry_with_rows {R : Runtime} r sp relPath v w :
  restore_entry sp relPath v (with_rows r w) =
    (fst (restore_entry sp relPath v w),
     with_rows r (snd (restore_entry sp relPath v w))).
Proof.
  unfold restore_entry, bind.
  rewrite !fs_mkdir_path by apply path_dirname_nonempty.
  unfold fs_writeFile, lift. cbn.
  destruct (mkdir_p _ (fs w)) as [t |]; [| reflexivity]. cbn.
  destruct (Buffer_from_base64 v) as [data |]; [| reflexivity]. cbn.
  destruct (ends_with_slash _); [reflexivity |].
  destruct (write_node _ data t); reflexivity.
Qed.

Lemma restore_entries_cons {R : Runtime} sp relPath v rest n w :
  restore_entries sp ((relPath, v) :: rest) n w =
    match restore_entry sp relPath v w with
    | (Ok _, w1) => restore_entries sp rest (n + 1) w1
    | (Throw, w1) =>
        restore_entries sp rest n
          (emit (Log Warn "[Session] Failed" [VStr relPath]) w1)
    end.
Proof.
  cbn [restore_entries]. unfold bind, try_catch, log, ret.
  destruct (restore_entry sp relPath v w) as [[[] |] w1]; reflexivity.
Qed.

Lemma restore_entries_with_rows {R : Runtime} r sp entries :
  forall n w,
    restore_entries sp entries n (with_rows r w) =
      (fst (restore_entries sp entries n w),
       with_rows r (snd (restore_entries sp entries n w))).
Proof.
  induction entries as [| [relPath v] rest IH]; intros n w; [reflexivity |].
  rewrite !restore_entries_cons, restore_entry_with_rows.
  destruct (restore_entry sp relPath v w) as [[[] |] w1]; cbn [fst snd].
  - apply IH.
  - apply (IH n (emit (Log Warn "[Session] Failed" [VStr relPath]) w1)).
Qed.

Lemma restore_files_with_rows {R : Runtime} r sp files w :
  restore_files sp files (with_rows r w) =
    (fst (restore_files sp files w), with_rows r (snd (restore_files sp files w))).
Proof.
  unfold restore_files. destruct (_ || _); [reflexivity |].
  unfold bind, log.
  change (emit ?e (with_rows r w)) with (with_rows r (emit e w)).
  rewrite restore_entries_with_rows.
  destruct (restore_entries _ _ _ _) as [[n |] w1]; reflexivity.
Qed.


Lemma truthy_nonempty d : d <> EmptyString -> truthy (VStr d) = true.
Proof. destruct d; [congruence | reflexivity]. Qed.


(** ** When the store is cleared *)




(** ** What a restore reports *)




(** ** The collector *)

Lemma node_induction (P : node -> Prop) :
  (forall content locked, P (File content locked)) ->
  (forall entries, Forall (fun e => P (snd e)) entries -> P (Dir entries)) ->
  forall n, P n.
Proof.
  intros Hfile Hdir.
  fix IH 1. intros [content locked | entries].
  - apply Hfile.
  - apply Hdir. induction entries as [| [name child] rest IHrest].
    + constructor.
    + constructor; [apply IH | exact IHrest].
Qed.

Section Collect.
Context {R : Runtime}.

Lemma collectDirFiles_Dir entries rel st :
  collectDirFiles (Dir entries) rel st = collect_entries entries rel st.
Proof.
  revert st. induction entries as [| [name entry] rest IH]; intros st.
  - reflexivity.
  - cbn [collect_entries]. cbn [collectDirFiles].
    destruct (MAX_TOTAL_SIZE <? st_totalSize st); [reflexivity |].
    destruct entry as [content locked | sub]; apply IH.
Qed.

(** Once the running total is above the budget the walk adds nothing. *)
Lemma collectDirFiles_over dir rel st :
  MAX_TOTAL_SIZE < st_totalSize st ->
  collectDirFiles dir rel st = st.
Proof.
  intros Hover. destruct dir as [content locked | entries]; [reflexivity |].
  rewrite collectDirFiles_Dir. destruct entries as [| [name entry] rest].
  - reflexivity.
  - cbn [collect_entries].
    destruct (Z.ltb_spec MAX_TOTAL_SIZE (st_totalSize st)); [reflexivity | lia].
Qed.

(** A file adds at most its size, and nothing above the cap of a file. *)
Lemma collect_file_total relPath name content locked st :
  st_totalSize st <= st_totalSize (collect_file relPath name content locked st)
    <= st_totalSize st + MAX_FILE_SIZE.
Proof.
  unfold collect_file.
  assert (0 <= file_size content) by (unfold file_size; lia).
  assert (0 < MAX_FILE_SIZE) by reflexivity.
  destruct (includes _ _); [lia |].
  destruct (Z.eqb_spec (file_size content) 0); cbn [orb]; [lia |].
  destruct (Z.ltb_spec MAX_FILE_SIZE (file_size content)); [lia |].
  destruct locked; cbn; lia.
Qed.

(** The running total never decreases, and never passes the budget by
    more than one file. *)
Lemma collectDirFiles_total dir :
  forall rel st,
    st_totalSize st <= st_totalSize (collectDirFiles dir rel st) /\
    (st_totalSize st <= MAX_TOTAL_SIZE + MAX_FILE_SIZE ->
     st_totalSize (collectDirFiles dir rel st)
       <= MAX_TOTAL_SIZE + MAX_FILE_SIZE).
Proof.
  induction dir as [content locked | entries IH] using node_induction;
    intros rel st.
  - cbn. lia.
  - rewrite collectDirFiles_Dir. revert st.
    induction IH as [| [name entry] rest Hentry _ IHrest]; intros st.
    + cbn. lia.
    + cbn [collect_entries].
      destruct (Z.ltb_spec MAX_TOTAL_SIZE (st_totalSize st)); [lia |].
      destruct entry as [content locked | sub].
      * pose proof (collect_file_total (rel ++ "/" ++ name) name content locked st).
        specialize (IHrest (collect_file (rel ++ "/" ++ name) name content locked st)).
        lia.
      * cbn [snd] in Hentry.
        specialize (Hentry (rel ++ "/" ++ name) st).
        specialize (IHrest (collectDirFiles (Dir sub) (rel ++ "/" ++ name) st)).
        lia.
Qed.

Lemma obj_set_keys k v props :
  exists more, map fst (obj_set k v props) = (map fst props ++ more)%list.
Proof.
  induction props as [| [k' v'] rest (more & IH)]; cbn.
  - exists [k]. reflexivity.
  - destruct (String.eqb k k') eqn:E; cbn.
    + apply String.eqb_eq in E as ->. exists []. rewrite app_nil_r. reflexivity.
    + exists more. rewrite IH. reflexivity.
Qed.

Lemma collect_file_keys relPath name content locked st :
  exists more,
    map fst (st_files (collect_file relPath name content locked st))
    = (map fst (st_files st) ++ more)%list.
Proof.
  unfold collect_file.
  destruct (includes _ _); [exists []; symmetry; apply app_nil_r |].
  destruct (_ || _); [exists []; symmetry; apply app_nil_r |].
  destruct locked; [exists []; symmetry; apply app_nil_r |].
  apply obj_set_keys.
Qed.

(** The entries accepted so far stay where they are. *)
Lemma collectDirFiles_keys dir :
  forall rel st, exists more,
    map fst (st_files (collectDirFiles dir rel st))
    = (map fst (st_files st) ++ more)%list.
Proof.
  induction dir as [content locked | entries IH] using node_induction;
    intros rel st.
  - exists []. symmetry. apply app_nil_r.
  - rewrite collectDirFiles_Dir. revert st.
    induction IH as [| [name entry] rest Hentry _ IHrest]; intros st.
    + exists []. symmetry. apply app_nil_r.
    + cbn [collect_entries].
      destruct (MAX_TOTAL_SIZE <? st_totalSize st);
        [exists []; symmetry; apply app_nil_r |].
      destruct entry as [content locked | sub].
      * destruct (collect_file_keys (rel ++ "/" ++ name) name content locked st)
          as (m1 & H1).
        destruct (IHrest (collect_file (rel ++ "/" ++ name) name content locked st))
          as (m2 & H2).
        exists (m1 ++ m2)%list. rewrite H2, H1, app_assoc. reflexivity.
      * cbn [snd] in Hentry.
        destruct (Hentry (rel ++ "/" ++ name) st) as (m1 & H1).
        destruct (IHrest (collectDirFiles (Dir sub) (rel ++ "/" ++ name) st))
          as (m2 & H2).
        exists (m1 ++ m2)%list. rewrite H2, H1, app_assoc. reflexivity.
Qed.

(** Every essential directory is walked from a running total of zero. *)
Lemma essential_snapshot_total w dp dirs :
  forall files total,
    snd (essential_snapshot w dp dirs files total)
    <= total + Z.of_nat (List.length dirs) * (MAX_TOTAL_SIZE + MAX_FILE_SIZE).
Proof.
  induction dirs as [| d rest IH]; intros files total.
  - cbn. lia.
  - cbn [essential_snapshot List.length].
    destruct (fs_lookup _ w) as [dir |].
    + pose proof (collectDirFiles_total dir ("Default/" ++ d)
                    {| st_files := files; st_totalSize := 0 |}) as (_ & Hb).
      cbn [st_totalSize] in Hb.
      assert (0 <= MAX_TOTAL_SIZE + MAX_FILE_SIZE) by (cbv; discriminate).
      specialize (Hb ltac:(assumption)).
      specialize (IH (st_files (collectDirFiles dir ("Default/" ++ d)
                                 {| st_files := files; st_totalSize := 0 |}))
                    (total + st_totalSize (collectDirFiles dir ("Default/" ++ d)
                                 {| st_files := files; st_totalSize := 0 |}))).
      lia.
    + specialize (IH files total).
      assert (0 <= MAX_TOTAL_SIZE + MAX_FILE_SIZE) by (cbv; discriminate).
      lia.
Qed.

End Collect.

(** C3, amended.  Once the running total of a walk is above 15 MiB the
    walk adds nothing more, at any level of that essential directory, and
    what it has accepted stays; the total is tested before each entry, so
    that the file that crosses the budget is taken: a walk ends at no
    more than 15 MiB and one file (5 MiB).  The next essential directory
    is walked all the same, from a running total of zero, so that the
    whole snapshot is bounded by twice that. *)
Theorem budget_is_per_directory {R : Runtime} :
  (forall dir rel st,
      MAX_TOTAL_SIZE < st_totalSize st -> collectDirFiles dir rel st = st)
  /\
  (forall dir rel files,
      let st' := collectDirFiles dir rel
                   {| st_files := files; st_totalSize := 0 |} in
      st_totalSize st' <= MAX_TOTAL_SIZE + MAX_FILE_SIZE /\
      exists more, map fst (st_files st') = (map fst files ++ more)%list)
  /\
  (forall sp w, snd (snapshot sp w) <= 2 * (MAX_TOTAL_SIZE + MAX_FILE_SIZE))
  /\
  (forall sp w dir1 dir2,
      let default := path_join [sp; "Default"] in
      fs_lookup (path_join [default; "IndexedDB"]) w = Some dir1 ->
      fs_lookup (path_join [default; "Local Storage"]) w = Some dir2 ->
      let st1 := collectDirFiles dir1 "Default/IndexedDB"
                   {| st_files := []; st_totalSize := 0 |} in
      let st2 := collectDirFiles dir2 "Default/Local Storage"
                   {| st_files := st_files st1; st_totalSize := 0 |} in
      snapshot sp w = (st_files st2, st_totalSize st1 + st_totalSize st2)).
Proof.
  splits.
  - apply collectDirFiles_over.
  - intros dir rel files st'. split.
    + apply collectDirFiles_total. cbv. discriminate.
    + apply (collectDirFiles_keys dir rel
               {| st_files := files; st_totalSize := 0 |}).
  - intros sp w. unfold snapshot.
    pose proof (essential_snapshot_total w (path_join [sp; "Default"])
                  ESSENTIAL_DIRS [] 0) as H.
    cbn [ESSENTIAL_DIRS List.length] in H. lia.
  - intros sp w dir1 dir2 default H1 H2 st1 st2.
    unfold snapshot, ESSENTIAL_DIRS. cbn [essential_snapshot].
    fold default. rewrite H1, H2. reflexivity.
Qed.

Lemma budget_is_per_directory_witness :
  snapshot "wa-sessions-temp/acc1" demo_world
  = ([("Default/IndexedDB/000003.log", VStr "MDEyMzQ1Njc4OQ==");
      ("Default/Local Storage/leveldb/CURRENT", VStr "TUFOSQ==")], 14).
Proof.
  rewrite (proj2 (proj2 (proj2 budget_is_per_directory))
             "wa-sessions-temp/acc1" demo_world
             (Dir [("000003.log", File (text "0123456789") false)])
             (Dir [("leveldb", Dir [("CURRENT", File (text "MANI") false)])])).
  - reflexivity.
  - reflexivity.
  - reflexivity.
Defined.

(** The total of a walk over four files of the size of the cap. *)
Lemma four_files_total {R : Runtime} (content : bytes) :
  file_size content = MAX_FILE_SIZE ->
  let w := world_of (Dir [("wa-sessions-temp",
                           Dir [("acc1", four_files content)])]) ∅ in
  fs_lookup "wa-sessions-temp/acc1/Default/Local Storage" w = None /\
  snd (snapshot "wa-sessions-temp/acc1" w) = 4 * MAX_FILE_SIZE.
Proof.
  intros Hsize w. split; [reflexivity |].
  unfold snapshot, ESSENTIAL_DIRS. cbn [essential_snapshot].
  change (fs_lookup (path_join [path_join ["wa-sessions-temp/acc1"; "Default"];
                                "IndexedDB"]) w)
    with (Some (Dir [("000001.ldb", File content false);
                     ("000002.ldb", File content false);
                     ("000003.ldb", File content false);
                     ("000004.ldb", File content false)])).
  change (fs_lookup (path_join [path_join ["wa-sessions-temp/acc1"; "Default"];
                                "Local Storage"]) w)
    with (@None node).
  cbn [snd]. rewrite collectDirFiles_Dir.
  unfold collect_entries, collect_file.
  change (includes LOCK_NAMES "000001.ldb") with false.
  change (includes LOCK_NAMES "000002.ldb") with false.
  change (includes LOCK_NAMES "000003.ldb") with false.
  change (includes LOCK_NAMES "000004.ldb") with false.
  cbn [st_totalSize st_files]. rewrite !Hsize.
  reflexivity.
Qed.

(** C3 as stated fails: with four files of 5 MiB in [IndexedDB] and no
    other essential directory, the snapshot holds 20 MiB, 5 MiB above the
    budget, none of which comes from another directory. *)
Lemma budget_excess_counterexample :
  let w := world_of (Dir [("wa-sessions-temp",
                           Dir [("acc1", four_files (zeros MAX_FILE_SIZE))])]) ∅ in
  fs_lookup "wa-sessions-temp/acc1/Default/Local Storage" w = None /\
  snd (snapshot "wa-sessions-temp/acc1" w) = 20 * 1024 * 1024 /\
  ~ (snd (snapshot "wa-sessions-temp/acc1" w) <= MAX_TOTAL_SIZE).
Proof.
  assert (Hsize : file_size (zeros MAX_FILE_SIZE) = MAX_FILE_SIZE).
  { unfold file_size, zeros. rewrite repeat_length.
    apply Z2Nat.id. discriminate. }
  destruct (four_files_total (zeros MAX_FILE_SIZE) Hsize) as (Hnone & Htotal).
  cbv zeta. rewrite Htotal. splits.
  - exact Hnone.
  - reflexivity.
  - intros H. revert H. apply Z.lt_nge. reflexivity.
Qed.

(** ** Paths *)

Lemma append_nil_r (s : string) : s ++ "" = s.
Proof. induction s; cbn; congruence. Qed.

Lemma append_assoc (a b c : string) : (a ++ b) ++ c = a ++ (b ++ c).
Proof. induction a; cbn; congruence. Qed.

Lemma split_path_nonempty s : split_path s <> [].
Proof.
  destruct s as [| c s]; cbn; [discriminate |].
  destruct (is_slash c); [discriminate |].
  destruct (split_path s); discriminate.
Qed.

(** Splitting at a slash splits the pieces. *)
Lemma split_path_slash a b :
  split_path (a ++ String "/" b) = (split_path a ++ split_path b)%list.
Proof.
  induction a as [| c a IH]; cbn.
  - reflexivity.
  - destruct (is_slash c).
    + rewrite IH. reflexivity.
    + rewrite IH. pose proof (split_path_nonempty a).
      destruct (split_path a); [congruence | reflexivity].
Qed.

Lemma split_path_clean s : has_slash s = false -> split_path s = [s].
Proof.
  induction s as [| c s IH]; cbn; [reflexivity |].
  intros H. apply orb_false_iff in H as (-> & H). rewrite (IH H). reflexivity.
Qed.

Lemma split_path_join segs :
  segs <> [] ->
  Forall (fun s => has_slash s = false) segs ->
  split_path (join_slash segs) = segs.
Proof.
  intros Hne Hall. induction Hall as [| s rest Hs Hrest IH]; [congruence |].
  destruct rest as [| s' rest'].
  - cbn. apply split_path_clean, Hs.
  - change (join_slash (s :: s' :: rest'))
      with (s ++ String "/" (join_slash (s' :: rest'))).
    rewrite split_path_slash, split_path_clean by assumption.
    rewrite IH by discriminate. reflexivity.
Qed.

Lemma join_slash_snoc segs name :
  segs <> [] ->
  join_slash (segs ++ [name]) = join_slash segs ++ "/" ++ name.
Proof.
  induction segs as [| s rest IH]; [congruence |]. intros _.
  destruct rest as [| s' rest'].
  - reflexivity.
  - change (join_slash ((s :: s' :: rest') ++ [name]))
      with (s ++ String "/" (join_slash ((s' :: rest') ++ [name]))).
    rewrite IH by discriminate.
    change (join_slash (s :: s' :: rest'))
      with (s ++ String "/" (join_slash (s' :: rest'))).
    rewrite append_assoc. reflexivity.
Qed.

(** A list of slash-free segments is what its joined path splits into:
    joining is injective on them. *)
Lemma join_slash_inj p q :
  p <> [] -> q <> [] ->
  Forall (fun s => has_slash s = false) p ->
  Forall (fun s => has_slash s = false) q ->
  join_slash p = join_slash q -> p = q.
Proof.
  intros Hp Hq Fp Fq H.
  rewrite <- (split_path_join p Hp Fp), <- (split_path_join q Hq Fq), H.
  reflexivity.
Qed.

Lemma clean_name_spec s :
  clean_name s = true ->
  s <> "" /\ s <> "." /\ s <> ".." /\ has_slash s = false.
Proof.
  unfold clean_name. rewrite !andb_true_iff, !negb_true_iff.
  intros (((H1 & H2) & H3) & H4).
  apply String.eqb_neq in H1, H2, H3. auto.
Qed.

(** A clean segment is pushed as it is. *)
Lemma norm_step_clean above stack s :
  clean_name s = true -> norm_step above stack s = s :: stack.
Proof.
  intros H. apply clean_name_spec in H as (H1 & H2 & H3 & _).
  apply String.eqb_neq in H1, H2, H3.
  unfold norm_step. rewrite H1, H2, H3. reflexivity.
Qed.

Lemma fold_norm_clean above ks :
  Forall (fun s => clean_name s = true) ks ->
  forall stack,
    fold_left (norm_step above) ks stack = (rev ks ++ stack)%list.
Proof.
  induction 1 as [| s ks Hs _ IH]; intros stack; cbn.
  - reflexivity.
  - rewrite norm_step_clean by assumption. rewrite IH, <- app_assoc.
    reflexivity.
Qed.

Lemma norm_segs_app_clean above xs ks :
  Forall (fun s => clean_name s = true) ks ->
  norm_segs above (xs ++ ks) = (norm_segs above xs ++ ks)%list.
Proof.
  intros H. unfold norm_segs.
  rewrite fold_left_app, fold_norm_clean by assumption.
  rewrite rev_app_distr, rev_involutive. reflexivity.
Qed.

Lemma kept_clean s : clean_name s = true -> kept s.
Proof. intros H. apply clean_name_spec in H. unfold kept. tauto. Qed.

Lemma split_path_slash_free s : Forall (fun x => has_slash x = false) (split_path s).
Proof.
  induction s as [| c s IH]; cbn.
  - repeat constructor.
  - destruct (is_slash c) eqn:E.
    + constructor; [reflexivity | exact IH].
    + destruct (split_path s) as [| seg segs]; inversion IH; subst.
      * repeat constructor. cbn. rewrite E. reflexivity.
      * constructor; [cbn; rewrite E; assumption | assumption].
Qed.

Lemma norm_step_kept above stack seg :
  has_slash seg = false -> Forall kept stack ->
  Forall kept (norm_step above stack seg).
Proof.
  intros Hs Hst. unfold norm_step.
  destruct (String.eqb seg "") eqn:E1; [assumption |].
  destruct (String.eqb seg ".") eqn:E2; [assumption |]. cbn [orb].
  apply String.eqb_neq in E1, E2.
  destruct (String.eqb seg "..") eqn:E3.
  - destruct stack as [| top below].
    + destruct above; repeat constructor; discriminate.
    + destruct (String.eqb top "..").
      * constructor; [| assumption]. repeat split; discriminate.
      * inversion Hst; assumption.
  - constructor; [| assumption]. repeat split; assumption.
Qed.

Lemma fold_norm_kept above segs :
  Forall (fun x => has_slash x = false) segs ->
  forall stack, Forall kept stack ->
    Forall kept (fold_left (norm_step above) segs stack).
Proof.
  induction 1 as [| seg segs Hs _ IH]; intros stack Hst; cbn.
  - assumption.
  - apply IH, norm_step_kept; assumption.
Qed.

Lemma norm_segs_kept above segs :
  Forall (fun x => has_slash x = false) segs ->
  Forall kept (norm_segs above segs).
Proof.
  intros H. unfold norm_segs. apply Forall_rev.
  apply fold_norm_kept; [assumption | constructor].
Qed.

(** Resolving from the root what [normalizeString] has kept of [segs]
    gives what resolving [segs] gives: one step. *)
Lemma norm_step_rel_abs stack seg st :
  has_slash seg = false -> Forall kept stack ->
  fold_left (norm_step false) (rev (norm_step true stack seg)) st
  = norm_step false (fold_left (norm_step false) (rev stack) st) seg.
Proof.
  intros Hs Hst.
  remember (norm_step true stack seg) as kept_now eqn:Hk.
  unfold norm_step in Hk.
  destruct (String.eqb seg "") eqn:E1.
  { apply String.eqb_eq in E1 as ->. subst. reflexivity. }
  destruct (String.eqb seg ".") eqn:E2.
  { apply String.eqb_eq in E2 as ->. subst. reflexivity. }
  cbn [orb] in Hk. destruct (String.eqb seg "..") eqn:E3.
  - apply String.eqb_eq in E3 as ->.
    destruct stack as [| top below]; [subst; reflexivity |].
    destruct (String.eqb top "..") eqn:E4; subst kept_now.
    + cbn [rev]. rewrite fold_left_app. reflexivity.
    + cbn [rev]. rewrite fold_left_app. cbn [fold_left].
      inversion Hst as [| ? ? (H1 & H2 & H3) _]; subst.
      apply String.eqb_neq in H1, H2.
      set (below' := fold_left (norm_step false) (rev below) st).
      assert (Hpush : norm_step false below' top = top :: below').
      { unfold norm_step. rewrite H1, H2, E4. reflexivity. }
      rewrite Hpush. unfold norm_step. cbn. rewrite E4. reflexivity.
  - subst kept_now. cbn [rev]. rewrite fold_left_app. cbn [fold_left].
    set (now := fold_left (norm_step false) (rev stack) st).
    unfold norm_step. rewrite E1, E2, E3. reflexivity.
Qed.

Lemma fold_norm_rel_abs segs :
  Forall (fun x => has_slash x = false) segs ->
  forall stack st, Forall kept stack ->
    fold_left (norm_step false) (rev (fold_left (norm_step true) segs stack)) st
    = fold_left (norm_step false) segs
        (fold_left (norm_step false) (rev stack) st).
Proof.
  induction 1 as [| seg segs Hs _ IH]; intros stack st Hst; cbn [fold_left].
  - reflexivity.
  - rewrite IH by (apply norm_step_kept; assumption).
    rewrite norm_step_rel_abs by assumption. reflexivity.
Qed.

(** What is kept without rising above the root is clean. *)
Lemma fold_norm_abs_clean segs :
  Forall (fun x => has_slash x = false) segs ->
  forall stack, Forall (fun s => clean_name s = true) stack ->
    Forall (fun s => clean_name s = true) (fold_left (norm_step false) segs stack).
Proof.
  induction 1 as [| seg segs Hs _ IH]; intros stack Hst; cbn [fold_left].
  - assumption.
  - apply IH. unfold norm_step.
    destruct (String.eqb seg "") eqn:E1; [assumption |].
    destruct (String.eqb seg ".") eqn:E2; [assumption |]. cbn [orb].
    destruct (String.eqb seg "..") eqn:E3.
    + destruct stack as [| top below]; [constructor |].
      inversion Hst as [| ? ? Htop Hbelow]; subst.
      destruct (String.eqb top "..") eqn:E4; [| assumption].
      apply String.eqb_eq in E4 as ->. discriminate.
    + constructor; [| assumption].
      unfold clean_name. rewrite E1, E2, E3, Hs. reflexivity.
Qed.

(** Normalizing twice from the root changes nothing more, and
    normalizing a relative path first does not change where it leads. *)
Lemma fold_norm_norm above segs st :
  Forall (fun x => has_slash x = false) segs ->
  (above = false -> st = []) ->
  fold_left (norm_step false) (norm_segs above segs) st
  = fold_left (norm_step false) segs st.
Proof.
  intros Hs Hst. unfold norm_segs. destruct above.
  - rewrite fold_norm_rel_abs by (assumption || constructor). reflexivity.
  - rewrite (Hst eq_refl).
    rewrite fold_norm_clean.
    + rewrite rev_involutive, app_nil_r. reflexivity.
    + apply Forall_rev, fold_norm_abs_clean; [assumption | constructor].
Qed.

Lemma is_slash_has_slash c s : has_slash (String c s) = false -> is_slash c = false.
Proof. cbn. intros H. apply orb_false_iff in H. tauto. Qed.

Lemma is_absolute_append a b : a <> "" -> is_absolute (a ++ b) = is_absolute a.
Proof. destruct a; [congruence | reflexivity]. Qed.

Lemma is_absolute_kept s : kept s -> is_absolute s = false.
Proof.
  intros (H1 & _ & H3). destruct s as [| c s]; [congruence |].
  apply (is_slash_has_slash c s H3).
Qed.

Lemma join_slash_cons y rest :
  rest <> [] -> join_slash (y :: rest) = y ++ String "/" (join_slash rest).
Proof. destruct rest; [congruence | reflexivity]. Qed.

Lemma is_absolute_join Y :
  Y <> [] -> Forall kept Y -> is_absolute (join_slash Y) = false.
Proof.
  intros Hne HY. destruct HY as [| y rest Hy Hrest]; [congruence |].
  destruct rest as [| y' rest'].
  - apply is_absolute_kept, Hy.
  - rewrite join_slash_cons by discriminate.
    rewrite is_absolute_append by apply Hy. apply is_absolute_kept, Hy.
Qed.

Lemma append_nonempty a b : a <> "" -> a ++ b <> "".
Proof. destruct a; [congruence | discriminate]. Qed.

Lemma join_slash_nonempty Y :
  Y <> [] -> Forall kept Y -> join_slash Y <> "".
Proof.
  intros Hne HY. destruct HY as [| y rest Hy Hrest]; [congruence |].
  destruct rest as [| y' rest'].
  - apply Hy.
  - rewrite join_slash_cons by discriminate. apply append_nonempty, Hy.
Qed.

Lemma ends_with_slash_append a b :
  b <> "" -> ends_with_slash (a ++ b) = ends_with_slash b.
Proof.
  intros Hb. induction a as [| c a IH]; [reflexivity |].
  cbn [String.append]. cbn [ends_with_slash].
  destruct (a ++ b) eqn:E; [| exact IH].
  destruct a; [cbn in E; congruence | discriminate].
Qed.

Lemma ends_with_slash_kept s : has_slash s = false -> ends_with_slash s = false.
Proof.
  induction s as [| c s IH]; [reflexivity |]. cbn.
  intros H. apply orb_false_iff in H as (Hc & Hs).
  destruct s; [exact Hc | apply IH, Hs].
Qed.

Lemma ends_with_slash_join Y :
  Y <> [] -> Forall kept Y -> ends_with_slash (join_slash Y) = false.
Proof.
  intros Hne HY. induction HY as [| y rest Hy Hrest IH]; [congruence |].
  destruct rest as [| y' rest'].
  - apply ends_with_slash_kept, Hy.
  - rewrite join_slash_cons by discriminate.
    change (y ++ String "/" (join_slash (y' :: rest')))
      with (y ++ (String "/" (join_slash (y' :: rest')))).
    rewrite ends_with_slash_append by discriminate.
    cbn [ends_with_slash].
    pose proof (join_slash_nonempty (y' :: rest') ltac:(discriminate) Hrest).
    destruct (join_slash (y' :: rest')) eqn:E; [congruence |].
    apply IH. discriminate.
Qed.

Lemma kept_slash_free Y : Forall kept Y -> Forall (fun s => has_slash s = false) Y.
Proof. apply List.Forall_impl. intros s (_ & _ & H). exact H. Qed.

Lemma norm_segs_skip_empty above segs :
  norm_segs above (EmptyString :: segs) = norm_segs above segs.
Proof. reflexivity. Qed.

Lemma norm_segs_snoc_dot above segs :
  norm_segs above (segs ++ ["."]) = norm_segs above segs.
Proof. unfold norm_segs. rewrite fold_left_app. reflexivity. Qed.

Lemma norm_segs_snoc_empty above segs :
  norm_segs above (segs ++ [""]) = norm_segs above segs.
Proof. unfold norm_segs. rewrite fold_left_app. reflexivity. Qed.

(** Where a rendered path leads. *)
Lemma resolve_render cwd abs Y :
  Forall kept Y ->
  resolve cwd (render abs Y)
  = norm_segs false ((if abs then [] else cwd) ++ Y).
Proof.
  intros HY. destruct Y as [| y rest].
  - destruct abs; cbn [render].
    + reflexivity.
    + unfold resolve. cbn [is_absolute is_slash Ascii.eqb]. cbn.
      rewrite app_nil_r. apply norm_segs_snoc_dot.
  - assert (Hne : y :: rest <> []) by discriminate.
    unfold render. destruct abs.
    + unfold resolve. cbn [String.append is_absolute].
      change (is_slash "/") with true. cbn [split_path].
      change (is_slash "/") with true. cbv iota.
      rewrite split_path_join by (assumption || apply kept_slash_free, HY).
      apply norm_segs_skip_empty.
    + unfold resolve. rewrite is_absolute_join by assumption.
      rewrite split_path_join by (assumption || apply kept_slash_free, HY).
      reflexivity.
Qed.

Lemma path_normalize_render p :
  p <> "" -> ends_with_slash p = false ->
  path_normalize p
  = render (is_absolute p)
      (norm_segs (negb (is_absolute p)) (split_path p)).
Proof.
  intros Hp Ht. unfold path_normalize.
  apply String.eqb_neq in Hp. rewrite Hp, Ht.
  pose proof (norm_segs_kept (negb (is_absolute p)) (split_path p)
                (split_path_slash_free p)) as HN.
  destruct (norm_segs _ _) as [| y rest] eqn:E.
  - reflexivity.
  - pose proof (join_slash_nonempty (y :: rest) ltac:(discriminate) HN) as Hj.
    apply String.eqb_neq in Hj. rewrite Hj. reflexivity.
Qed.

Lemma resolve_segs_of cwd p :
  resolve cwd p = norm_segs false (base_of cwd p ++ segs_of p).
Proof.
  unfold resolve, base_of, segs_of.
  destruct (String.eqb_spec p "") as [-> | Hp].
  - cbn. rewrite app_nil_r. apply norm_segs_snoc_empty.
  - destruct (is_absolute p); reflexivity.
Qed.

(** [path.join] of a path and of clean segments: the normalized segments
    of the path, then the segments. *)
Lemma path_join_render sp ks :
  ks <> [] -> Forall (fun s => clean_name s = true) ks ->
  path_join [sp; join_slash ks]
  = render (is_absolute sp)
      (norm_segs (negb (is_absolute sp)) (segs_of sp) ++ ks).
Proof.
  intros Hne Hks.
  assert (Hkept : Forall kept ks) by (eapply List.Forall_impl; [apply kept_clean | exact Hks]).
  pose proof (join_slash_nonempty ks Hne Hkept) as Hkey.
  unfold path_join, segs_of. cbn [List.filter].
  apply String.eqb_neq in Hkey. rewrite Hkey. cbn [negb].
  apply String.eqb_neq in Hkey.
  destruct (String.eqb_spec sp "") as [-> | Hsp]; cbn [negb join_slash].
  - rewrite path_normalize_render;
      [| assumption | apply ends_with_slash_join; assumption].
    rewrite is_absolute_join by assumption. cbn [is_absolute negb].
    rewrite split_path_join by (assumption || apply kept_slash_free, Hkept).
    rewrite <- (norm_segs_app_clean true [] ks Hks). reflexivity.
  - destruct (join_slash ks) as [| c key] eqn:E; [congruence |]. rewrite <- E.
    rewrite path_normalize_render.
    + rewrite is_absolute_append by assumption.
      change (sp ++ "/" ++ join_slash ks) with (sp ++ String "/" (join_slash ks)).
      rewrite split_path_slash.
      rewrite split_path_join by (assumption || apply kept_slash_free, Hkept).
      rewrite norm_segs_app_clean by assumption. reflexivity.
    + apply append_nonempty, Hsp.
    + change (sp ++ "/" ++ join_slash ks) with (sp ++ (String "/" (join_slash ks))).
      rewrite ends_with_slash_append by discriminate.
      cbn [ends_with_slash]. rewrite E. rewrite <- E.
      apply ends_with_slash_join; assumption.
Qed.

(** Resolving the normalized segments of a path leads where the path
    leads. *)
Lemma norm_segs_base cwd sp ks :
  Forall (fun s => clean_name s = true) ks ->
  norm_segs false
    ((if is_absolute sp then [] else cwd)
     ++ norm_segs (negb (is_absolute sp)) (segs_of sp) ++ ks)
  = (resolve cwd sp ++ ks)%list.
Proof.
  intros Hks. rewrite resolve_segs_of. unfold base_of.
  rewrite app_assoc, norm_segs_app_clean by assumption. f_equal.
  unfold norm_segs at 1 3. f_equal. rewrite !fold_left_app.
  apply fold_norm_norm.
  - unfold segs_of. destruct (String.eqb sp ""); [constructor |].
    apply split_path_slash_free.
  - intros Habs. apply negb_false_iff in Habs. rewrite Habs. reflexivity.
Qed.

(** Where the join of a path and of clean segments leads. *)
Lemma resolve_join cwd sp ks :
  ks <> [] -> Forall (fun s => clean_name s = true) ks ->
  resolve cwd (path_join [sp; join_slash ks]) = (resolve cwd sp ++ ks)%list.
Proof.
  intros Hne Hks. rewrite path_join_render by assumption.
  rewrite resolve_render.
  - apply norm_segs_base, Hks.
  - apply Forall_app. split.
    + apply norm_segs_kept. unfold segs_of.
      destruct (String.eqb sp ""); [constructor | apply split_path_slash_free].
    + eapply List.Forall_impl; [apply kept_clean | exact Hks].
Qed.

Lemma filter_nonempty_kept Y :
  Forall kept Y -> List.filter (fun a => negb (String.eqb a "")) Y = Y.
Proof.
  induction 1 as [| y rest (Hy & _) _ IH]; [reflexivity |]. cbn.
  apply String.eqb_neq in Hy. rewrite Hy, IH. reflexivity.
Qed.







(** ** The directory tree *)

Lemma find_put_eq k n es : find_entry k (put_entry k n es) = Some n.
Proof.
  induction es as [| [k' n'] rest IH]; cbn.
  - rewrite String.eqb_refl. reflexivity.
  - destruct (String.eqb_spec k k') as [<- | Hne]; cbn.
    + rewrite String.eqb_refl. reflexivity.
    + apply String.eqb_neq in Hne. rewrite Hne. exact IH.
Qed.

Lemma find_put_ne k k' n es :
  k' <> k -> find_entry k' (put_entry k n es) = find_entry k' es.
Proof.
  intros Hne. induction es as [| [k0 n0] rest IH]; cbn.
  - apply String.eqb_neq in Hne. rewrite Hne. reflexivity.
  - destruct (String.eqb_spec k k0) as [<- | Hk]; cbn.
    + apply String.eqb_neq in Hne. rewrite Hne. reflexivity.
    + destruct (String.eqb k' k0); [reflexivity | exact IH].
Qed.

Lemma lookup_node_app p q t :
  lookup_node (p ++ q) t
  = match lookup_node p t with
    | Some n => lookup_node q n
    | None => None
    end.
Proof.
  revert t. induction p as [| seg rest IH]; intros t; [reflexivity |].
  cbn. destruct t as [content locked | es]; [reflexivity |].
  destruct (find_entry seg es); [apply IH | reflexivity].
Qed.

Lemma lookup_node_file_nil p content locked n :
  lookup_node p (File content locked) = Some n -> p = [].
Proof. destruct p; [reflexivity | discriminate]. Qed.


(** *** mkdir *)

Lemma mkdir_p_dir p t t' : mkdir_p p t = Some t' -> is_dir t = true.
Proof. destruct p, t; cbn; congruence. Qed.

Lemma mkdir_p_cons seg rest es :
  mkdir_p (seg :: rest) (Dir es)
  = match mkdir_p rest (default (Dir []) (find_entry seg es)) with
    | Some child => Some (Dir (put_entry seg child es))
    | None => None
    end.
Proof. reflexivity. Qed.


(** The files that were there are there. *)
Lemma mkdir_p_files p :
  forall t t' q content locked,
    mkdir_p p t = Some t' ->
    lookup_node q t = Some (File content locked) ->
    lookup_node q t' = Some (File content locked).
Proof.
  induction p as [| seg rest IH]; intros [c0 l0 | es] t' q content locked;
    try discriminate.
  - intros [= <-]. auto.
  - rewrite mkdir_p_cons.
    destruct (mkdir_p rest _) as [child |] eqn:Hc; [| discriminate].
    intros [= <-]. destruct q as [| s q']; [discriminate |]. cbn.
    destruct (String.eqb_spec s seg) as [-> | Hne].
    + rewrite find_put_eq.
      destruct (find_entry seg es) as [x |]; [| discriminate].
      cbn in Hc. eapply IH, Hc.
    + rewrite find_put_ne by assumption. auto.
Qed.



(** *** writeFile *)

Lemma write_node_last seg data es :
  write_node [seg] data (Dir es)
  = match find_entry seg es with
    | Some (Dir _) => None
    | Some (File _ true) => None
    | _ => Some (Dir (put_entry seg (File data false) es))
    end.
Proof. reflexivity. Qed.

Lemma write_node_cons seg s rest data es :
  write_node (seg :: s :: rest) data (Dir es)
  = match find_entry seg es with
    | Some child =>
        match write_node (s :: rest) data child with
        | Some child' => Some (Dir (put_entry seg child' es))
        | None => None
        end
    | None => None
    end.
Proof. reflexivity. Qed.


(** The other files are as they were. *)
Lemma write_node_files p :
  forall t t' data q content locked,
    write_node p data t = Some t' ->
    q <> p ->
    lookup_node q t = Some (File content locked) ->
    lookup_node q t' = Some (File content locked).
Proof.
  induction p as [| seg rest IH]; intros t t' data q content locked;
    [discriminate |].
  destruct t as [c0 l0 | es]; [discriminate |].
  destruct q as [| s q']; [discriminate |].
  destruct rest as [| s' rest'].
  - rewrite write_node_last.
    destruct (find_entry seg es) as [[c [] | sub] |] eqn:Hf; try discriminate;
      intros [= <-] Hne; cbn [lookup_node];
      (destruct (String.eqb_spec s seg) as [-> | Hs];
       [ rewrite find_put_eq, ?Hf;
         destruct q'; [congruence | discriminate]
       | rewrite find_put_ne by assumption; auto ]).
  - rewrite write_node_cons.
    destruct (find_entry seg es) as [child |] eqn:Hf; [| discriminate].
    destruct (write_node (s' :: rest') data child) as [child' |] eqn:Hw;
      [| discriminate].
    intros [= <-] Hne. cbn [lookup_node].
    destruct (String.eqb_spec s seg) as [-> | Hs].
    + rewrite find_put_eq, Hf. eapply IH; [exact Hw | congruence].
    + rewrite find_put_ne by assumption. auto.
Qed.



(** ** What the walk takes *)

Lemma wf_node_cons name child rest :
  wf_node (Dir ((name, child) :: rest)) = true ->
  ~ In name (map fst rest) /\ clean_name name = true
  /\ wf_node child = true /\ wf_node (Dir rest) = true.
Proof.
  cbn [wf_node]. rewrite !andb_true_iff, !bool_decide_eq_true.
  cbn [map fst]. intros (Hnd & (Hc & Hw) & Hall).
  apply NoDup_cons in Hnd as (Hnot & Hnd).
  splits; try assumption.
  intros Hin. apply Hnot. apply list_elem_of_In. exact Hin.
Qed.

Lemma find_entry_In name n es : find_entry name es = Some n -> In (name, n) es.
Proof.
  induction es as [| [k x] rest IH]; cbn; [discriminate |].
  destruct (String.eqb_spec name k) as [-> | Hne].
  - intros [= ->]. left. reflexivity.
  - intros H. right. apply IH, H.
Qed.

Lemma In_find_entry name n es :
  NoDup (map fst es) -> In (name, n) es -> find_entry name es = Some n.
Proof.
  induction es as [| [k x] rest IH]; cbn; [contradiction |].
  intros Hnd. apply NoDup_cons in Hnd as (Hnot & Hnd).
  intros [[= -> ->] | Hin].
  - rewrite String.eqb_refl. reflexivity.
  - destruct (String.eqb_spec name k) as [-> | Hne]; [| apply IH; assumption].
    exfalso. apply Hnot. apply list_elem_of_In.
    apply (in_map fst) in Hin. exact Hin.
Qed.

Lemma wf_node_NoDup es : wf_node (Dir es) = true -> NoDup (map fst es).
Proof.
  cbn [wf_node]. rewrite andb_true_iff, bool_decide_eq_true. tauto.
Qed.

Lemma wf_node_In name n es :
  wf_node (Dir es) = true -> In (name, n) es ->
  clean_name name = true /\ wf_node n = true.
Proof.
  induction es as [| [k x] rest IH]; [contradiction |].
  intros Hwf. apply wf_node_cons in Hwf as (_ & Hc & Hx & Hrest).
  intros [[= -> ->] | Hin]; [auto | apply IH; assumption].
Qed.

(** In a well-formed tree a path that leads somewhere is clean, and the
    files found by the walk are the files found by name. *)
Lemma lookup_node_clean p :
  forall t n, wf_node t = true -> lookup_node p t = Some n ->
    Forall (fun s => clean_name s = true) p /\ wf_node n = true.
Proof.
  induction p as [| seg rest IH]; intros t n Hwf.
  - intros [= <-]. split; [constructor | assumption].
  - destruct t as [c l | es]; [discriminate |]. cbn.
    destruct (find_entry seg es) as [child |] eqn:Hf; [| discriminate].
    apply find_entry_In in Hf.
    destruct (wf_node_In _ _ _ Hwf Hf) as (Hc & Hchild).
    intros Hl. destruct (IH _ _ Hchild Hl). split; [constructor |]; assumption.
Qed.

Lemma file_in_lookup t p content locked :
  file_in t p content locked -> wf_node t = true ->
  lookup_node p t = Some (File content locked).
Proof.
  induction 1 as [name content locked es Hin
                 | name child es p content locked Hin Hfile IH]; intros Hwf.
  - cbn. rewrite (In_find_entry _ _ _ (wf_node_NoDup _ Hwf) Hin). reflexivity.
  - cbn. rewrite (In_find_entry _ _ _ (wf_node_NoDup _ Hwf) Hin).
    apply IH. apply (wf_node_In _ _ _ Hwf Hin).
Qed.

Lemma lookup_file_in p :
  forall t content locked,
    lookup_node p t = Some (File content locked) -> p <> [] ->
    file_in t p content locked.
Proof.
  induction p as [| seg rest IH]; intros t content locked Hl Hne; [congruence |].
  destruct t as [c l | es]; [discriminate |]. cbn in Hl.
  destruct (find_entry seg es) as [child |] eqn:Hf; [| discriminate].
  apply find_entry_In in Hf. destruct rest as [| s rest'].
  - injection Hl as ->. apply file_here, Hf.
  - eapply file_below; [exact Hf |]. apply IH; [exact Hl | discriminate].
Qed.

Lemma file_in_nonempty t p content locked :
  file_in t p content locked -> p <> [].
Proof. destruct 1; discriminate. Qed.

Lemma basename_cons name p : p <> [] -> basename (name :: p) = basename p.
Proof. destruct p; [congruence | reflexivity]. Qed.





Lemma In_obj_set k v k' v' props :
  In (k', v') (obj_set k v props) -> (k' = k /\ v' = v) \/ In (k', v') props.
Proof.
  induction props as [| [k0 v0] rest IH]; cbn.
  - intros [[= <- <-] | []]. auto.
  - destruct (String.eqb_spec k k0) as [<- | Hk]; cbn.
    + intros [[= <- <-] | H]; auto.
    + intros [H | H]; [auto |]. destruct (IH H); auto.
Qed.

Lemma obj_get_In k v props : obj_get k props = Some v -> In (k, v) props.
Proof.
  induction props as [| [k0 v0] rest IH]; cbn; [discriminate |].
  destruct (String.eqb_spec k k0) as [<- | Hk].
  - intros [= ->]. auto.
  - auto.
Qed.

Lemma In_obj_get k v props :
  NoDup (map fst props) -> In (k, v) props -> obj_get k props = Some v.
Proof.
  induction props as [| [k0 v0] rest IH]; cbn; [contradiction |].
  intros Hnd. apply NoDup_cons in Hnd as (Hnot & Hnd).
  intros [[= -> ->] | Hin].
  - rewrite String.eqb_refl. reflexivity.
  - destruct (String.eqb_spec k k0) as [-> | Hne]; [| apply IH; assumption].
    exfalso. apply Hnot. apply list_elem_of_In.
    apply (in_map fst) in Hin. exact Hin.
Qed.

Lemma obj_set_NoDup k v props :
  NoDup (map fst props) -> NoDup (map fst (obj_set k v props)).
Proof.
  induction props as [| [k0 v0] rest IH]; cbn.
  - intros _. apply NoDup_singleton.
  - intros Hnd. apply NoDup_cons in Hnd as (Hnot & Hnd).
    destruct (String.eqb_spec k k0) as [<- | Hk]; cbn.
    + apply NoDup_cons. auto.
    + apply NoDup_cons. split; [| auto].
      intros Hin. apply list_elem_of_In, in_map_iff in Hin as ([k1 v1] & E & Hin).
      cbn in E. subst k1. apply In_obj_set in Hin as [(-> & _) | Hin].
      * congruence.
      * apply Hnot. apply list_elem_of_In. apply (in_map fst) in Hin. exact Hin.
Qed.

Section Walk.
Context {R : Runtime}.


Lemma collect_file_cases relPath name content locked st :
  (eligible name content locked /\
   collect_file relPath name content locked st
   = {| st_files := obj_set relPath (VStr (base64_encode content)) (st_files st);
        st_totalSize := st_totalSize st + file_size content |})
  \/ (~ eligible name content locked /\
      collect_file relPath name content locked st = st).
Proof.
  unfold collect_file, eligible.
  assert (0 <= file_size content) by (unfold file_size; lia).
  destruct (includes LOCK_NAMES name); [right; split; [intros (? & _); discriminate | reflexivity] |].
  destruct (Z.eqb_spec (file_size content) 0); cbn [orb];
    [right; split; [intros (_ & ? & _); lia | reflexivity] |].
  destruct (Z.ltb_spec MAX_FILE_SIZE (file_size content));
    [right; split; [intros (_ & ? & _); lia | reflexivity] |].
  destruct locked;
    [right; split; [intros (_ & _ & ?); discriminate | reflexivity] |].
  left. split; [| reflexivity]. splits; try reflexivity; lia.
Qed.

(** Every entry of the result was there before the walk or is the entry
    of an eligible file of the directory. *)
Lemma collectDirFiles_sound dir :
  forall relsegs st k v,
    relsegs <> [] ->
    In (k, v) (st_files (collectDirFiles dir (join_slash relsegs) st)) ->
    In (k, v) (st_files st)
    \/ exists p content,
         file_in dir p content false /\ eligible (basename p) content false /\
         k = join_slash (relsegs ++ p) /\ v = VStr (base64_encode content).
Proof.
  induction dir as [c l | es IH] using node_induction;
    intros relsegs st k v Hne.
  - cbn. auto.
  - rewrite collectDirFiles_Dir. revert st.
    induction IH as [| [name entry] rest Hentry _ IHrest]; intros st.
    + cbn. auto.
    + cbn [collect_entries].
      destruct (MAX_TOTAL_SIZE <? st_totalSize st); [auto |].
      rewrite <- join_slash_snoc by assumption.
      destruct entry as [content locked | sub].
      * intros Hin. destruct (IHrest _ Hin) as [Hin1 | (p & c & Hf & He & -> & ->)].
        -- destruct (collect_file_cases (join_slash (relsegs ++ [name]))
                       name content locked st) as [(He & E) | (_ & E)];
             rewrite E in Hin1; [| auto].
           cbn [st_files] in Hin1.
           apply In_obj_set in Hin1 as [(-> & ->) | Hin1]; [| auto].
           right. exists [name], content.
           assert (locked = false) as -> by apply He.
           splits; try reflexivity; [| exact He].
           apply file_here. left. reflexivity.
        -- right. exists p, c. splits; try reflexivity; [| exact He].
           inversion Hf; subst.
           ++ apply file_here. right. assumption.
           ++ eapply file_below; [right; eassumption | assumption].
      * cbn [snd] in Hentry. intros Hin.
        destruct (IHrest _ Hin) as [Hin1 | (p & c & Hf & He & -> & ->)].
        -- destruct (Hentry (relsegs ++ [name])%list st k v) as
             [Hin0 | (p & c & Hf & He & -> & ->)];
             [destruct relsegs; discriminate | exact Hin1 | auto |].
           right. exists (name :: p), c.
           splits; try reflexivity.
           ++ eapply file_below; [left; reflexivity | exact Hf].
           ++ rewrite basename_cons by (eapply file_in_nonempty, Hf). exact He.
           ++ rewrite <- app_assoc. reflexivity.
        -- right. exists p, c. splits; try reflexivity; [| exact He].
           inversion Hf; subst.
           ++ apply file_here. right. assumption.
           ++ eapply file_below; [right; eassumption | assumption].
Qed.



Lemma collectDirFiles_NoDup dir :
  forall rel st,
    NoDup (map fst (st_files st)) ->
    NoDup (map fst (st_files (collectDirFiles dir rel st))).
Proof.
  induction dir as [c l | es IH] using node_induction; intros rel st.
  - auto.
  - rewrite collectDirFiles_Dir. revert st.
    induction IH as [| [name entry] rest Hentry _ IHrest]; intros st Hnd.
    + assumption.
    + cbn [collect_entries].
      destruct (MAX_TOTAL_SIZE <? st_totalSize st); [assumption |].
      destruct entry as [content locked | sub].
      * apply IHrest.
        destruct (collect_file_cases (rel ++ "/" ++ name) name content locked st)
          as [(_ & E) | (_ & E)]; rewrite E; [| assumption].
        apply obj_set_NoDup, Hnd.
      * apply IHrest. cbn [snd] in Hentry. apply Hentry, Hnd.
Qed.

End Walk.

Lemma clean_slash_free l :
  Forall (fun s => clean_name s = true) l ->
  Forall (fun s => has_slash s = false) l.
Proof.
  apply List.Forall_impl. intros s H. apply clean_name_spec in H. tauto.
Qed.



Section Complete.
Context {R : Runtime}.


End Complete.

(** ** The snapshot of a session tree *)

Lemma resolve_join_one cwd sp name :
  clean_name name = true ->
  resolve cwd (path_join [sp; name]) = (resolve cwd sp ++ [name])%list.
Proof.
  intros Hc. apply (resolve_join cwd sp [name]); [discriminate |].
  constructor; [assumption | constructor].
Qed.

(** Where the essential directories are looked for. *)
Lemma fs_lookup_essential sp w session d :
  fs_lookup sp w = Some session ->
  clean_name d = true ->
  fs_lookup (path_join [path_join [sp; "Default"]; d]) w
  = essential_dir session d.
Proof.
  unfold fs_lookup, essential_dir. intros Hs Hd.
  rewrite resolve_join_one by assumption.
  rewrite resolve_join_one by reflexivity.
  rewrite <- app_assoc. rewrite lookup_node_app, Hs. reflexivity.
Qed.

Lemma fs_lookup_default sp w session :
  fs_lookup sp w = Some session ->
  fs_lookup (path_join [sp; "Default"]) w = lookup_node ["Default"] session.
Proof.
  unfold fs_lookup. intros Hs.
  rewrite resolve_join_one by reflexivity.
  rewrite lookup_node_app, Hs. reflexivity.
Qed.

Section Snapshot.
Context {R : Runtime}.
Variables (w : world) (sp : string) (session : node).
Hypothesis Hsession : fs_lookup sp w = Some session.
Hypothesis Hwf : wf_node session = true.

Let dp := path_join [sp; "Default"].

Lemma essential_dir_wf d dir :
  essential_dir session d = Some dir -> wf_node dir = true /\ clean_name d = true.
Proof.
  intros H. destruct (lookup_node_clean _ _ _ Hwf H) as (Hc & Hd).
  split; [assumption |]. inversion Hc as [| ? ? _ Hc']; subst.
  inversion Hc'; assumption.
Qed.


(** Every entry of the snapshot is the entry of an eligible file of an
    essential directory. *)
Lemma essential_snapshot_sound dirs :
  Forall (fun d => clean_name d = true) dirs ->
  forall files total k v,
    In (k, v) (fst (essential_snapshot w dp dirs files total)) ->
    In (k, v) files
    \/ exists d p content,
         In d dirs /\ p <> [] /\
         lookup_node ("Default" :: d :: p) session = Some (File content false) /\
         eligible (basename p) content false /\
         k = join_slash ("Default" :: d :: p) /\
         v = VStr (base64_encode content).
Proof.
  induction 1 as [| d rest Hd _ IH]; intros files total k v; cbn [essential_snapshot].
  - auto.
  - unfold dp at 1. rewrite (fs_lookup_essential _ _ _ _ Hsession Hd). fold dp.
    destruct (essential_dir session d) as [dir |] eqn:Hdir.
    + intros Hin. apply IH in Hin as [Hin | (d' & p & c & Hin & H)].
      * change ("Default/" ++ d) with (join_slash ["Default"; d]) in Hin.
        apply collectDirFiles_sound in Hin as [Hin | (p & c & Hf & He & -> & ->)];
          [auto | | discriminate].
        right. exists d, p, c.
        destruct (essential_dir_wf _ _ Hdir) as (Hwd & _).
        splits; try reflexivity; try assumption.
        -- left. reflexivity.
        -- eapply file_in_nonempty, Hf.
        -- change ("Default" :: d :: p) with (["Default"; d] ++ p)%list.
           rewrite lookup_node_app. unfold essential_dir in Hdir. rewrite Hdir.
           apply file_in_lookup; assumption.
      * right. exists d', p, c. split; [right; assumption | exact H].
    + intros Hin. apply IH in Hin as [Hin | (d' & p & c & Hin & H)]; [auto |].
      right. exists d', p, c. split; [right; assumption | exact H].
Qed.

Lemma essential_snapshot_NoDup dirs :
  forall files total,
    NoDup (map fst files) ->
    NoDup (map fst (fst (essential_snapshot w dp dirs files total))).
Proof.
  induction dirs as [| d rest IH]; intros files total Hnd; cbn [essential_snapshot].
  - assumption.
  - destruct (fs_lookup (path_join [dp; d]) w) as [dir |]; [| apply IH, Hnd].
    apply IH. apply (collectDirFiles_NoDup dir _
                       {| st_files := files; st_totalSize := 0 |}), Hnd.
Qed.



End Snapshot.

Lemma essential_dirs_clean : Forall (fun d => clean_name d = true) ESSENTIAL_DIRS.
Proof. repeat constructor. Qed.


(** C6.  In a session tree as a file system has them (clean names, no
    name twice in a directory), every entry of a collected snapshot is
    the entry of a file under an essential directory that is not named
    as a lock file, is not empty and is not above 5 MiB; and a file
    under an essential directory that is named as a lock file (whatever
    its size), is empty or is above 5 MiB has no entry. *)
Theorem excluded_by_construction {R : Runtime} (sp : string) (w : world)
    (session : node) :
  fs_lookup sp w = Some session ->
  wf_node session = true ->
  (forall k v,
      In (k, v) (fst (snapshot sp w)) ->
      exists d p content,
        In d ESSENTIAL_DIRS /\ p <> [] /\
        lookup_node ("Default" :: d :: p) session = Some (File content false) /\
        k = join_slash ("Default" :: d :: p) /\
        v = VStr (base64_encode content) /\
        includes LOCK_NAMES (basename p) = false /\
        0 < file_size content <= MAX_FILE_SIZE)
  /\
  (forall d p content locked,
      In d ESSENTIAL_DIRS ->
      lookup_node ("Default" :: d :: p) session = Some (File content locked) ->
      includes LOCK_NAMES (basename p) = true
      \/ file_size content = 0 \/ MAX_FILE_SIZE < file_size content ->
      obj_get (join_slash ("Default" :: d :: p)) (fst (snapshot sp w)) = None).
Proof.
  intros Hs Hwf.
  assert (Hsound : forall k v,
      In (k, v) (fst (snapshot sp w)) ->
      exists d p content,
        In d ESSENTIAL_DIRS /\ p <> [] /\
        lookup_node ("Default" :: d :: p) session = Some (File content false) /\
        k = join_slash ("Default" :: d :: p) /\
        v = VStr (base64_encode content) /\
        includes LOCK_NAMES (basename p) = false /\
        0 < file_size content <= MAX_FILE_SIZE).
  { intros k v Hin. unfold snapshot in Hin.
    apply (essential_snapshot_sound w sp session Hs Hwf ESSENTIAL_DIRS
             essential_dirs_clean) in Hin
      as [[] | (d & p & c & Hd & Hp & Hl & (Hlock & Hsize & _) & -> & ->)].
    exists d, p, c. splits; auto; apply Hsize. }
  split; [exact Hsound |].
  intros d p content locked Hd Hl Hbad.
  destruct (obj_get _ _) as [v |] eqn:Hg; [exfalso | reflexivity].
  apply obj_get_In, Hsound in Hg
    as (d' & p' & c' & Hd' & Hp' & Hl' & Heq & _ & Hlock & Hsize).
  destruct (lookup_node_clean _ _ _ Hwf Hl) as (Hc & _).
  destruct (lookup_node_clean _ _ _ Hwf Hl') as (Hc' & _).
  apply join_slash_inj in Heq;
    try discriminate; try (apply clean_slash_free; assumption).
  injection Heq as -> ->.
  rewrite Hl in Hl'. injection Hl' as -> ->.
  destruct Hbad as [Hbad | [Hbad | Hbad]]; [congruence | lia | lia].
Qed.

Lemma excluded_by_construction_witness :
  (forall k v,
      In (k, v) (fst (snapshot "wa-sessions-temp/acc1" demo_world)) ->
      exists d p content,
        In d ESSENTIAL_DIRS /\ p <> [] /\
        lookup_node ("Default" :: d :: p) demo_session
          = Some (File content false) /\
        k = join_slash ("Default" :: d :: p) /\
        v = VStr (base64_encode content) /\
        includes LOCK_NAMES (basename p) = false /\
        0 < file_size content <= MAX_FILE_SIZE)
  /\
  (forall d p content locked,
      In d ESSENTIAL_DIRS ->
      lookup_node ("Default" :: d :: p) demo_session
        = Some (File content locked) ->
      includes LOCK_NAMES (basename p) = true
      \/ file_size content = 0 \/ MAX_FILE_SIZE < file_size content ->
      obj_get (join_slash ("Default" :: d :: p))
        (fst (snapshot "wa-sessions-temp/acc1" demo_world)) = None).
Proof.
  apply (excluded_by_construction "wa-sessions-temp/acc1" demo_world demo_session).
  - reflexivity.
  - reflexivity.
Defined.

(** ** Writing the files of a session back *)






Section WriteBack.
Context {R : Runtime}.
Variable session : node.
Variable sp : string.



End WriteBack.

(** *** An envelope with another tag *)



(** ** The round trip *)

Lemma plain_props props :
  NoDup (map fst props) ->
  Forall (fun e => index_like (fst e) = false /\ plain (snd e) = true) props ->
  plain (VObj props) = true.
Proof.
  intros Hnd Hall. cbn [plain]. apply andb_true_iff. split.
  - apply bool_decide_eq_true. exact Hnd.
  - clear Hnd. induction Hall as [| [k x] rest (Hk & Hx) _ IH]; [reflexivity |].
    cbn [fst snd] in *. rewrite Hk, Hx, IH. reflexivity.
Qed.

Lemma index_like_default tail :
  index_like (join_slash ("Default" :: tail)) = false.
Proof.
  destruct tail as [| d p]; [reflexivity |].
  rewrite join_slash_cons by discriminate. reflexivity.
Qed.


Section RoundTrip.
Context {R : Runtime} {L : RuntimeLaws R}.

(** The blob that [pack] makes is decoded to the files packed. *)
Lemma packed_decodes files acc now blob :
  packed files acc now = Some blob ->
  plain (VObj files) = true ->
  blob <> EmptyString /\
  exists payload data,
    JSON_parse (utf8_decode (base64_decode blob)) = Some payload /\
    get_prop payload "data" = Some data /\
    truthy data = true /\
    decode_files data = Some (VObj files).
Proof.
  unfold packed. intros Hp Hplain.
  destruct (gzip _) as [z |] eqn:Hz; [| discriminate]. cbn in Hp.
  injection Hp as <-. split; [apply blob_nonempty |].
  eexists _, (VStr (base64_encode z)).
  rewrite base64_roundtrip, utf8_roundtrip, json_roundtrip by reflexivity.
  splits; try reflexivity.
  - apply truthy_nonempty. eapply gzip_nonempty, Hz.
  - unfold decode_files, decode_payload. cbn [Buffer_from_base64 mbind option_bind].
    rewrite base64_roundtrip. rewrite (gzip_roundtrip _ _ Hz). cbn.
    rewrite utf8_roundtrip, json_roundtrip; [reflexivity |].
    apply plain_props.
    + apply (bool_decide_unpack (NoDup ["files"; "ts"; "id"])). vm_compute. exact I.
    + repeat (constructor; [split; [reflexivity | assumption || reflexivity] |]).
      constructor.
Qed.

End RoundTrip.

Section RoundTripWorld.
Context {R : Runtime} {L : RuntimeLaws R}.

(** The entries of the snapshot of a well-formed session. *)
Lemma snapshot_entries sp w session k v :
  fs_lookup sp w = Some session ->
  wf_node session = true ->
  In (k, v) (fst (snapshot sp w)) ->
  from_session session (k, v) /\ index_like k = false /\
  exists content,
    v = VStr (base64_encode content) /\
    lookup_node (split_path k) session = Some (File content false).
Proof.
  intros Hs Hwf Hin. unfold snapshot in Hin.
  apply (essential_snapshot_sound w sp session Hs Hwf ESSENTIAL_DIRS
           essential_dirs_clean) in Hin
    as [[] | (d & p & c & Hd & Hp & Hl & _ & -> & ->)].
  destruct (lookup_node_clean _ _ _ Hwf Hl) as (Hc & _).
  assert (Hsplit : split_path (join_slash ("Default" :: d :: p)) = "Default" :: d :: p).
  { apply split_path_join; [discriminate | apply clean_slash_free, Hc]. }
  splits.
  - unfold from_session. cbn [fst snd]. rewrite Hsplit.
    splits; eauto.
  - apply index_like_default.
  - exists c. rewrite Hsplit. auto.
Qed.

Lemma saveSession_true acc dp w w1 :
  saveSession acc dp w = (Ok true, w1) ->
  exists blob,
    fst (snapshot (path_join [dp; acc]) w) <> [] /\
    packed (fst (snapshot (path_join [dp; acc]) w)) acc (clock w) = Some blob /\
    rows w1 !! acc = Some blob.
Proof.
  intros Hrun.
  destruct (saveSession_cases acc dp w) as (b & w' & Hrun' & _ & _ & _ & _ & Hcase).
  rewrite Hrun in Hrun'. injection Hrun' as <- <-. cbv zeta in Hcase.
  destruct (fs_lookup _ w); [| destruct Hcase; discriminate].
  destruct (fst (snapshot _ w)) as [| f files]; [destruct Hcase; discriminate |].
  destruct (packed _ _ _) as [blob |]; [| destruct Hcase; discriminate].
  destruct Hcase as (_ & Hcase).
  destruct (online w); destruct Hcase as (Hb & Hr); [| discriminate].
  exists blob. splits; [discriminate | reflexivity |].
  rewrite Hr. apply lookup_insert_eq.
Qed.



End RoundTripWorld.

(** ** The reference runtime keeps the contract *)

(** *** base64 *)

Lemma char_sextet_char (k : nat) :
  (k < 64)%nat -> char_sextet (sextet_char (N.of_nat k)) = Some (N.of_nat k).
Proof.
  intros H. do 64 (destruct k as [| k]; [reflexivity |]). lia.
Qed.

Lemma char_sextet_sextet (n : N) :
  (n < 64)%N -> char_sextet (sextet_char n) = Some n.
Proof.
  intros H. rewrite <- (N2Nat.id n). apply char_sextet_char. lia.
Qed.

Lemma byte_of_to_N (x : byte) : byte_of_N (Byte.to_N x) = x.
Proof.
  unfold byte_of_N. pose proof (Byte.to_N_bounded x).
  rewrite N.mod_small by lia. rewrite Byte.of_to_N. reflexivity.
Qed.

Lemma list_ind3 {A} (P : list A -> Prop) :
  P [] -> (forall x, P [x]) -> (forall x y, P [x; y]) ->
  (forall x y z l, P l -> P (x :: y :: z :: l)) ->
  forall l, P l.
Proof.
  intros H0 H1 H2 H3. fix IH 1. intros [| x [| y [| z l]]].
  - exact H0.
  - apply H1.
  - apply H2.
  - apply H3, IH.
Qed.

Lemma byte_of_N_eq n x : n = Byte.to_N x -> byte_of_N n = x.
Proof. intros ->. apply byte_of_to_N. Qed.

Lemma ref_base64_roundtrip (b : bytes) :
  ref_base64_decode (ref_base64_encode b) = b.
Proof.
  unfold ref_base64_decode.
  induction b as [| x | x y | x y z l IH] using list_ind3.
  - reflexivity.
  - cbn [ref_base64_encode sextets]. pose proof (Byte.to_N_bounded x).
    rewrite !char_sextet_sextet by div_lia.
    change (char_sextet "=") with (@None N). cbn [sextets unsextets].
    f_equal. apply byte_of_N_eq. div_lia.
  - cbn [ref_base64_encode sextets].
    pose proof (Byte.to_N_bounded x). pose proof (Byte.to_N_bounded y).
    rewrite !char_sextet_sextet by div_lia.
    change (char_sextet "=") with (@None N). cbn [sextets unsextets].
    f_equal; [| f_equal]; apply byte_of_N_eq; div_lia.
  - cbn [ref_base64_encode sextets].
    pose proof (Byte.to_N_bounded x). pose proof (Byte.to_N_bounded y).
    pose proof (Byte.to_N_bounded z).
    rewrite !char_sextet_sextet by div_lia. cbn [unsextets].
    rewrite IH. f_equal; [| f_equal; [| f_equal]]; apply byte_of_N_eq; div_lia.
Qed.

(** *** JSON: strings and numbers *)

Lemma append_length a b :
  String.length (a ++ b) = (String.length a + String.length b)%nat.
Proof. induction a; cbn; congruence. Qed.

(** An escaped character is read back as the character. *)
Lemma parse_chars_escape (c : ascii) (tail : string) :
  parse_chars (escape_char c ++ tail)
  = match parse_chars tail with
    | Some (str, after) => Some (String c str, after)
    | None => None
    end.
Proof.
  destruct c as [b0 b1 b2 b3 b4 b5 b6 b7].
  destruct b0, b1, b2, b3, b4, b5, b6, b7; reflexivity.
Qed.

Lemma parse_chars_print s rest :
  parse_chars (print_chars s ++ rest) = Some (s, rest).
Proof.
  induction s as [| c s IH].
  - reflexivity.
  - cbn [print_chars]. rewrite append_assoc, parse_chars_escape, IH.
    reflexivity.
Qed.

Lemma string_of_uint_digits d : all_digits (NilEmpty.string_of_uint d) = true.
Proof. unfold all_digits. induction d; cbn; auto. Qed.

Lemma string_of_uint_nonempty d :
  d <> Decimal.Nil -> NilEmpty.string_of_uint d <> EmptyString.
Proof. destruct d; cbn; congruence. Qed.

Lemma to_uint_nonnil (m : N) : N.to_uint m <> Decimal.Nil.
Proof.
  destruct m; cbn; [discriminate |]. apply DecimalPos.Unsigned.to_uint_nonnil.
Qed.

Lemma ends_value_not_digit c rest :
  ends_value (String c rest) = true ->
  is_digit c = false /\
  Ascii.eqb c "." || Ascii.eqb c "e" || Ascii.eqb c "E" = false /\
  is_ws c = false.
Proof.
  cbn. intros H. apply orb_true_iff in H as [H | H];
    [apply orb_true_iff in H as [H | H] |];
    apply Ascii.eqb_eq in H; subst c; auto.
Qed.

Lemma span_digits_app ds rest :
  all_digits ds = true -> ends_value rest = true ->
  span_digits (ds ++ rest) = (ds, rest).
Proof.
  unfold all_digits. induction ds as [| c ds IH].
  - intros _ H. destruct rest as [| c rest]; [reflexivity |].
    destruct (ends_value_not_digit c rest H) as (Hd & _).
    change (String.append EmptyString (String c rest)) with (String c rest).
    cbn [span_digits]. rewrite Hd. reflexivity.
  - intros H Hr. cbn [list_ascii_of_string forallb] in H.
    apply andb_true_iff in H as (Hd & H).
    change (String.append (String c ds) rest) with (String c (ds ++ rest)).
    cbn [span_digits]. rewrite Hd, (IH H Hr). reflexivity.
Qed.

Lemma parse_digits_print neg (m : N) rest :
  ends_value rest = true ->
  parse_digits neg (NilEmpty.string_of_uint (N.to_uint m) ++ rest)
  = Some (if neg then - Z.of_N m else Z.of_N m, rest).
Proof.
  intros Hr. unfold parse_digits.
  rewrite span_digits_app by (apply string_of_uint_digits || assumption).
  pose proof (string_of_uint_nonempty _ (to_uint_nonnil m)) as Hne.
  pose proof (NilEmpty.usu (N.to_uint m)) as Hu.
  destruct (NilEmpty.string_of_uint (N.to_uint m)) as [| c ds]; [congruence |].
  rewrite Hu, DecimalN.Unsigned.of_to.
  destruct rest as [| c' rest]; [reflexivity |].
  destruct (ends_value_not_digit c' rest Hr) as (_ & -> & _). reflexivity.
Qed.

Lemma digit_not_minus c : is_digit c = true -> Ascii.eqb c "-" = false.
Proof.
  destruct c as [b0 b1 b2 b3 b4 b5 b6 b7].
  destruct b0, b1, b2, b3, b4, b5, b6, b7; vm_compute; congruence.
Qed.

Lemma parse_number_print n rest :
  ends_value rest = true ->
  parse_number (print_number n ++ rest) = Some (n, rest).
Proof.
  intros Hr. unfold print_number. destruct (Z.ltb_spec n 0).
  - cbn [String.append parse_number]. rewrite Ascii.eqb_refl.
    rewrite parse_digits_print by assumption. f_equal. f_equal. lia.
  - pose proof (string_of_uint_nonempty _ (to_uint_nonnil (Z.abs_N n))) as Hne.
    pose proof (string_of_uint_digits (N.to_uint (Z.abs_N n))) as Hd.
    pose proof (parse_digits_print false (Z.abs_N n) rest Hr) as Hp.
    destruct (NilEmpty.string_of_uint (N.to_uint (Z.abs_N n))) as [| c ds];
      [congruence |].
    unfold all_digits in Hd. cbn in Hd. apply andb_true_iff in Hd as (Hc & _).
    cbn [String.append parse_number] in *.
    rewrite (digit_not_minus c Hc), Hp. f_equal. f_equal. lia.
Qed.

(** *** JSON: values *)

Lemma value_induction (P : value -> Prop) :
  P VUndef -> P VNull -> (forall b, P (VBool b)) -> (forall n, P (VNum n)) ->
  (forall s, P (VStr s)) ->
  (forall items, Forall P items -> P (VArr items)) ->
  (forall props, Forall (fun e => P (snd e)) props -> P (VObj props)) ->
  forall v, P v.
Proof.
  intros Hu Hn Hb Hz Hs Ha Ho.
  fix IH 1. intros [| | b | n | s | items | props].
  - exact Hu.
  - exact Hn.
  - apply Hb.
  - apply Hz.
  - apply Hs.
  - apply Ha. induction items as [| x rest IHrest]; constructor.
    + apply IH.
    + exact IHrest.
  - apply Ho. induction props as [| [k x] rest IHrest]; constructor.
    + apply IH.
    + exact IHrest.
Qed.

Lemma print_value_arr items :
  print_value (VArr items) = String "[" (print_items items).
Proof.
  induction items as [| x rest IH]; [reflexivity |].
  destruct rest as [| y rest]; [reflexivity |].
  change (print_value (VArr (x :: y :: rest)))
    with (String "["
            (print_value x
             ++ String ","
                  match print_value (VArr (y :: rest)) with
                  | String _ s => s
                  | EmptyString => EmptyString
                  end)).
  rewrite IH. reflexivity.
Qed.

Lemma print_value_obj props :
  print_value (VObj props) = String "{" (print_members props).
Proof.
  induction props as [| [k x] rest IH]; [reflexivity |].
  destruct rest as [| y rest]; [reflexivity |].
  change (print_value (VObj ((k, x) :: y :: rest)))
    with (String "{"
            (print_string k
             ++ String ":"
                  (print_value x
                   ++ String ","
                        match print_value (VObj (y :: rest)) with
                        | String _ s => s
                        | EmptyString => EmptyString
                        end))).
  rewrite IH. reflexivity.
Qed.

Lemma size_arr items : size (VArr items) = S (size_items items).
Proof.
  induction items as [| x rest IH]; [reflexivity |].
  change (size (VArr (x :: rest)))
    with (S (S (size x + Nat.pred (size (VArr rest))))).
  rewrite IH. reflexivity.
Qed.

Lemma size_obj props : size (VObj props) = S (size_members props).
Proof.
  induction props as [| [k x] rest IH]; [reflexivity |].
  change (size (VObj ((k, x) :: rest)))
    with (S (S (size x + Nat.pred (size (VObj rest))))).
  rewrite IH. reflexivity.
Qed.

Lemma plain_arr items : plain (VArr items) = forallb plain items.
Proof.
  induction items as [| x rest IH]; [reflexivity |].
  change (plain (VArr (x :: rest))) with (plain x && plain (VArr rest)).
  rewrite IH. reflexivity.
Qed.

Lemma plain_obj props :
  plain (VObj props) = true ->
  NoDup (map fst props) /\ forallb (fun e => plain (snd e)) props = true.
Proof.
  cbn [plain]. intros H. apply andb_true_iff in H as (Hnd & H).
  split; [exact (bool_decide_eq_true_1 _ Hnd) |].
  clear Hnd. induction props as [| [k x] rest IH]; [reflexivity |].
  apply andb_true_iff in H as (H & Hrest).
  apply andb_true_iff in H as (_ & Hx).
  cbn [forallb snd]. rewrite Hx. exact (IH Hrest).
Qed.

Lemma print_items_cons x rest :
  print_items (x :: rest)
  = print_value x
    ++ match rest with [] => "]" | _ :: _ => String "," (print_items rest) end.
Proof. destruct rest; reflexivity. Qed.

Lemma print_members_cons k x rest :
  print_members ((k, x) :: rest)
  = String quote
      (print_chars k
       ++ String ":"
            (print_value x
             ++ match rest with
                | [] => "}"
                | _ :: _ => String "," (print_members rest)
                end)).
Proof. destruct rest; reflexivity. Qed.

(** The first character of a number is a sign or a digit; no other
    branch of the parser takes it. *)
Lemma number_head c :
  Ascii.eqb c "-" || is_digit c = true ->
  is_ws c = false /\ Ascii.eqb c quote = false /\
  Ascii.eqb c "[" = false /\ Ascii.eqb c "{" = false /\
  Ascii.eqb c "n" = false /\ Ascii.eqb c "t" = false /\
  Ascii.eqb c "f" = false /\
  Ascii.eqb c "]" = false /\ Ascii.eqb c "}" = false.
Proof.
  destruct c as [b0 b1 b2 b3 b4 b5 b6 b7].
  destruct b0, b1, b2, b3, b4, b5, b6, b7; vm_compute;
    intros H; try discriminate H; repeat split.
Qed.

Lemma print_number_head n :
  exists c s, print_number n = String c s /\
    Ascii.eqb c "-" || is_digit c = true.
Proof.
  unfold print_number. destruct (n <? 0).
  - eexists _, _. split; reflexivity.
  - pose proof (string_of_uint_nonempty _ (to_uint_nonnil (Z.abs_N n))) as Hne.
    pose proof (string_of_uint_digits (N.to_uint (Z.abs_N n))) as Hd.
    destruct (NilEmpty.string_of_uint (N.to_uint (Z.abs_N n))) as [| c ds];
      [congruence |].
    unfold all_digits in Hd. cbn [list_ascii_of_string forallb] in Hd.
    apply andb_true_iff in Hd as (Hc & _).
    exists c, ds. split; [reflexivity |]. rewrite Hc. apply orb_true_r.
Qed.

(** The text of a value starts with a character that is neither blank
    nor a closing bracket. *)
Lemma print_value_head v :
  exists c s, print_value v = String c s /\
    is_ws c = false /\ Ascii.eqb c "]" = false /\ Ascii.eqb c "}" = false.
Proof.
  destruct v as [| | [|] | n | s | items | props];
    try (eexists _, _; split; [reflexivity | repeat split]).
  - destruct (print_number_head n) as (c & s & Hs & Hc).
    destruct (number_head c Hc) as (? & _ & _ & _ & _ & _ & _ & ? & ?).
    exists c, s. cbn [print_value]. auto.
Qed.

Lemma close_or_elements_other {A} close c s
    (empty : string -> option A) (elements : option A) :
  is_ws c = false -> Ascii.eqb c close = false ->
  close_or_elements close (String c s) empty elements = elements.
Proof.
  intros Hws Hc. unfold close_or_elements. cbn [skip_ws].
  rewrite Hws, Hc. reflexivity.
Qed.

Lemma obj_set_fresh k v props :
  ~ In k (map fst props) -> obj_set k v props = (props ++ [(k, v)])%list.
Proof.
  induction props as [| [k' v'] rest IH]; cbn; [reflexivity |].
  intros Hnot. destruct (String.eqb_spec k k') as [-> | Hne].
  - exfalso. apply Hnot. now left.
  - rewrite IH; [reflexivity |]. intros Hin. apply Hnot. now right.
Qed.

Lemma props_of_members_NoDup members :
  NoDup (map fst members) -> props_of_members members = members.
Proof.
  unfold props_of_members.
  enough (forall acc, NoDup (map fst (acc ++ members)%list) ->
            fold_left (fun props m => obj_set (fst m) (snd m) props) members acc
            = (acc ++ members)%list) as H by (intros Hnd; exact (H [] Hnd)).
  induction members as [| [k v] rest IH]; intros acc Hnd; cbn [fold_left].
  - now rewrite app_nil_r.
  - cbn [fst snd]. rewrite obj_set_fresh.
    + rewrite IH; rewrite <- app_assoc; [reflexivity | exact Hnd].
    + rewrite map_app in Hnd. apply NoDup_app in Hnd as (_ & Hdis & _).
      intros Hin. apply list_elem_of_In in Hin.
      apply (Hdis k Hin). apply list_elem_of_In. now left.
Qed.

Lemma parse_value_S fuel c s :
  is_ws c = false ->
  parse_value (S fuel) (String c s)
  = if Ascii.eqb c quote then
      match parse_chars s with
      | Some (str, after) => Some (VStr str, after)
      | None => None
      end
    else if Ascii.eqb c "[" then
      close_or_elements "]" s
        (fun after => Some (VArr [], after))
        match parse_items fuel s with
        | Some (items, after) => Some (VArr items, after)
        | None => None
        end
    else if Ascii.eqb c "{" then
      close_or_elements "}" s
        (fun after => Some (VObj [], after))
        match parse_members fuel s with
        | Some (members, after) => Some (VObj (props_of_members members), after)
        | None => None
        end
    else if Ascii.eqb c "n" then
      match strip_prefix "ull" s with
      | Some after => Some (VNull, after)
      | None => None
      end
    else if Ascii.eqb c "t" then
      match strip_prefix "rue" s with
      | Some after => Some (VBool true, after)
      | None => None
      end
    else if Ascii.eqb c "f" then
      match strip_prefix "alse" s with
      | Some after => Some (VBool false, after)
      | None => None
      end
    else
      match parse_number (String c s) with
      | Some (n, after) => Some (VNum n, after)
      | None => None
      end.
Proof.
  intros Hws.
  change (parse_value (S fuel) (String c s))
    with (match skip_ws (String c s) with
          | EmptyString => None
          | String c rest =>
              if Ascii.eqb c quote then
                match parse_chars rest with
                | Some (str, after) => Some (VStr str, after)
                | None => None
                end
              else if Ascii.eqb c "[" then
                close_or_elements "]" rest
                  (fun after => Some (VArr [], after))
                  match parse_items fuel rest with
                  | Some (items, after) => Some (VArr items, after)
                  | None => None
                  end
              else if Ascii.eqb c "{" then
                close_or_elements "}" rest
                  (fun after => Some (VObj [], after))
                  match parse_members fuel rest with
                  | Some (members, after) =>
                      Some (VObj (props_of_members members), after)
                  | None => None
                  end
              else if Ascii.eqb c "n" then
                match strip_prefix "ull" rest with
                | Some after => Some (VNull, after)
                | None => None
                end
              else if Ascii.eqb c "t" then
                match strip_prefix "rue" rest with
                | Some after => Some (VBool true, after)
                | None => None
                end
              else if Ascii.eqb c "f" then
                match strip_prefix "alse" rest with
                | Some after => Some (VBool false, after)
                | None => None
                end
              else
                match parse_number (String c rest) with
                | Some (n, after) => Some (VNum n, after)
                | None => None
                end
          end).
  cbn [skip_ws]. rewrite Hws. reflexivity.
Qed.

Lemma parse_items_S fuel s :
  parse_items (S fuel) s
  = match parse_value fuel s with
    | Some (v, after) =>
        next_or_close "]" after
          (fun after1 =>
             match parse_items fuel after1 with
             | Some (vs, after2) => Some (v :: vs, after2)
             | None => None
             end)
          (fun after1 => Some ([v], after1))
    | None => None
    end.
Proof. reflexivity. Qed.

Lemma parse_members_S fuel s :
  parse_members (S fuel) (String quote s)
  = match parse_chars s with
    | Some (k, after) =>
        match skip_ws after with
        | String c1 after1 =>
            if Ascii.eqb c1 ":" then
              match parse_value fuel after1 with
              | Some (v, after2) =>
                  next_or_close "}" after2
                    (fun after3 =>
                       match parse_members fuel after3 with
                       | Some (ms, after4) => Some ((k, v) :: ms, after4)
                       | None => None
                       end)
                    (fun after3 => Some ([(k, v)], after3))
              | None => None
              end
            else None
        | EmptyString => None
        end
    | None => None
    end.
Proof. reflexivity. Qed.

(** The elements of an array are read back, up to the closing bracket. *)
Lemma parse_items_print items :
  Forall reads_back items -> items <> [] ->
  forallb plain items = true ->
  forall fuel rest,
    (size_items items <= fuel)%nat -> ends_value rest = true ->
    parse_items fuel (print_items items ++ rest) = Some (items, rest).
Proof.
  induction 1 as [| x l Hx Hl IH]; [congruence |].
  intros _ Hplain fuel rest Hfuel Hrest.
  cbn [forallb] in Hplain. apply andb_true_iff in Hplain as (Hpx & Hpl).
  cbn [size_items] in Hfuel.
  destruct fuel as [| fuel]; [lia |].
  rewrite parse_items_S, print_items_cons, append_assoc.
  destruct l as [| y l].
  - change (String.append "]" rest) with (String "]" rest).
    rewrite (Hx Hpx fuel (String "]" rest)) by (reflexivity || lia).
    reflexivity.
  - change (String.append (String "," (print_items (y :: l))) rest)
      with (String "," (print_items (y :: l) ++ rest)).
    rewrite (Hx Hpx fuel) by (reflexivity || lia).
    unfold next_or_close. cbn [skip_ws].
    change (is_ws ",") with false. cbn iota.
    change (Ascii.eqb "," ",") with true. cbn iota.
    rewrite IH by (congruence || assumption || lia). reflexivity.
Qed.

(** The members of an object are read back, up to the closing bracket. *)
Lemma parse_members_print props :
  Forall (fun e => reads_back (snd e)) props -> props <> [] ->
  forallb (fun e => plain (snd e)) props = true ->
  forall fuel rest,
    (size_members props <= fuel)%nat -> ends_value rest = true ->
    parse_members fuel (print_members props ++ rest) = Some (props, rest).
Proof.
  induction 1 as [| [k x] l Hx Hl IH]; [congruence |].
  intros _ Hplain fuel rest Hfuel Hrest.
  cbn [forallb snd] in Hplain, Hx.
  apply andb_true_iff in Hplain as (Hpx & Hpl).
  cbn [size_members] in Hfuel.
  destruct fuel as [| fuel]; [lia |].
  rewrite print_members_cons.
  change (String.append (String quote ?a) rest) with (String quote (a ++ rest)).
  rewrite parse_members_S, append_assoc, parse_chars_print.
  change (String.append (String ":" ?a) rest) with (String ":" (a ++ rest)).
  cbn [skip_ws]. change (is_ws ":") with false. cbn iota.
  change (Ascii.eqb ":" ":") with true. cbn iota.
  rewrite append_assoc.
  destruct l as [| y l].
  - change (String.append "}" rest) with (String "}" rest).
    rewrite (Hx Hpx fuel (String "}" rest)) by (reflexivity || lia).
    reflexivity.
  - change (String.append (String "," (print_members (y :: l))) rest)
      with (String "," (print_members (y :: l) ++ rest)).
    rewrite (Hx Hpx fuel) by (reflexivity || lia).
    unfold next_or_close. cbn [skip_ws].
    change (is_ws ",") with false. cbn iota.
    change (Ascii.eqb "," ",") with true. cbn iota.
    rewrite IH by (congruence || assumption || lia). reflexivity.
Qed.

(** The parser reads back what the printer writes. *)
Lemma parse_value_print v : reads_back v.
Proof.
  induction v as [| | b | n | s | items IH | props IH] using value_induction;
    intros Hplain fuel rest Hfuel Hrest.
  - discriminate Hplain.
  - destruct fuel as [| fuel]; [cbn in Hfuel; lia | reflexivity].
  - destruct fuel as [| fuel]; [cbn in Hfuel; lia |]. destruct b; reflexivity.
  - destruct fuel as [| fuel]; [cbn in Hfuel; lia |].
    cbn [print_value].
    destruct (print_number_head n) as (c & s & Hs & Hc).
    destruct (number_head c Hc)
      as (Hws & Hq & Ha & Ho & Hn & Ht & Hf & _ & _).
    pose proof (parse_number_print n rest Hrest) as Hp.
    rewrite Hs in *.
    change (String.append (String c s) rest) with (String c (s ++ rest)) in *.
    rewrite (parse_value_S fuel c _ Hws), Hq, Ha, Ho, Hn, Ht, Hf, Hp.
    reflexivity.
  - destruct fuel as [| fuel]; [cbn in Hfuel; lia |].
    cbn [print_value]. unfold print_string.
    change (String.append (String quote ?a) rest) with (String quote (a ++ rest)).
    rewrite parse_value_S by reflexivity.
    change (Ascii.eqb quote quote) with true. cbn iota.
    rewrite parse_chars_print. reflexivity.
  - rewrite size_arr in Hfuel. rewrite plain_arr in Hplain.
    destruct fuel as [| fuel]; [lia |].
    rewrite print_value_arr.
    change (String.append (String "[" ?a) rest) with (String "[" (a ++ rest)).
    rewrite parse_value_S by reflexivity.
    change (Ascii.eqb "[" quote) with false. cbn iota.
    change (Ascii.eqb "[" "[") with true. cbn iota.
    destruct items as [| x l]; [reflexivity |].
    rewrite parse_items_print by (congruence || assumption || lia).
    rewrite print_items_cons, append_assoc.
    destruct (print_value_head x) as (c & s & -> & Hws & Hc & _).
    change (String.append (String c s) ?a) with (String c (s ++ a)).
    rewrite close_or_elements_other by assumption. reflexivity.
  - rewrite size_obj in Hfuel. apply plain_obj in Hplain as (Hnd & Hplain).
    destruct fuel as [| fuel]; [lia |].
    rewrite print_value_obj.
    change (String.append (String "{" ?a) rest) with (String "{" (a ++ rest)).
    rewrite parse_value_S by reflexivity.
    change (Ascii.eqb "{" quote) with false. cbn iota.
    change (Ascii.eqb "{" "[") with false. cbn iota.
    change (Ascii.eqb "{" "{") with true. cbn iota.
    destruct props as [| [k x] l]; [reflexivity |].
    rewrite parse_members_print by (congruence || assumption || lia).
    rewrite props_of_members_NoDup by assumption.
    rewrite print_members_cons.
    change (String.append (String quote ?a) rest) with (String quote (a ++ rest)).
    rewrite close_or_elements_other by reflexivity. reflexivity.
Qed.

(** The fuel the parser is started with covers the text of a value. *)
Lemma size_items_length items :
  Forall (fun v => (size v <= String.length (print_value v))%nat) items ->
  (size_items items <= String.length (print_items items))%nat.
Proof.
  induction 1 as [| x l Hx Hl IH]; [cbn; lia |].
  rewrite print_items_cons, append_length. cbn [size_items].
  destruct l as [| y l]; [cbn; lia |].
  cbn [String.length]. lia.
Qed.

Lemma size_members_length props :
  Forall (fun e => (size (snd e) <= String.length (print_value (snd e)))%nat)
    props ->
  (size_members props <= String.length (print_members props))%nat.
Proof.
  induction 1 as [| [k x] l Hx Hl IH]; [cbn; lia |].
  rewrite print_members_cons. cbn [String.length snd] in *.
  rewrite append_length. cbn [String.length]. rewrite append_length.
  cbn [size_members].
  destruct l as [| y l]; [cbn; lia |].
  cbn [String.length]. lia.
Qed.

Lemma size_length v : (size v <= String.length (print_value v))%nat.
Proof.
  induction v as [| | b | n | s | items IH | props IH] using value_induction.
  - cbn. lia.
  - cbn. lia.
  - destruct b; cbn; lia.
  - cbn [print_value size].
    destruct (print_number_head n) as (c & s & -> & _). cbn. lia.
  - cbn. lia.
  - rewrite size_arr, print_value_arr. cbn [String.length].
    apply le_n_S, size_items_length, IH.
  - rewrite size_obj, print_value_obj. cbn [String.length].
    apply le_n_S, size_members_length, IH.
Qed.

Lemma ref_json_roundtrip v :
  plain v = true -> ref_JSON_parse (ref_JSON_stringify v) = Some v.
Proof.
  intros Hplain. unfold ref_JSON_parse, ref_JSON_stringify.
  pose proof (size_length v) as Hsize.
  pose proof (parse_value_print v Hplain
                (2 * String.length (print_value v) + 2)%nat EmptyString) as H.
  rewrite append_nil_r in H. rewrite H by (reflexivity || lia). reflexivity.
Qed.

Lemma ref_base64_encode_nonempty b : b <> [] -> ref_base64_encode b <> EmptyString.
Proof.
  destruct b as [| x [| y [| z rest]]]; [congruence | | |];
    intros _; cbn [ref_base64_encode]; discriminate.
Qed.

Lemma ref_utf8_encode_nonempty s : s <> EmptyString -> ref_utf8_encode s <> [].
Proof. destruct s; [congruence |]. intros _. discriminate. Qed.

Lemma print_value_nonempty v : print_value v <> EmptyString.
Proof. destruct (print_value_head v) as (c & s & -> & _). discriminate. Qed.

(** The reference runtime keeps every law the program relies on. *)
Lemma ref_runtime_laws : RuntimeLaws ref_runtime.
Proof.
  constructor; cbn [base64_encode base64_decode utf8_encode utf8_decode gzip
                      gunzip JSON_parse JSON_stringify ref_runtime].
  - exact ref_base64_roundtrip.
  - intros v. apply string_of_list_byte_of_string.
  - intros b z [= <-]. reflexivity.
  - exact ref_json_roundtrip.
  - intros v. apply ref_base64_encode_nonempty, ref_utf8_encode_nonempty,
      print_value_nonempty.
  - intros b z [= <-]. apply ref_base64_encode_nonempty. discriminate.
Qed.

(** ** The round trip in the reference runtime *)



(* ================================================================== *)
(** * More of the restorer and of the packager *)
(* ================================================================== *)

(** ** Trees that grow *)

Lemma mkdir_p_persists p :
  forall t t', mkdir_p p t = Some t' -> persists t t'.
Proof.
  induction p as [| seg rest IH]; intros [c0 l0 | es] t'; try discriminate.
  - intros [= <-] q n Hq. eauto.
  - rewrite mkdir_p_cons.
    destruct (mkdir_p rest _) as [child |] eqn:Hc; [| discriminate].
    intros [= <-] q n Hq. destruct q as [| s q'].
    + injection Hq as <-. eexists. split; reflexivity.
    + cbn [lookup_node] in Hq |- *.
      destruct (String.eqb_spec s seg) as [-> | Hne].
      * rewrite find_put_eq.
        destruct (find_entry seg es) as [x |]; [| discriminate]. cbn in Hc.
        exact (IH _ _ Hc q' n Hq).
      * rewrite find_put_ne by assumption.
        destruct (find_entry s es) as [x |]; [| discriminate]. eauto.
Qed.

Lemma write_node_persists p :
  forall t t' data, write_node p data t = Some t' -> persists t t'.
Proof.
  induction p as [| seg rest IH]; intros t t' data; [discriminate |].
  destruct t as [c0 l0 | es]; [discriminate |].
  destruct rest as [| s' rest'].
  - rewrite write_node_last. intros Hw q n Hq. destruct q as [| s q'].
    + injection Hq as <-.
      destruct (find_entry seg es) as [[c [] | sub] |]; try discriminate;
        injection Hw as <-; eexists; split; reflexivity.
    + cbn [lookup_node] in Hq.
      destruct (String.eqb_spec s seg) as [-> | Hne].
      * destruct (find_entry seg es) as [[c [] | sub] |] eqn:Hf;
          try discriminate; injection Hw as <-.
        apply lookup_node_file_nil in Hq as Hq'. subst q'.
        injection Hq as <-. cbn [lookup_node]. rewrite find_put_eq.
        eexists. split; reflexivity.
      * assert (Ht' : t' = Dir (put_entry seg (File data false) es)).
        { destruct (find_entry seg es) as [[c [] | sub] |]; congruence. }
        subst t'. cbn [lookup_node]. rewrite find_put_ne by assumption.
        destruct (find_entry s es) as [x |]; [| discriminate]. eauto.
  - rewrite write_node_cons.
    destruct (find_entry seg es) as [child |] eqn:Hf; [| discriminate].
    destruct (write_node (s' :: rest') data child) as [child' |] eqn:Hw;
      [| discriminate].
    intros [= <-] q n Hq. destruct q as [| s q'].
    + injection Hq as <-. eexists. split; reflexivity.
    + cbn [lookup_node] in Hq |- *.
      destruct (String.eqb_spec s seg) as [-> | Hne].
      * rewrite find_put_eq. rewrite Hf in Hq. exact (IH _ _ _ Hw q' n Hq).
      * rewrite find_put_ne by assumption.
        destruct (find_entry s es) as [x |]; [| discriminate]. eauto.
Qed.

(** A locked file is not written. *)
Lemma write_node_locked p :
  forall t data content,
    lookup_node p t = Some (File content true) -> write_node p data t = None.
Proof.
  induction p as [| seg rest IH]; intros t data content; [reflexivity |].
  destruct t as [c0 l0 | es]; [reflexivity |].
  cbn [lookup_node].
  destruct (find_entry seg es) as [child |] eqn:Hf; [| discriminate].
  intros Hl. destruct rest as [| s' rest'].
  - injection Hl as ->. rewrite write_node_last, Hf. reflexivity.
  - rewrite write_node_cons, Hf. rewrite (IH _ data _ Hl). reflexivity.
Qed.

Lemma grows_refl written t : grows written t t.
Proof.
  split.
  - intros q n Hq. eauto.
  - intros q c l Hq _. exact Hq.
Qed.

Lemma grows_trans a b t1 t2 t3 :
  grows a t1 t2 -> grows b t2 t3 -> grows (b ++ a) t1 t3.
Proof.
  intros (Hp1 & Hk1) (Hp2 & Hk2). split.
  - intros q n Hq. destruct (Hp1 q n Hq) as (n1 & H1 & Hd1).
    destruct (Hp2 q n1 H1) as (n2 & H2 & Hd2).
    exists n2. split; [exact H2 | congruence].
  - intros q c l Hq Hfree. apply (Hk2 q c l).
    + apply (Hk1 q c l Hq). destruct Hfree as [-> | Hn]; [now left | right].
      intros Hin. apply Hn, in_or_app. now right.
    + destruct Hfree as [-> | Hn]; [now left | right].
      intros Hin. apply Hn, in_or_app. now left.
Qed.

Lemma grows_mkdir p t t' : mkdir_p p t = Some t' -> grows [] t t'.
Proof.
  intros Hm. split; [exact (mkdir_p_persists p t t' Hm) |].
  intros q c l Hq _. exact (mkdir_p_files p t t' q c l Hm Hq).
Qed.

Lemma grows_write p data t t' : write_node p data t = Some t' -> grows [p] t t'.
Proof.
  intros Hw. split; [exact (write_node_persists p t t' data Hw) |].
  intros q c l Hq Hfree.
  destruct (decide (q = p)) as [-> | Hne].
  - destruct Hfree as [-> | Hn].
    + rewrite (write_node_locked p t data c Hq) in Hw. discriminate.
    + exfalso. apply Hn. now left.
  - exact (write_node_files p t t' data q c l Hw Hne Hq).
Qed.

(** ** The steps of a run of the restorer *)

Lemma restore_step_refl acc w : restore_step acc [] false w w.
Proof. unfold restore_step. splits; try reflexivity. apply grows_refl. Qed.

Lemma restore_step_log acc written cleared lvl text args w w' :
  restore_step acc written cleared w w' ->
  restore_step acc written cleared w (emit (Log lvl text args) w').
Proof. unfold restore_step. cbn. auto. Qed.

Lemma restore_step_trans acc a b cleared w1 w2 w3 :
  restore_step acc a false w1 w2 ->
  restore_step acc b cleared w2 w3 ->
  restore_step acc (b ++ a) cleared w1 w3.
Proof.
  unfold restore_step.
  intros (Ho1 & Hc1 & Hk1 & Hs1 & Hw1 & Hg1 & Hr1 & Hd1)
         (Ho2 & Hc2 & Hk2 & Hs2 & Hw2 & Hg2 & Hrows).
  splits; try congruence.
  - rewrite Hw2, Hw1. apply app_assoc.
  - rewrite map_app. rewrite Hc1 in Hg2. exact (grows_trans _ _ _ _ _ Hg1 Hg2).
  - destruct cleared; destruct Hrows as (Hr2 & Hd2); split; congruence.
Qed.

Lemma restore_step_mkdir acc p w r w' :
  fs_mkdir p w = (r, w') -> restore_step acc [] false w w'.
Proof.
  unfold fs_mkdir. destruct (String.eqb p "").
  { intros [= <- <-]. apply restore_step_refl. }
  destruct (mkdir_p _ (fs w)) as [t |] eqn:Hm; intros [= <- <-].
  - unfold restore_step. cbn. splits; try reflexivity.
    exact (grows_mkdir _ _ _ Hm).
  - apply restore_step_refl.
Qed.

(** One entry writes its file or nothing. *)
Lemma restore_entry_step {R : Runtime} acc sp relPath v w r w' :
  restore_entry sp relPath v w = (r, w') ->
  exists written,
    restore_step acc written false w w' /\
    ((r = Throw /\ written = [])
     \/ (r = Ok tt /\ written = [path_join [sp; relPath]])).
Proof.
  unfold restore_entry, bind.
  destruct (fs_mkdir _ w) as [r1 w1] eqn:H1.
  pose proof (restore_step_mkdir acc _ _ _ _ H1) as Hs1.
  destruct r1 as [[] |].
  2:{ intros [= <- <-]. exists []. auto. }
  unfold lift. destruct (Buffer_from_base64 v) as [data |]; cbn [ret throw].
  2:{ intros [= <- <-]. exists []. auto. }
  unfold fs_writeFile. destruct (ends_with_slash _).
  { intros [= <- <-]. exists []. auto. }
  destruct (write_node _ data (fs w1)) as [t |] eqn:Hw; intros [= <- <-].
  2:{ exists []. auto. }
  exists [path_join [sp; relPath]]. split; [| right; auto].
  apply (restore_step_trans acc [] [_] false w w1); [exact Hs1 |].
  unfold restore_step. cbn. splits; try reflexivity.
  exact (grows_write _ _ _ _ Hw).
Qed.

(** The loop never throws; it counts the files it writes. *)
Lemma restore_entries_step {R : Runtime} acc sp entries :
  forall n w, exists n' w' written,
    restore_entries sp entries n w = (Ok n', w') /\
    restore_step acc written false w w' /\
    n' = n + Z.of_nat (List.length written).
Proof.
  induction entries as [| [relPath v] rest IH]; intros n w.
  - exists n, w, []. cbn. splits; [reflexivity | apply restore_step_refl | lia].
  - rewrite restore_entries_cons.
    destruct (restore_entry sp relPath v w) as [r1 w1] eqn:H1.
    destruct (restore_entry_step acc _ _ _ _ _ _ H1)
      as (wr1 & Hs1 & [(-> & ->) | (-> & ->)]).
    + destruct (IH n (emit (Log Warn "[Session] Failed" [VStr relPath]) w1))
        as (n' & w' & wr & Hrun & Hs & Hn).
      exists n', w', wr. splits; [exact Hrun | | exact Hn].
      rewrite <- (app_nil_r wr).
      eapply (restore_step_trans acc [] wr false w); [| exact Hs].
      apply restore_step_log, Hs1.
    + destruct (IH (n + 1) w1) as (n' & w' & wr & Hrun & Hs & Hn).
      exists n', w', (wr ++ [path_join [sp; relPath]])%list.
      splits; [exact Hrun | |].
      * exact (restore_step_trans acc _ wr false w w1 w' Hs1 Hs).
      * rewrite length_app. cbn. lia.
Qed.

Lemma restore_files_step {R : Runtime} acc sp files w :
  exists r w' written,
    restore_files sp files w = (Ok r, w') /\
    sessionPath r = sp /\
    restore_step acc written false w w' /\
    (restored r = false -> written = []).
Proof.
  unfold restore_files. destruct (_ || _).
  - eexists _, _, []. splits; try reflexivity.
    apply restore_step_log, restore_step_refl.
  - unfold bind at 1. unfold log at 1. unfold bind at 1.
    destruct (restore_entries_step acc sp (Object_entries files) 0
                (emit (Log Info "[Session] Restoring files"
                         [VNum (Z.of_nat (List.length (Object_keys files)))]) w))
      as (n' & w' & wr & Hrun & Hs & _).
    rewrite Hrun. unfold bind, log, ret.
    eexists _, _, wr. splits; try reflexivity; [| discriminate].
    apply restore_step_log. rewrite <- (app_nil_r wr).
    eapply (restore_step_trans acc [] wr false w); [| exact Hs].
    apply restore_step_log, restore_step_refl.
Qed.

Lemma restore_step_clear acc lvl text args w :
  online w = true ->
  restore_step acc [] true w
    (with_rows (delete acc (rows w))
       (emit (DbClear acc) (emit (Log lvl text args) w))).
Proof.
  intros Ho. unfold restore_step. cbn. splits; try reflexivity.
  apply grows_refl.
Qed.

(** The parsed envelope, the store answering: the files are written, or
    the row is cleared and nothing is written, or nothing is done. *)
Lemma restore_payload_step {R : Runtime} acc sp payload w :
  online w = true ->
  exists res w' written cleared,
    restore_payload acc sp payload w = (res, w') /\
    restore_step acc written cleared w w' /\
    match res with
    | Ok r =>
        sessionPath r = sp /\
        (restored r = false -> written = []) /\
        (cleared = true -> restored r = false)
    | Throw => written = [] /\ cleared = false
    end.
Proof.
  intros Ho.
  destruct (get_prop payload "data") as [data |] eqn:Hd.
  2:{ rewrite restore_payload_null by assumption.
      eexists _, _, [], false. split; [reflexivity |].
      split; [apply restore_step_refl | split; reflexivity]. }
  destruct (truthy data) eqn:Ht.
  2:{ destruct (restore_payload_unknown acc sp payload data w Hd Ht) as (ty & ->).
      eexists _, _, [], false. split; [reflexivity |].
      split; [apply restore_step_log, restore_step_refl |].
      cbn. splits; try reflexivity; discriminate. }
  destruct (decode_files data) as [files |] eqn:Hf.
  - rewrite (restore_payload_files acc sp payload data files) by assumption.
    destruct (restore_files_step acc sp files w) as (r & w' & wr & -> & Hsp & Hs & Hr).
    eexists _, _, wr, false. split; [reflexivity |].
    split; [exact Hs |]. splits; [exact Hsp | exact Hr | discriminate].
  - rewrite (restore_payload_corrupt acc sp payload data) by assumption.
    cbv zeta. rewrite Ho.
    eexists _, _, [], true. split; [reflexivity |].
    split; [apply restore_step_clear, Ho |].
    cbn. splits; reflexivity.
Qed.

(** The body of [preRestoreSession], path by path. *)
Lemma preRestoreSession_body_eq {R : Runtime} acc dp w :
  let sp := path_join [dp; acc] in
  preRestoreSession_body acc dp sp w =
    if String.eqb dp "" then (Throw, w) else
    match mkdir_p (resolve (cwd w) dp) (fs w) with
    | None => (Throw, w)
    | Some t1 =>
        match mkdir_p (resolve (cwd w) sp) t1 with
        | None => (Throw, with_fs t1 w)
        | Some t2 =>
            let w0 :=
              emit (DbGet acc)
                (emit (Log Info "[Session] Checking database" [VStr acc])
                   (with_fs t2 w)) in
            if online w then
              match rows w !! acc with
              | None | Some EmptyString =>
                  (Ok {| restored := false; sessionPath := sp |},
                   emit (Log Info "[Session] No saved session" [VStr acc]) w0)
              | Some blob =>
                  match JSON_parse (utf8_decode (base64_decode blob)) with
                  | None =>
                      (Ok {| restored := false; sessionPath := sp |},
                       with_rows (delete acc (rows w))
                         (emit (DbClear acc)
                            (emit (Log Error
                                     "[Session] Corrupted session data, clearing" [])
                               w0)))
                  | Some payload => restore_payload acc sp payload w0
                  end
              end
            else (Throw, w0)
        end
    end.
Proof.
  intros sp. unfold preRestoreSession_body.
  unfold bind at 1. unfold fs_mkdir at 1.
  destruct (String.eqb dp ""); [reflexivity |].
  destruct (mkdir_p _ (fs w)) as [t1 |]; [| reflexivity].
  unfold bind at 1. unfold sp at 1.
  rewrite (fs_mkdir_path _ _ (path_join_nonempty _)). fold sp.
  cbn [cwd with_fs fs].
  destruct (mkdir_p _ t1) as [t2 |]; [| reflexivity].
  unfold bind at 1. unfold log at 1.
  unfold bind at 1. unfold db_getSessionData at 1. cbn [online emit with_fs rows].
  destruct (online w) eqn:Ho; [| reflexivity].
  destruct (rows w !! acc) as [[| c blob] |]; try reflexivity.
  cbv zeta.
  destruct (JSON_parse _) as [payload |]; [reflexivity |].
  unfold bind, log, db_clearSessionData, ret. cbn. rewrite Ho. reflexivity.
Qed.

(** Every run of [preRestoreSession]: what it returns, and what it has
    done to the world. *)
Lemma preRestoreSession_run {R : Runtime} acc dp w :
  exists r w' written cleared,
    preRestoreSession acc dp w = (Ok r, w') /\
    sessionPath r = path_join [dp; acc] /\
    restore_step acc written cleared w w' /\
    (restored r = false -> written = []) /\
    (cleared = true -> restored r = false) /\
    (forall w0, asked acc dp w = Some w0 ->
        grows (map (resolve (cwd w)) written) (fs w0) (fs w')) /\
    (asked acc dp w = None ->
        restored r = false /\ cleared = false
        /\ db_gets (trace w') = db_gets (trace w)) /\
    (online w = false \/ rows w !! acc = None
     \/ rows w !! acc = Some EmptyString ->
        restored r = false /\ cleared = false).
Proof.
  unfold preRestoreSession, try_catch. rewrite preRestoreSession_body_eq.
  unfold asked. set (sp := path_join [dp; acc]).
  destruct (String.eqb dp "") eqn:Hdp.
  { unfold bind, log, ret. eexists _, _, [], false.
    split; [reflexivity |]. splits; try reflexivity; try discriminate; auto.
    all: try (apply restore_step_log, restore_step_refl). }
  destruct (mkdir_p (resolve (cwd w) dp) (fs w)) as [t1 |] eqn:Hm1.
  2:{ unfold bind, log, ret. eexists _, _, [], false.
      split; [reflexivity |]. splits; try reflexivity; try discriminate; auto.
      all: try (apply restore_step_log, restore_step_refl). }
  cbn [mbind option_bind].
  assert (Hs1 : restore_step acc [] false w (with_fs t1 w)).
  { unfold restore_step. cbn. splits; try reflexivity.
    exact (grows_mkdir _ _ _ Hm1). }
  destruct (mkdir_p (resolve (cwd w) sp) t1) as [t2 |] eqn:Hm2.
  2:{ unfold bind, log, ret. eexists _, _, [], false.
      split; [reflexivity |]. splits; try reflexivity; try discriminate; auto.
      all: try (apply restore_step_log, Hs1). }
  cbn [mbind option_bind]. cbv zeta.
  set (w0 := emit (DbGet acc)
               (emit (Log Info "[Session] Checking database" [VStr acc])
                  (with_fs t2 w))).
  assert (Hs0 : restore_step acc [] false w w0).
  { unfold restore_step. cbn. splits; try reflexivity.
    exact (grows_trans _ _ _ _ _ (grows_mkdir _ _ _ Hm1) (grows_mkdir _ _ _ Hm2)). }
  destruct (online w) eqn:Ho.
  2:{ unfold bind, log, ret. eexists _, _, [], false.
      split; [reflexivity |]. splits; try reflexivity; try discriminate; auto.
      all: try (apply restore_step_log, Hs0).
      all: try (intros w1 [= <-]; apply grows_refl). }
  assert (Hnone : forall text,
    exists r w' written cleared,
      (Ok {| restored := false; sessionPath := sp |},
       emit (Log Info text [VStr acc]) w0) = (Ok r, w') /\
      sessionPath r = sp /\
      restore_step acc written cleared w w' /\
      (restored r = false -> written = []) /\
      (cleared = true -> restored r = false) /\
      (forall w1, Some w0 = Some w1 ->
          grows (map (resolve (cwd w)) written) (fs w1) (fs w')) /\
      (Some w0 = None ->
          restored r = false /\ cleared = false
          /\ db_gets (trace w') = db_gets (trace w)) /\
      (true = false \/ rows w !! acc = None
       \/ rows w !! acc = Some EmptyString ->
          restored r = false /\ cleared = false)).
  { intros text. eexists _, _, [], false.
    split; [reflexivity |]. splits; try reflexivity; try discriminate; auto.
    all: try (apply restore_step_log, Hs0).
    all: try (intros w1 [= <-]; apply grows_refl). }
  destruct (rows w !! acc) as [[| c blob] |] eqn:Hrow; try apply Hnone.
  clear Hnone.
  destruct (JSON_parse _) as [payload |].
  - destruct (restore_payload_step acc sp payload w0 Ho)
      as (res & w' & wr & cl & -> & Hs & Hres).
    pose proof (restore_step_trans acc [] wr cl w w0 w' Hs0 Hs) as Hstep.
    rewrite app_nil_r in Hstep.
    destruct res as [r |].
    + destruct Hres as (Hsp & Hr & Hc).
      exists r, w', wr, cl. split; [reflexivity |].
      splits; try assumption; try discriminate.
      all: try (intros w1 [= <-]; apply Hs).
      all: try (intros [[=] | [[=] | [=]]]).
    + destruct Hres as (-> & ->). unfold bind, log, ret.
      eexists _, _, [], false. split; [reflexivity |].
      splits; try reflexivity; try discriminate; auto.
      all: try (apply restore_step_log, Hstep).
      all: try (intros w1 [= <-]; apply Hs).
      all: try (intros [[=] | [[=] | [=]]]).
  - eexists _, _, [], true. split; [reflexivity |].
    splits; try reflexivity; try discriminate; auto.
    all: try (intros w1 [= <-]; apply grows_refl).
    all: try (intros [[=] | [[=] | [=]]]).
    apply (restore_step_trans acc [] [] true w w0); [exact Hs0 |].
    exact (restore_step_clear acc Error _ [] w0 Ho).
Qed.

(** ** What the restorer does to the store and to the files *)

(** X1.  [preRestoreSession] never calls [db.saveSessionData]; the only
    row of the store it can change is the one of its account, by
    clearing it, and then it answers [restored: false]; the rows of the
    other accounts are as they were, and no other account is cleared. *)
Theorem preRestoreSession_store_frame {R : Runtime}
    (accountId dataPath : string) (w : world) :
  exists r w',
    preRestoreSession accountId dataPath w = (Ok r, w') /\
    db_sets (trace w') = db_sets (trace w) /\
    (forall other, other <> accountId -> rows w' !! other = rows w !! other) /\
    (rows w' = rows w \/
     (rows w' = delete accountId (rows w) /\ restored r = false)) /\
    (forall a, In a (db_clears (trace w')) ->
        a = accountId \/ In a (db_clears (trace w))).
Proof.
  destruct (preRestoreSession_run accountId dataPath w)
    as (r & w' & wr & cl & Hrun & _ & Hs & _ & Hcl & _).
  destruct Hs as (_ & _ & _ & Hsets & _ & _ & Hrows).
  exists r, w'. split; [exact Hrun |]. split; [exact Hsets |].
  destruct cl; destruct Hrows as (Hr & Hc); rewrite Hr, Hc.
  - splits.
    + intros other Hne. apply lookup_delete_ne. congruence.
    + right. split; [reflexivity | apply Hcl; reflexivity].
    + intros a [<- | Hin]; auto.
  - splits; auto.
Qed.

(** X2.  [preRestoreSession] removes nothing from the file system: what
    was at a path is still there, a directory as a directory and a file
    as a file; a file has the bytes it had unless the run reports having
    written it, and a locked file always has; and a run that answers
    [restored: false] has written no file. *)
Theorem preRestoreSession_keeps_files {R : Runtime}
    (accountId dataPath : string) (w : world) :
  exists r w' written,
    preRestoreSession accountId dataPath w = (Ok r, w') /\
    fs_writes (trace w') = (written ++ fs_writes (trace w))%list /\
    (forall q n, lookup_node q (fs w) = Some n ->
        exists n', lookup_node q (fs w') = Some n' /\ is_dir n' = is_dir n) /\
    (forall q content locked,
        lookup_node q (fs w) = Some (File content locked) ->
        locked = true \/ (forall p, In p written -> resolve (cwd w) p <> q) ->
        lookup_node q (fs w') = Some (File content locked)) /\
    (restored r = false -> written = []).
Proof.
  destruct (preRestoreSession_run accountId dataPath w)
    as (r & w' & wr & cl & Hrun & _ & Hs & Hr & _).
  destruct Hs as (_ & _ & _ & _ & Hw & (Hp & Hk) & _).
  exists r, w', wr. splits; try assumption.
  intros q c l Hq Hfree. apply (Hk q c l Hq).
  destruct Hfree as [-> | Hfree]; [now left | right].
  intros Hin. apply in_map_iff in Hin as (p & Hp' & Hin).
  exact (Hfree p Hin Hp').
Qed.

(** X3.  Nothing to restore: when the store does not answer, or has no
    row for the account, or has the empty string there,
    [preRestoreSession] answers [restored: false] with the session path;
    it clears nothing, writes no file, leaves the rows and every file as
    they were. *)
Theorem preRestoreSession_nothing_stored {R : Runtime}
    (accountId dataPath : string) (w : world) :
  online w = false \/ rows w !! accountId = None
  \/ rows w !! accountId = Some EmptyString ->
  exists w',
    preRestoreSession accountId dataPath w
      = (Ok {| restored := false;
               sessionPath := path_join [dataPath; accountId] |}, w') /\
    rows w' = rows w /\
    db_clears (trace w') = db_clears (trace w) /\
    db_sets (trace w') = db_sets (trace w) /\
    fs_writes (trace w') = fs_writes (trace w) /\
    (forall q content locked,
        lookup_node q (fs w) = Some (File content locked) ->
        lookup_node q (fs w') = Some (File content locked)).
Proof.
  intros Hnone.
  destruct (preRestoreSession_run accountId dataPath w)
    as (r & w' & wr & cl & Hrun & Hsp & Hs & Hr & _ & _ & _ & Hcase).
  destruct (Hcase Hnone) as (Hfalse & ->).
  rewrite (Hr Hfalse) in Hs.
  destruct Hs as (_ & _ & _ & Hsets & Hw & (_ & Hk) & Hrows & Hclears).
  exists w'. splits; try assumption.
  - rewrite Hrun. destruct r as [b sp]. cbn in Hsp, Hfalse. congruence.
  - intros q c l Hq. apply (Hk q c l Hq). right. intros [].
Qed.

Lemma preRestoreSession_nothing_stored_witness :
  exists w',
    preRestoreSession "acc1" "./wa-sessions-temp" (world_of (Dir []) ∅)
      = (Ok {| restored := false;
               sessionPath := path_join ["./wa-sessions-temp"; "acc1"] |}, w') /\
    rows w' = rows (world_of (Dir []) ∅) /\
    db_clears (trace w') = db_clears (trace (world_of (Dir []) ∅)) /\
    db_sets (trace w') = db_sets (trace (world_of (Dir []) ∅)) /\
    fs_writes (trace w') = fs_writes (trace (world_of (Dir []) ∅)) /\
    (forall q content locked,
        lookup_node q (fs (world_of (Dir []) ∅)) = Some (File content locked) ->
        lookup_node q (fs w') = Some (File content locked)).
Proof.
  apply (preRestoreSession_nothing_stored
           "acc1" "./wa-sessions-temp" (world_of (Dir []) ∅)).
  right. left. reflexivity.
Defined.



(** X5.  When a file stands where the data path or the session path
    leads, or the data path is the empty string, so that one of the two
    directories cannot be made, [preRestoreSession] answers
    [restored: false] without asking the store: no call of
    [db.getSessionData], no row changed, no file written. *)
Theorem preRestoreSession_mkdir_fails {R : Runtime}
    (accountId dataPath : string) (w : world) :
  asked accountId dataPath w = None ->
  exists w',
    preRestoreSession accountId dataPath w
      = (Ok {| restored := false;
               sessionPath := path_join [dataPath; accountId] |}, w') /\
    db_gets (trace w') = db_gets (trace w) /\
    rows w' = rows w /\
    db_clears (trace w') = db_clears (trace w) /\
    fs_writes (trace w') = fs_writes (trace w).
Proof.
  intros Hasked.
  destruct (preRestoreSession_run accountId dataPath w)
    as (r & w' & wr & cl & Hrun & Hsp & Hs & Hr & _ & _ & Hnone & _).
  destruct (Hnone Hasked) as (Hfalse & -> & Hgets).
  rewrite (Hr Hfalse) in Hs.
  destruct Hs as (_ & _ & _ & _ & Hw & _ & Hrows & Hclears).
  exists w'. splits; try assumption.
  rewrite Hrun. destruct r as [b sp]. cbn in Hsp, Hfalse. congruence.
Qed.

Lemma preRestoreSession_mkdir_fails_witness :
  exists w',
    preRestoreSession "acc1" "./wa-sessions-temp"
      (world_of (Dir [("wa-sessions-temp", File [] false)]) ∅)
      = (Ok {| restored := false;
               sessionPath := path_join ["./wa-sessions-temp"; "acc1"] |}, w') /\
    db_gets (trace w')
      = db_gets (trace (world_of (Dir [("wa-sessions-temp", File [] false)]) ∅)) /\
    rows w' = rows (world_of (Dir [("wa-sessions-temp", File [] false)]) ∅) /\
    db_clears (trace w')
      = db_clears (trace (world_of (Dir [("wa-sessions-temp", File [] false)]) ∅)) /\
    fs_writes (trace w')
      = fs_writes (trace (world_of (Dir [("wa-sessions-temp", File [] false)]) ∅)).
Proof.
  apply (preRestoreSession_mkdir_fails "acc1" "./wa-sessions-temp"
           (world_of (Dir [("wa-sessions-temp", File [] false)]) ∅)).
  reflexivity.
Defined.

(** ** What the packager does to the store and to the files *)

(** X6.  [saveSession] never throws; it leaves the file system as it
    was, clears nothing in the store, and the only row it can change is
    the one of its account: the rows of the other accounts are as they
    were and [db.saveSessionData] is called for no other account. *)
Theorem saveSession_contained {R : Runtime}
    (accountId dataPath : string) (w : world) :
  exists b w',
    saveSession accountId dataPath w = (Ok b, w') /\
    fs w' = fs w /\
    fs_writes (trace w') = fs_writes (trace w) /\
    db_clears (trace w') = db_clears (trace w) /\
    (forall other, other <> accountId -> rows w' !! other = rows w !! other) /\
    (forall a blob, In (a, blob) (db_sets (trace w')) ->
        a = accountId \/ In (a, blob) (db_sets (trace w))).
Proof.
  destruct (saveSession_cases accountId dataPath w)
    as (b & w' & Hrun & Hfs & _ & Hw & Hc & Hcase).
  exists b, w'. splits; try assumption; cbv zeta in Hcase.
  - intros other Hne.
    destruct (fs_lookup _ w); [| destruct Hcase as (_ & -> & _); reflexivity].
    destruct (fst (snapshot _ w)); [destruct Hcase as (_ & -> & _); reflexivity |].
    destruct (packed _ _ _); [| destruct Hcase as (_ & -> & _); reflexivity].
    destruct Hcase as (_ & Hcase).
    destruct (online w); destruct Hcase as (_ & ->); [| reflexivity].
    apply lookup_insert_ne. congruence.
  - intros a blob Hin.
    destruct (fs_lookup _ w);
      [| destruct Hcase as (_ & _ & Hs); rewrite Hs in Hin; auto].
    destruct (fst (snapshot _ w));
      [destruct Hcase as (_ & _ & Hs); rewrite Hs in Hin; auto |].
    destruct (packed _ _ _);
      [| destruct Hcase as (_ & _ & Hs); rewrite Hs in Hin; auto].
    destruct Hcase as (Hs & _). rewrite Hs in Hin.
    destruct Hin as [[= <- <-] | Hin]; auto.
Qed.

(** The snapshot of a well-formed session is an object that the codecs
    carry unchanged. *)
Lemma snapshot_plain {R : Runtime} sp w session :
  fs_lookup sp w = Some session ->
  wf_node session = true ->
  plain (VObj (fst (snapshot sp w))) = true.
Proof.
  intros Hs Hwf. apply plain_props.
  - apply (essential_snapshot_NoDup w sp ESSENTIAL_DIRS [] 0). constructor.
  - apply List.Forall_forall. intros [k v] Hin.
    destruct (snapshot_entries sp w session k v Hs Hwf Hin)
      as (_ & Hk & c & -> & _).
    split; [exact Hk | reflexivity].
Qed.

Section Envelope.
Context {R : Runtime} {L : RuntimeLaws R}.

(** X7.  What a successful [saveSession] stores: the row of the account
    is set, once, to a blob that decodes (base64, UTF-8, JSON) to the
    envelope [{type: 'session_v4', data, saved}], whose [data] decodes
    (base64, gunzip, JSON) to [{files, ts, id}] with the files of the
    snapshot, which are not none, the time of the save and the account
    identifier. *)
Theorem saveSession_stores_envelope
    (accountId dataPath : string) (w w1 : world) (session : node) :
  let sp := path_join [dataPath; accountId] in
  fs_lookup sp w = Some session ->
  wf_node session = true ->
  saveSession accountId dataPath w = (Ok true, w1) ->
  exists blob data,
    rows w1 = <[accountId := blob]> (rows w) /\
    db_sets (trace w1) = (accountId, blob) :: db_sets (trace w) /\
    JSON_parse (utf8_decode (base64_decode blob))
      = Some (VObj [("type", VStr "session_v4"); ("data", VStr data);
                    ("saved", VStr (toISOString (clock w)))]) /\
    decode_payload (VStr data)
      = Some (VObj [("files", VObj (fst (snapshot sp w)));
                    ("ts", VNum (clock w)); ("id", VStr accountId)]) /\
    fst (snapshot sp w) <> [].
Proof.
  intros sp Hs Hwf Hrun.
  pose proof (snapshot_plain sp w session Hs Hwf) as Hplain.
  destruct (saveSession_cases accountId dataPath w)
    as (b & w' & Hrun' & _ & _ & _ & _ & Hcase).
  rewrite Hrun in Hrun'. injection Hrun' as <- <-. cbv zeta in Hcase.
  fold sp in Hcase.
  destruct (fs_lookup (path_join [sp; "Default"]) w);
    [| destruct Hcase; discriminate].
  destruct (fst (snapshot sp w)) as [| f files] eqn:Hfiles;
    [destruct Hcase; discriminate |].
  destruct (packed _ _ _) as [blob |] eqn:Hpacked; [| destruct Hcase; discriminate].
  destruct Hcase as (Hsets & Hcase).
  destruct (online w); destruct Hcase as (Hb & Hr); [| discriminate].
  unfold packed in Hpacked.
  destruct (gzip _) as [z |] eqn:Hz; [| discriminate]. cbn in Hpacked.
  injection Hpacked as <-.
  eexists _, (base64_encode z). splits; try eassumption.
  - rewrite base64_roundtrip, utf8_roundtrip, json_roundtrip by reflexivity.
    reflexivity.
  - unfold decode_payload. cbn [Buffer_from_base64 mbind option_bind].
    rewrite base64_roundtrip. rewrite (gzip_roundtrip _ _ Hz). cbn.
    rewrite utf8_roundtrip, json_roundtrip; [reflexivity |].
    apply plain_props.
    + apply (bool_decide_unpack (NoDup ["files"; "ts"; "id"])). vm_compute. exact I.
    + repeat (constructor; [split; [reflexivity | assumption || reflexivity] |]).
      constructor.
  - discriminate.
Qed.

End Envelope.

Lemma saveSession_stores_envelope_witness :
  exists blob data,
    rows (snd (saveSession "acc1" "./wa-sessions-temp" demo_world))
      = <["acc1" := blob]> (rows demo_world) /\
    db_sets (trace (snd (saveSession "acc1" "./wa-sessions-temp" demo_world)))
      = ("acc1", blob) :: db_sets (trace demo_world) /\
    JSON_parse (utf8_decode (base64_decode blob))
      = Some (VObj [("type", VStr "session_v4"); ("data", VStr data);
                    ("saved", VStr (toISOString (clock demo_world)))]) /\
    decode_payload (VStr data)
      = Some (VObj [("files",
                     VObj (fst (snapshot (path_join ["./wa-sessions-temp"; "acc1"])
                                  demo_world)));
                    ("ts", VNum (clock demo_world)); ("id", VStr "acc1")]) /\
    fst (snapshot (path_join ["./wa-sessions-temp"; "acc1"]) demo_world) <> [].
Proof.
  apply (@saveSession_stores_envelope ref_runtime ref_runtime_laws
           "acc1" "./wa-sessions-temp" demo_world
           (snd (saveSession "acc1" "./wa-sessions-temp" demo_world))
           demo_session).
  - reflexivity.
  - reflexivity.
  - vm_compute. reflexivity.
Defined.

(* ================================================================== *)
(** * The strategy object *)
(* ================================================================== *)

(** ** The constructor *)

(** X8.  [new RemoteAuth(options)] succeeds exactly when [options] is not
    [null] and [options.accountId] is truthy (a missing identifier, the
    empty string, [0], [false] and [null] are refused).  The object it
    builds has that identifier as [accountId] and as [clientId], no
    timer, and a data path that is never falsy: [options.dataPath], or
    [./wa-sessions-temp] when that is missing or falsy. *)
Theorem RemoteAuth_new_spec (options : value) :
  let given := match options with VUndef => VObj [] | _ => options end in
  (RemoteAuth_new options = None <->
   options = VNull
   \/ exists accountId,
        get_prop given "accountId" = Some accountId /\ truthy accountId = false)
  /\
  (forall this,
      RemoteAuth_new options = Some this ->
      get_prop given "accountId" = Some (this_accountId this) /\
      truthy (this_accountId this) = true /\
      this_clientId this = this_accountId this /\
      this_saveTimer this = None /\
      truthy (this_dataPath this) = true /\
      exists dataPath,
        get_prop given "dataPath" = Some dataPath /\
        this_dataPath this
        = if truthy dataPath then dataPath else VStr "./wa-sessions-temp").
Proof.
  cbv zeta. unfold RemoteAuth_new.
  set (given := match options with VUndef => VObj [] | _ => options end).
  destruct (get_prop given "accountId") as [accountId |] eqn:Ha.
  2:{ assert (options = VNull) as ->
        by (destruct options; try discriminate; reflexivity).
      split; [split; auto | discriminate]. }
  assert (Hd : exists dataPath, get_prop given "dataPath" = Some dataPath).
  { destruct given; try discriminate; cbn; eauto. }
  destruct Hd as (dataPath & Hd). rewrite Hd. cbn [this_accountId].
  destruct (truthy accountId) eqn:Ht; cbn [negb]; split.
  - split; [discriminate |].
    intros [-> | (a & [= <-] & Hf)]; [discriminate | congruence].
  - intros this [= <-]. cbn. splits; try reflexivity; try assumption.
    + destruct (truthy dataPath) eqn:Hp; [exact Hp | reflexivity].
    + exists dataPath. auto.
  - split; [| reflexivity]. intros _. right. exists accountId. auto.
  - discriminate.
Qed.

(** ** Identifiers that are not strings *)

(** X9.  The constructor takes any truthy identifier, a number for one.
    With an identifier or a data path that is not a string,
    [path.join] throws in every method: [saveSession] logs the error and
    answers [false], [beforeBrowserInitialized] throws to its caller
    before anything is done, and [destroy] removes nothing; none of them
    touches the store or the file system. *)
Theorem non_string_identifier {R : Runtime} :
  (forall n : Z, n <> 0 ->
      RemoteAuth_new (VObj [("accountId", VNum n)])
      = Some {| this_accountId := VNum n; this_clientId := VNum n;
                this_dataPath := VStr "./wa-sessions-temp";
                this_saveTimer := None |})
  /\
  (forall (this : strategy) (options : list (string * value)) (l : loop)
          (w : world),
      (forall s, this_accountId this <> VStr s)
      \/ (forall s, this_dataPath this <> VStr s) ->
      RemoteAuth_saveSession this w
        = (Ok false, emit (Log Error "[Session] Save error" []) w) /\
      beforeBrowserInitialized this options w = (Throw, w) /\
      destroy this l w
        = (Ok (match this_saveTimer this with
               | Some h => clearTimeout h l
               | None => l
               end),
           emit (Log Info "[Session] Destroy" [this_accountId this]) w)).
Proof.
  split.
  - intros n Hn. unfold RemoteAuth_new. cbn.
    destruct (Z.eqb_spec n 0); [contradiction | reflexivity].
  - intros [accountId clientId dataPath saveTimer] options l w Hbad.
    cbn [this_accountId this_dataPath] in Hbad.
    unfold RemoteAuth_saveSession, beforeBrowserInitialized, destroy,
      path_join_values.
    cbn [this_accountId this_dataPath this_saveTimer strings_of].
    destruct dataPath as [| | b | n | dp | items | props];
      try (splits; reflexivity);
      destruct accountId as [| | b' | n' | acc | items' | props'];
      try (splits; reflexivity).
    destruct Hbad as [H | H]; [destruct (H acc) | destruct (H dp)]; reflexivity.
Qed.

Lemma non_string_identifier_witness :
  RemoteAuth_saveSession
    {| this_accountId := VNum 42; this_clientId := VNum 42;
       this_dataPath := VStr "./wa-sessions-temp"; this_saveTimer := None |}
    demo_world
  = (Ok false, emit (Log Error "[Session] Save error" []) demo_world).
Proof.
  apply (proj2 non_string_identifier
           {| this_accountId := VNum 42; this_clientId := VNum 42;
              this_dataPath := VStr "./wa-sessions-temp";
              this_saveTimer := None |}
           [] {| next_handle := 0; pending := [] |} demo_world).
  left. intros s. discriminate.
Defined.

(** ** Before the browser starts *)

Lemma hasPreRestoredSession_run {R : Runtime} sp w :
  hasPreRestoredSession sp w
  = (Ok match fs_lookup (path_join [sp; "Default"; "IndexedDB"]) w with
        | Some (Dir (_ :: _)) => true
        | _ => false
        end, w).
Proof.
  unfold hasPreRestoredSession, try_catch, bind, fs_existsSync, fs_readdirSync, ret.
  destruct (fs_lookup _ w) as [[content locked | entries] |] eqn:Hl.
  - rewrite bool_decide_eq_true_2 by eauto. rewrite Hl. reflexivity.
  - rewrite bool_decide_eq_true_2 by eauto. rewrite Hl.
    destruct entries; reflexivity.
  - rewrite bool_decide_eq_false_2 by (intros [x Hx]; discriminate).
    reflexivity.
Qed.



Lemma path_join_three sp a b :
  a <> EmptyString -> b <> EmptyString ->
  path_join [sp; a; b] = path_join [sp; join_slash [a; b]].
Proof.
  intros Ha Hb. unfold path_join. cbn [List.filter join_slash].
  assert (Hab : String.eqb (a ++ "/" ++ b) "" = false).
  { destruct a; [congruence | reflexivity]. }
  apply String.eqb_neq in Ha, Hb. rewrite Ha, Hb, Hab.
  destruct (String.eqb sp ""); reflexivity.
Qed.




(** ** Removing the session directory *)

Lemma find_drop_eq seg es : find_entry seg (drop_entry seg es) = None.
Proof.
  unfold drop_entry. induction es as [| [k n] rest IH]; [reflexivity |].
  cbn [List.filter fst]. destruct (String.eqb seg k) eqn:E; cbn [negb].
  - exact IH.
  - cbn [find_entry]. rewrite E. exact IH.
Qed.

Lemma find_drop_ne seg s es :
  s <> seg -> find_entry s (drop_entry seg es) = find_entry s es.
Proof.
  intros Hne. unfold drop_entry.
  induction es as [| [k n] rest IH]; [reflexivity |].
  cbn [List.filter fst]. destruct (String.eqb_spec seg k) as [<- | Hk]; cbn [negb].
  - cbn [find_entry]. apply String.eqb_neq in Hne. rewrite Hne. exact IH.
  - cbn [find_entry]. rewrite IH. reflexivity.
Qed.

Lemma remove_node_cons seg s rest es :
  remove_node (seg :: s :: rest) (Dir es)
  = match find_entry seg es with
    | Some child =>
        match remove_node (s :: rest) child with
        | Some child' => Some (Dir (put_entry seg child' es))
        | None => None
        end
    | None => Some (Dir es)
    end.
Proof. reflexivity. Qed.

(** What is removed is no longer there. *)
Lemma remove_node_gone p :
  forall t t', remove_node p t = Some t' -> lookup_node p t' = None.
Proof.
  induction p as [| seg rest IH]; intros t t'; [discriminate |].
  destruct t as [c l | es]; [discriminate |].
  destruct rest as [| s rest'].
  - intros [= <-]. cbn. rewrite find_drop_eq. reflexivity.
  - rewrite remove_node_cons.
    destruct (find_entry seg es) as [child |] eqn:Hf.
    + destruct (remove_node (s :: rest') child) as [child' |] eqn:Hr;
        [| discriminate].
      intros [= <-]. cbn [lookup_node]. rewrite find_put_eq.
      exact (IH _ _ Hr).
    + intros [= <-]. cbn [lookup_node]. rewrite Hf. reflexivity.
Qed.

(** What cannot be removed, a file being on the way, is not there. *)
Lemma remove_node_refused p :
  forall t, p <> [] -> remove_node p t = None -> lookup_node p t = None.
Proof.
  induction p as [| seg rest IH]; intros t Hne; [congruence |].
  destruct t as [c l | es]; [reflexivity |].
  destruct rest as [| s rest']; [discriminate |].
  rewrite remove_node_cons. cbn [lookup_node].
  destruct (find_entry seg es) as [child |]; [| discriminate].
  destruct (remove_node (s :: rest') child) eqn:Hr; [discriminate |].
  intros _. apply IH; [discriminate | exact Hr].
Qed.

(** What is beside the place removed is as it was. *)
Lemma remove_node_apart p :
  forall t t' q,
    remove_node p t = Some t' ->
    (forall r, q <> (p ++ r)%list) -> (forall r, p <> (q ++ r)%list) ->
    lookup_node q t' = lookup_node q t.
Proof.
  induction p as [| seg rest IH]; intros t t' q; [discriminate |].
  destruct t as [c l | es]; [discriminate |].
  intros Hr Hq Hp.
  destruct q as [| s q']; [destruct (Hp (seg :: rest)); reflexivity |].
  destruct rest as [| s' rest'].
  - injection Hr as <-. cbn [lookup_node].
    destruct (String.eqb_spec s seg) as [-> | Hs].
    + destruct (Hq q'). reflexivity.
    + rewrite find_drop_ne by assumption. reflexivity.
  - rewrite remove_node_cons in Hr.
    destruct (find_entry seg es) as [child |] eqn:Hf.
    + destruct (remove_node (s' :: rest') child) as [child' |] eqn:Hc;
        [| discriminate].
      injection Hr as <-. cbn [lookup_node].
      destruct (String.eqb_spec s seg) as [-> | Hs].
      * rewrite find_put_eq, Hf. apply (IH _ _ _ Hc).
        -- intros r E. apply (Hq r). rewrite E. reflexivity.
        -- intros r E. apply (Hp r). rewrite E. reflexivity.
      * rewrite find_put_ne by assumption. reflexivity.
    + injection Hr as <-. reflexivity.
Qed.

(** Nothing appears, and what is not below the place removed stays: a
    directory as a directory, a file as it was. *)
Lemma remove_node_shape p :
  forall t t',
    remove_node p t = Some t' ->
    (forall q n, lookup_node q t' = Some n ->
        exists n', lookup_node q t = Some n' /\ is_dir n' = is_dir n) /\
    (forall q n, lookup_node q t = Some n -> (forall r, q <> (p ++ r)%list) ->
        exists n', lookup_node q t' = Some n' /\ is_dir n' = is_dir n /\
          forall c l, n = File c l -> n' = File c l).
Proof.
  induction p as [| seg rest IH]; intros t t'; [discriminate |].
  destruct t as [c l | es]; [discriminate |].
  destruct rest as [| s' rest'].
  - intros [= <-]. split.
    + intros [| s q'] n.
      * intros [= <-]. eexists. split; reflexivity.
      * cbn [lookup_node].
        destruct (String.eqb_spec s seg) as [-> | Hs].
        -- rewrite find_drop_eq. discriminate.
        -- rewrite find_drop_ne by assumption. intros H. rewrite H. eauto.
    + intros [| s q'] n.
      * intros [= <-] _. eexists. splits; try reflexivity. discriminate.
      * cbn [lookup_node]. intros H Hq.
        destruct (String.eqb_spec s seg) as [-> | Hs].
        -- destruct (Hq q'). reflexivity.
        -- rewrite find_drop_ne by assumption. rewrite H. eauto.
  - rewrite remove_node_cons.
    destruct (find_entry seg es) as [child |] eqn:Hf.
    2:{ intros [= <-]. split; intros q n H; eauto. }
    destruct (remove_node (s' :: rest') child) as [child' |] eqn:Hc;
      [| discriminate].
    intros [= <-]. destruct (IH _ _ Hc) as (IH1 & IH2). split.
    + intros [| s q'] n.
      * intros [= <-]. eexists. split; reflexivity.
      * cbn [lookup_node].
        destruct (String.eqb_spec s seg) as [-> | Hs].
        -- rewrite find_put_eq, Hf. apply IH1.
        -- rewrite find_put_ne by assumption. intros H. rewrite H. eauto.
    + intros [| s q'] n.
      * intros [= <-] _. eexists. splits; try reflexivity. discriminate.
      * cbn [lookup_node]. intros H Hq.
        destruct (String.eqb_spec s seg) as [-> | Hs].
        -- rewrite find_put_eq. rewrite Hf in H. apply (IH2 _ _ H).
           intros r E. apply (Hq r). rewrite E. reflexivity.
        -- rewrite find_put_ne by assumption. rewrite H. eauto.
Qed.

(** A run of [fs.rm]. *)
Lemma fs_rm_run p w :
  exists r w',
    fs_rm p w = (r, w') /\
    rows w' = rows w /\ online w' = online w /\ cwd w' = cwd w /\
    clock w' = clock w /\ trace w' = trace w /\
    (fs w' = fs w \/ remove_node (resolve (cwd w) p) (fs w) = Some (fs w')).
Proof.
  unfold fs_rm. cbv zeta.
  destruct (String.eqb p ""); [eexists _, _; splits; try reflexivity; auto |].
  destruct (_ || _); [eexists _, _; splits; try reflexivity; auto |].
  destruct (remove_node _ (fs w)) as [t |] eqn:Hr;
    eexists _, _; splits; try reflexivity; auto.
Qed.

(** X12.  [destroy] never throws and leaves the store alone: it logs one
    line and calls the store not at all, so the rows are as they were;
    it cancels the timer the object holds; and it adds nothing to the
    file system. *)
Theorem destroy_keeps_store {R : Runtime} (this : strategy) (l : loop)
    (w : world) :
  exists w',
    destroy this l w
      = (Ok match this_saveTimer this with
            | Some h => clearTimeout h l
            | None => l
            end, w') /\
    rows w' = rows w /\
    trace w' = Log Info "[Session] Destroy" [this_accountId this] :: trace w /\
    (forall q n, lookup_node q (fs w') = Some n ->
        exists n', lookup_node q (fs w) = Some n' /\ is_dir n' = is_dir n).
Proof.
  unfold destroy. unfold bind at 1. unfold log at 1. cbv zeta.
  unfold bind at 1. unfold try_catch, bind. unfold lift.
  destruct (path_join_values _) as [sp |]; cbn [ret throw].
  2:{ eexists. split; [reflexivity |]. splits; try reflexivity. eauto. }
  destruct (fs_rm_run sp
              (emit (Log Info "[Session] Destroy" [this_accountId this]) w))
    as (r & w' & Hrun & Hrows & _ & _ & _ & Htrace & Hfs).
  rewrite Hrun. cbn [emit rows trace fs cwd] in *.
  assert (Hnew : forall q n, lookup_node q (fs w') = Some n ->
            exists n', lookup_node q (fs w) = Some n' /\ is_dir n' = is_dir n).
  { destruct Hfs as [-> | Hrm]; [eauto |].
    exact (proj1 (remove_node_shape _ _ _ Hrm)). }
  destruct r as [[] |]; eexists; (split; [reflexivity |]); splits; assumption.
Qed.

Lemma last_name_render abs Y name :
  Forall kept Y -> kept name -> last_name (render abs (Y ++ [name])) = name.
Proof.
  intros HY Hn.
  assert (HY' : Forall kept (Y ++ [name])) by (apply Forall_app; auto).
  assert (Hsplit : split_path (join_slash (Y ++ [name])) = (Y ++ [name])%list).
  { apply split_path_join; [destruct Y; discriminate |].
    apply kept_slash_free, HY'. }
  unfold last_name, render.
  destruct (Y ++ [name])%list as [| y rest] eqn:E; [destruct Y; discriminate |].
  rewrite <- E in *. destruct abs.
  - change ("/" ++ join_slash (Y ++ [name]))
      with (String "/" (join_slash (Y ++ [name]))).
    cbn [split_path]. change (is_slash "/") with true. cbv iota.
    rewrite Hsplit. cbn [List.filter String.eqb negb].
    rewrite filter_nonempty_kept by assumption. apply last_last.
  - rewrite Hsplit, filter_nonempty_kept by assumption. apply last_last.
Qed.

(** The join of a path and of a name ends in the name. *)
Lemma last_name_join dp name :
  clean_name name = true ->
  last_name (path_join [dp; name]) = name /\ path_join [dp; name] <> EmptyString.
Proof.
  intros Hc. pose proof (kept_clean name Hc) as Hk.
  assert (Hlast : last_name (path_join [dp; name]) = name).
  { change name with (join_slash [name]) at 1.
    rewrite (path_join_render dp [name])
      by (discriminate || (constructor; [assumption | constructor])).
    apply last_name_render; [| exact Hk].
    apply norm_segs_kept. unfold segs_of.
    destruct (String.eqb dp ""); [constructor | apply split_path_slash_free]. }
  split; [exact Hlast |]. intros E. rewrite E in Hlast.
  destruct Hk as (Hne & _). apply Hne. rewrite <- Hlast. reflexivity.
Qed.

(** X13.  With a data path that is a string and an identifier that is a
    name, [destroy] removes the session directory and nothing else:
    afterwards nothing is at the session path and
    [hasPreRestoredSession] answers [false]; the session directories of
    the other accounts are what they were; and whatever is not below the
    session path is still there, a file with its bytes. *)
Theorem destroy_removes_session {R : Runtime}
    (accountId dataPath : string) (clientId : value) (saveTimer : option nat)
    (l : loop) (w : world) :
  let this := {| this_accountId := VStr accountId; this_clientId := clientId;
                 this_dataPath := VStr dataPath; this_saveTimer := saveTimer |} in
  let sp := path_join [dataPath; accountId] in
  clean_name accountId = true ->
  exists l' w',
    destroy this l w = (Ok l', w') /\
    fs_lookup sp w' = None /\
    hasPreRestoredSession sp w' = (Ok false, w') /\
    (forall other, clean_name other = true -> other <> accountId ->
        fs_lookup (path_join [dataPath; other]) w'
        = fs_lookup (path_join [dataPath; other]) w) /\
    (forall q n, lookup_node q (fs w) = Some n ->
        (forall r, q <> (resolve (cwd w) sp ++ r)%list) ->
        exists n', lookup_node q (fs w') = Some n' /\ is_dir n' = is_dir n /\
          forall c k, n = File c k -> n' = File c k).
Proof.
  cbv zeta. set (sp := path_join [dataPath; accountId]). intros Hclean.
  destruct (last_name_join dataPath accountId Hclean) as (Hlast & Hne).
  fold sp in Hlast, Hne.
  destruct (clean_name_spec _ Hclean) as (Ha & Hdot & Hdots & _).
  assert (Hsp : resolve (cwd w) sp = (resolve (cwd w) dataPath ++ [accountId])%list)
    by (apply resolve_join_one, Hclean).
  unfold destroy. unfold bind at 1. unfold log at 1. cbv zeta.
  unfold bind at 1. unfold try_catch, bind, lift, path_join_values.
  cbn [this_dataPath this_accountId strings_of ret]. fold sp.
  unfold fs_rm. cbv zeta. rewrite Hlast.
  apply String.eqb_neq in Hne, Ha, Hdot, Hdots. rewrite Hne, Ha, Hdot, Hdots.
  cbn [orb cwd emit fs].
  set (w1 := emit (Log Info "[Session] Destroy" [VStr accountId]) w).
  assert (Hgone : forall t, lookup_node (resolve (cwd w) sp) t = None ->
            forall w', fs w' = t -> cwd w' = cwd w ->
              fs_lookup sp w' = None /\
              hasPreRestoredSession sp w' = (Ok false, w')).
  { intros t Hnone w' Hfs Hcwd. split.
    - unfold fs_lookup. rewrite Hcwd, Hfs. exact Hnone.
    - rewrite hasPreRestoredSession_run.
      unfold fs_lookup. rewrite path_join_three by discriminate.
      rewrite (resolve_join (cwd w') sp ["Default"; "IndexedDB"])
        by (discriminate || (repeat constructor)).
      rewrite lookup_node_app, Hcwd, Hfs, Hnone. reflexivity. }
  destruct (remove_node (resolve (cwd w) sp) (fs w)) as [t |] eqn:Hrm.
  - unfold ret. eexists _, _. split; [reflexivity |].
    destruct (Hgone t (remove_node_gone _ _ _ Hrm) (with_fs t w1) eq_refl eq_refl)
      as (Hg1 & Hg2).
    splits; try assumption.
    + intros other Hother Hdiff. unfold fs_lookup. cbn [cwd fs with_fs w1 emit].
      rewrite resolve_join_one by assumption.
      apply (remove_node_apart _ _ _ _ Hrm); rewrite Hsp; intros r E.
      * rewrite <- app_assoc in E. apply app_inv_head in E.
        cbn in E. congruence.
      * rewrite <- app_assoc in E. apply app_inv_head in E.
        cbn in E. congruence.
    + intros q n Hq Hfree. cbn [fs with_fs].
      exact (proj2 (remove_node_shape _ _ _ Hrm) q n Hq Hfree).
  - unfold ret. eexists _, _. split; [reflexivity |].
    assert (Hnone : lookup_node (resolve (cwd w) sp) (fs w) = None).
    { apply remove_node_refused; [| exact Hrm].
      rewrite Hsp. destruct (resolve (cwd w) dataPath); discriminate. }
    destruct (Hgone (fs w) Hnone w1 eq_refl eq_refl) as (Hg1 & Hg2).
    splits; try assumption.
    + reflexivity.
    + intros q n Hq _. exists n. splits; auto.
Qed.

Lemma destroy_removes_session_witness :
  exists l' w',
    destroy {| this_accountId := VStr "acc1"; this_clientId := VStr "acc1";
               this_dataPath := VStr "./wa-sessions-temp";
               this_saveTimer := None |}
      {| next_handle := 0; pending := [] |} demo_world = (Ok l', w') /\
    fs_lookup (path_join ["./wa-sessions-temp"; "acc1"]) w' = None /\
    hasPreRestoredSession (path_join ["./wa-sessions-temp"; "acc1"]) w'
      = (Ok false, w') /\
    (forall other, clean_name other = true -> other <> "acc1" ->
        fs_lookup (path_join ["./wa-sessions-temp"; other]) w'
        = fs_lookup (path_join ["./wa-sessions-temp"; other]) demo_world) /\
    (forall q n, lookup_node q (fs demo_world) = Some n ->
        (forall r, q <> (resolve (cwd demo_world)
                           (path_join ["./wa-sessions-temp"; "acc1"]) ++ r)%list) ->
        exists n', lookup_node q (fs w') = Some n' /\ is_dir n' = is_dir n /\
          forall c k, n = File c k -> n' = File c k).
Proof.
  apply (destroy_removes_session "acc1" "./wa-sessions-temp" (VStr "acc1") None
           {| next_handle := 0; pending := [] |} demo_world).
  reflexivity.
Defined.

(** ** A saved session comes back *)

Section Comeback.
Context {R : Runtime} {L : RuntimeLaws R}.



End Comeback.




Section SaveDestroyRestore.
Context {R : Runtime} {L : RuntimeLaws R}.


End SaveDestroyRestore.


Section RestoreBeforeBrowser.
Context {R : Runtime} {L : RuntimeLaws R}.


End RestoreBeforeBrowser.


(** ** The timer of the first save *)

Lemma clear_fresh_handle h ts more :
  Forall (fun t => (handle t < h)%nat) ts ->
  Forall (fun t => (h < handle t)%nat) more ->
  forall ms this,
    List.filter (fun t => negb (Nat.eqb (handle t) h))
      (ts ++ {| handle := h; delay := ms; owner := this |} :: more)
    = (ts ++ more)%list.
Proof.
  intros Hts Hmore ms this. rewrite List.filter_app. cbn [List.filter handle].
  rewrite Nat.eqb_refl. cbn [negb]. f_equal.
  - clear Hmore. induction Hts as [| t rest Ht _ IH]; [reflexivity |].
    cbn [List.filter].
    destruct (Nat.eqb_spec (handle t) h); [lia |]. cbn [negb]. now rewrite IH.
  - clear Hts. induction Hmore as [| t rest Ht _ IH]; [reflexivity |].
    cbn [List.filter].
    destruct (Nat.eqb_spec (handle t) h); [lia |]. cbn [negb]. now rewrite IH.
Qed.

Lemma find_fresh_handle h ts :
  Forall (fun t => (handle t < h)%nat) ts ->
  forall more,
    List.find (fun t => Nat.eqb (handle t) h) (ts ++ more)
    = List.find (fun t => Nat.eqb (handle t) h) more.
Proof.
  intros Hts more. induction Hts as [| t rest Ht _ IH]; [reflexivity |].
  cbn [app List.find]. destruct (Nat.eqb_spec (handle t) h); [lia | exact IH].
Qed.

(** X16.  [logout] cancels the timer that the object holds, which is the
    one of the latest [afterAuthReady].  After [afterAuthReady] and
    [logout] the timers pending are those that were, and nothing runs
    when the delay has passed.  After two [afterAuthReady] and a
    [logout], the timer of the first is still pending, and when it runs
    the session is saved although the user has logged out. *)
Theorem logout_cancels_latest_timer {R : Runtime}
    (this : strategy) (l : loop) (w : world) :
  Forall (fun t => (handle t < next_handle l)%nat) (pending l) ->
  let first := {| handle := next_handle l; delay := 60000; owner := this |} in
  (exists this1 l1 w1 l2 w2,
      afterAuthReady this l w = (Ok (this1, l1), w1) /\
      logout this1 l1 w1 = (Ok l2, w2) /\
      pending l2 = pending l /\
      run_timer (next_handle l) l2 w2 = (Ok l2, w2))
  /\
  (exists this1 l1 w1 this2 l2 w2 l3 w3,
      afterAuthReady this l w = (Ok (this1, l1), w1) /\
      afterAuthReady this1 l1 w1 = (Ok (this2, l2), w2) /\
      logout this2 l2 w2 = (Ok l3, w3) /\
      pending l3 = (pending l ++ [first])%list /\
      run_timer (next_handle l) l3 w3
      = (log Info "[Session] Starting initial session save..." [] ;;
         RemoteAuth_saveSession this ;;
         ret (clearTimeout (next_handle l) l3)) w3).
Proof.
  intros Hwf first.
  set (n := next_handle l) in *.
  set (this1 := {| this_accountId := this_accountId this;
                   this_clientId := this_clientId this;
                   this_dataPath := this_dataPath this;
                   this_saveTimer := Some n |}).
  set (l1 := {| next_handle := S n; pending := (pending l ++ [first])%list |}).
  set (w1 := emit (Log Info
                     "[Session] Waiting 60s for session to stabilize before saving..."
                     [])
               (emit (Log Info "[Session] Auth ready" [this_accountId this]) w)).
  assert (H1 : afterAuthReady this l w = (Ok (this1, l1), w1)) by reflexivity.
  assert (Hp1 : List.filter (fun t => negb (Nat.eqb (handle t) n))
                  (pending l ++ [first]) = pending l).
  { unfold first. rewrite (clear_fresh_handle _ _ [] Hwf ltac:(constructor)).
    apply app_nil_r. }
  split.
  - exists this1, l1, w1,
      {| next_handle := S n; pending := pending l |},
      (emit (Log Info "[Session] Logout" [this_accountId this]) w1).
    split; [exact H1 |]. split; [| split; [reflexivity |]].
    + unfold logout, bind, log, ret, clearTimeout.
      cbn [this_saveTimer this_accountId this1 l1 pending next_handle].
      rewrite Hp1. reflexivity.
    + unfold run_timer. cbn [pending].
      rewrite <- (app_nil_r (pending l)).
      rewrite (find_fresh_handle _ _ Hwf []). reflexivity.
  - set (second := {| handle := S n; delay := 60000; owner := this1 |}).
    set (this2 := {| this_accountId := this_accountId this;
                     this_clientId := this_clientId this;
                     this_dataPath := this_dataPath this;
                     this_saveTimer := Some (S n) |}).
    set (l2 := {| next_handle := S (S n);
                  pending := ((pending l ++ [first]) ++ [second])%list |}).
    set (w2 := emit (Log Info
                       "[Session] Waiting 60s for session to stabilize before saving..."
                       [])
                 (emit (Log Info "[Session] Auth ready" [this_accountId this]) w1)).
    set (l3 := {| next_handle := S (S n); pending := (pending l ++ [first])%list |}).
    exists this1, l1, w1, this2, l2, w2, l3,
      (emit (Log Info "[Session] Logout" [this_accountId this]) w2).
    split; [exact H1 |]. split; [reflexivity |].
    split; [| split; [reflexivity |]].
    + unfold logout, bind, log, ret, clearTimeout.
      cbn [this_saveTimer this_accountId this2 l2 pending next_handle].
      unfold second.
      rewrite (clear_fresh_handle (S n) (pending l ++ [first]) []).
      * rewrite app_nil_r. reflexivity.
      * apply Forall_app. split.
        -- eapply List.Forall_impl; [| exact Hwf]. cbn. intros t Ht.
           fold n in Ht. lia.
        -- repeat constructor.
      * constructor.
    + unfold run_timer. cbn [l3 pending].
      rewrite (find_fresh_handle _ _ Hwf [first]).
      cbn [List.find first handle]. rewrite Nat.eqb_refl.
      cbn [owner]. reflexivity.
Qed.

Lemma logout_cancels_latest_timer_witness :
  exists this1 l1 w1 l2 w2,
    afterAuthReady
      {| this_accountId := VStr "acc1"; this_clientId := VStr "acc1";
         this_dataPath := VStr "./wa-sessions-temp"; this_saveTimer := None |}
      {| next_handle := 0; pending := [] |} demo_world
      = (Ok (this1, l1), w1) /\
    logout this1 l1 w1 = (Ok l2, w2) /\
    pending l2 = pending {| next_handle := 0; pending := [] |} /\
    run_timer (next_handle {| next_handle := 0; pending := [] |}) l2 w2
    = (Ok l2, w2).
Proof.
  apply (proj1 (logout_cancels_latest_timer
                  {| this_accountId := VStr "acc1"; this_clientId := VStr "acc1";
                     this_dataPath := VStr "./wa-sessions-temp";
                     this_saveTimer := None |}
                  {| next_handle := 0; pending := [] |} demo_world
                  (List.Forall_nil _))).
Defined.

Section RestoreTwice.
Context {R : Runtime} {L : RuntimeLaws R}.


End RestoreTwice.


(** ** Keys that lead out of the session directory *)




(** *** Where the restorer writes *)

(** The loop writes at the joins of the session path and of the keys,
    and nowhere else. *)
Lemma restore_entries_where {R : Runtime} acc sp entries :
  forall n w, exists n' w' written,
    restore_entries sp entries n w = (Ok n', w') /\
    restore_step acc written false w w' /\
    forall p, In p written ->
      exists k v, In (k, v) entries /\ p = path_join [sp; k].
Proof.
  induction entries as [| [relPath v] rest IH]; intros n w.
  - exists n, w, []. cbn.
    splits; [reflexivity | apply restore_step_refl | intros p []].
  - rewrite restore_entries_cons.
    destruct (restore_entry sp relPath v w) as [r1 w1] eqn:H1.
    destruct (restore_entry_step acc _ _ _ _ _ _ H1)
      as (wr1 & Hs1 & [(-> & ->) | (-> & ->)]).
    + destruct (IH n (emit (Log Warn "[Session] Failed" [VStr relPath]) w1))
        as (n' & w' & wr & Hrun & Hs & Hin).
      exists n', w', wr. splits; [exact Hrun | |].
      * rewrite <- (app_nil_r wr).
        eapply (restore_step_trans acc [] wr false w); [| exact Hs].
        apply restore_step_log, Hs1.
      * intros p Hp. destruct (Hin p Hp) as (k & v' & Hk & ->).
        exists k, v'. split; [right; exact Hk | reflexivity].
    + destruct (IH (n + 1) w1) as (n' & w' & wr & Hrun & Hs & Hin).
      exists n', w', (wr ++ [path_join [sp; relPath]])%list.
      splits; [exact Hrun
              | exact (restore_step_trans acc _ wr false w w1 w' Hs1 Hs) |].
      intros p Hp. apply in_app_iff in Hp as [Hp | [<- | []]].
      * destruct (Hin p Hp) as (k & v' & Hk & ->).
        exists k, v'. split; [right; exact Hk | reflexivity].
      * exists relPath, v. split; [left; reflexivity | reflexivity].
Qed.

Lemma restore_files_where {R : Runtime} acc sp files w :
  exists r w' written,
    restore_files sp files w = (Ok r, w') /\
    restore_step acc written false w w' /\
    forall p, In p written ->
      exists k v, In (k, v) (Object_entries files) /\ p = path_join [sp; k].
Proof.
  unfold restore_files. destruct (_ || _).
  - eexists _, _, []. splits; try reflexivity.
    + apply restore_step_log, restore_step_refl.
    + intros p [].
  - unfold bind at 1. unfold log at 1. unfold bind at 1.
    destruct (restore_entries_where acc sp (Object_entries files) 0
                (emit (Log Info "[Session] Restoring files"
                         [VNum (Z.of_nat (List.length (Object_keys files)))]) w))
      as (n' & w' & wr & Hrun & Hs & Hin).
    rewrite Hrun. unfold bind, log, ret.
    eexists _, _, wr. splits; try reflexivity; [| exact Hin].
    apply restore_step_log. rewrite <- (app_nil_r wr).
    eapply (restore_step_trans acc [] wr false w); [| exact Hs].
    apply restore_step_log, restore_step_refl.
Qed.

Lemma restore_payload_where {R : Runtime} acc sp payload w :
  online w = true ->
  exists res w' written cleared,
    restore_payload acc sp payload w = (res, w') /\
    restore_step acc written cleared w w' /\
    forall p, In p written ->
      exists data files k v,
        get_prop payload "data" = Some data /\
        decode_files data = Some files /\
        In (k, v) (Object_entries files) /\ p = path_join [sp; k].
Proof.
  intros Ho.
  destruct (get_prop payload "data") as [data |] eqn:Hd.
  2:{ rewrite restore_payload_null by assumption.
      eexists _, _, [], false. split; [reflexivity |].
      split; [apply restore_step_refl | intros p []]. }
  destruct (truthy data) eqn:Ht.
  2:{ destruct (restore_payload_unknown acc sp payload data w Hd Ht) as (ty & ->).
      eexists _, _, [], false. split; [reflexivity |].
      split; [apply restore_step_log, restore_step_refl | intros p []]. }
  destruct (decode_files data) as [files |] eqn:Hf.
  - rewrite (restore_payload_files acc sp payload data files) by assumption.
    destruct (restore_files_where acc sp files w) as (r & w' & wr & -> & Hs & Hin).
    eexists _, _, wr, false. split; [reflexivity |].
    split; [exact Hs |].
    intros p Hp. destruct (Hin p Hp) as (k & v & Hk & ->). eauto 8.
  - rewrite (restore_payload_corrupt acc sp payload data) by assumption.
    cbv zeta. rewrite Ho.
    eexists _, _, [], true. split; [reflexivity |].
    split; [apply restore_step_clear, Ho | intros p []].
Qed.

(** Every file that a run of [preRestoreSession] writes is at the join of
    the session path and of a key of the [files] decoded from the row of
    the account. *)
Lemma preRestoreSession_where {R : Runtime} acc dp w :
  exists r w' written cleared,
    preRestoreSession acc dp w = (Ok r, w') /\
    restore_step acc written cleared w w' /\
    forall p, In p written ->
      exists blob payload data files k v,
        rows w !! acc = Some blob /\
        JSON_parse (utf8_decode (base64_decode blob)) = Some payload /\
        get_prop payload "data" = Some data /\
        decode_files data = Some files /\
        In (k, v) (Object_entries files) /\
        p = path_join [path_join [dp; acc]; k].
Proof.
  unfold preRestoreSession, try_catch. rewrite preRestoreSession_body_eq.
  set (sp := path_join [dp; acc]).
  destruct (String.eqb dp "").
  { unfold bind, log, ret. eexists _, _, [], false.
    split; [reflexivity |].
    split; [apply restore_step_log, restore_step_refl | intros p []]. }
  destruct (mkdir_p (resolve (cwd w) dp) (fs w)) as [t1 |] eqn:Hm1.
  2:{ unfold bind, log, ret. eexists _, _, [], false.
      split; [reflexivity |].
      split; [apply restore_step_log, restore_step_refl | intros p []]. }
  assert (Hs1 : restore_step acc [] false w (with_fs t1 w)).
  { unfold restore_step. cbn. splits; try reflexivity.
    exact (grows_mkdir _ _ _ Hm1). }
  destruct (mkdir_p (resolve (cwd w) sp) t1) as [t2 |] eqn:Hm2.
  2:{ unfold bind, log, ret. eexists _, _, [], false.
      split; [reflexivity |].
      split; [apply restore_step_log, Hs1 | intros p []]. }
  cbv zeta.
  set (w0 := emit (DbGet acc)
               (emit (Log Info "[Session] Checking database" [VStr acc])
                  (with_fs t2 w))).
  assert (Hs0 : restore_step acc [] false w w0).
  { unfold restore_step. cbn. splits; try reflexivity.
    exact (grows_trans _ _ _ _ _ (grows_mkdir _ _ _ Hm1) (grows_mkdir _ _ _ Hm2)). }
  destruct (online w) eqn:Ho.
  2:{ unfold bind, log, ret. eexists _, _, [], false.
      split; [reflexivity |].
      split; [apply restore_step_log, Hs0 | intros p []]. }
  destruct (rows w !! acc) as [[| c blob] |] eqn:Hrow.
  1,3: eexists _, _, [], false; (split; [reflexivity |]);
       (split; [apply restore_step_log, Hs0 | intros p []]).
  destruct (JSON_parse _) as [payload |] eqn:Hparse.
  - destruct (restore_payload_where acc sp payload w0 Ho)
      as (res & w' & wr & cl & -> & Hs & Hin).
    pose proof (restore_step_trans acc [] wr cl w w0 w' Hs0 Hs) as Hstep.
    rewrite app_nil_r in Hstep.
    assert (Hwhere : forall p, In p wr ->
      exists blob0 payload0 data files k v,
        Some (String c blob) = Some blob0 /\
        JSON_parse (utf8_decode (base64_decode blob0)) = Some payload0 /\
        get_prop payload0 "data" = Some data /\
        decode_files data = Some files /\
        In (k, v) (Object_entries files) /\ p = path_join [sp; k]).
    { intros p Hp. destruct (Hin p Hp) as (data & files & k & v & Hd & Hf & Hk & ->).
      exists (String c blob), payload, data, files, k, v. auto 8. }
    destruct res as [r |].
    + exists r, w', wr, cl. split; [reflexivity |]. split; assumption.
    + unfold bind, log, ret. eexists _, _, wr, cl. split; [reflexivity |].
      split; [apply restore_step_log, Hstep | exact Hwhere].
  - eexists _, _, [], true. split; [reflexivity |]. split; [| intros p []].
    apply (restore_step_trans acc [] [] true w w0); [exact Hs0 |].
    exact (restore_step_clear acc Error _ [] w0 Ho).
Qed.

Section Confined.
Context {R : Runtime} {L : RuntimeLaws R}.

(** X19.  The keys that [saveSession] stores lead into the session
    directory: in any world that holds the blob of a successful save for
    the account, every file that [preRestoreSession] writes is below the
    session path, and every file that is not below the session path is
    after the run as it was. *)
Theorem saved_session_restored_inside
    (accountId dataPath : string) (w w1 w2 : world) (session : node) :
  let sp := path_join [dataPath; accountId] in
  fs_lookup sp w = Some session ->
  wf_node session = true ->
  saveSession accountId dataPath w = (Ok true, w1) ->
  rows w2 !! accountId = rows w1 !! accountId ->
  exists r w3 written,
    preRestoreSession accountId dataPath w2 = (Ok r, w3) /\
    fs_writes (trace w3) = (written ++ fs_writes (trace w2))%list /\
    (forall p, In p written ->
       exists ks, ks <> [] /\
         resolve (cwd w2) p = (resolve (cwd w2) sp ++ ks)%list) /\
    forall q content locked,
      lookup_node q (fs w2) = Some (File content locked) ->
      (forall ks, q <> (resolve (cwd w2) sp ++ ks)%list) ->
      lookup_node q (fs w3) = Some (File content locked).
Proof.
  cbv zeta. set (sp := path_join [dataPath; accountId]).
  intros Hsession Hwf Hsave Hrows.
  destruct (saveSession_true _ _ _ _ Hsave) as (blob & _ & Hpacked & Hblob).
  fold sp in Hpacked.
  pose proof (snapshot_plain sp w session Hsession Hwf) as Hplain.
  destruct (packed_decodes _ _ _ _ Hpacked Hplain)
    as (_ & payload & data & Hparse & Hdata & _ & Hdecode).
  rewrite Hblob in Hrows.
  destruct (preRestoreSession_where accountId dataPath w2)
    as (r & w3 & written & cl & Hrun & Hs & Hin).
  fold sp in Hin.
  assert (Hbelow : forall p, In p written ->
            exists ks, ks <> [] /\
              resolve (cwd w2) p = (resolve (cwd w2) sp ++ ks)%list).
  { intros p Hp.
    destruct (Hin p Hp)
      as (blob' & payload' & data' & files' & k & v
          & Hrow' & Hparse' & Hdata' & Hdecode' & Hk & ->).
    rewrite Hrows in Hrow'. injection Hrow' as <-.
    rewrite Hparse in Hparse'. injection Hparse' as <-.
    rewrite Hdata in Hdata'. injection Hdata' as <-.
    rewrite Hdecode in Hdecode'. injection Hdecode' as <-.
    change (Object_entries (VObj (fst (snapshot sp w))))
      with (fst (snapshot sp w)) in Hk.
    destruct (snapshot_entries sp w session k v Hsession Hwf Hk)
      as ((Hjoin & Hne & Hclean & _) & _).
    cbn [fst] in Hjoin, Hne, Hclean.
    exists (split_path k). split; [exact Hne |].
    rewrite Hjoin at 1. apply resolve_join; assumption. }
  destruct Hs as (_ & _ & _ & _ & Hw & (_ & Hkeep) & _).
  exists r, w3, written. splits; try assumption.
  intros q c l Hq Hout. apply (Hkeep q c l Hq). right.
  intros Hmem. apply in_map_iff in Hmem as (p & <- & Hp).
  destruct (Hbelow p Hp) as (ks & _ & E). exact (Hout ks E).
Qed.

End Confined.

Lemma saved_session_restored_inside_witness :
  let w2 :=
    world_of (Dir [("notes.txt", File (text "keep") false)])
      (rows (snd (saveSession "acc1" "./wa-sessions-temp" demo_world))) in
  let sp := path_join ["./wa-sessions-temp"; "acc1"] in
  exists r w3 written,
    preRestoreSession "acc1" "./wa-sessions-temp" w2 = (Ok r, w3) /\
    fs_writes (trace w3) = (written ++ fs_writes (trace w2))%list /\
    (forall p, In p written ->
       exists ks, ks <> [] /\
         resolve (cwd w2) p = (resolve (cwd w2) sp ++ ks)%list) /\
    forall q content locked,
      lookup_node q (fs w2) = Some (File content locked) ->
      (forall ks, q <> (resolve (cwd w2) sp ++ ks)%list) ->
      lookup_node q (fs w3) = Some (File content locked).
Proof.
  intros w2 sp.
  apply (@saved_session_restored_inside ref_runtime ref_runtime_laws
           "acc1" "./wa-sessions-temp" demo_world
           (snd (saveSession "acc1" "./wa-sessions-temp" demo_world))
           w2 demo_session).
  - reflexivity.
  - reflexivity.
  - vm_compute. reflexivity.
  - reflexivity.
Defined.

(** ** The rows of the other accounts *)

Lemma restore_files_rows {R : Runtime} sp files w :
  rows (snd (restore_files sp files w)) = rows w.
Proof.
  destruct (restore_files_step "" sp files w) as (r & w' & wr & Hrun & _ & Hs & _).
  rewrite Hrun. destruct Hs as (_ & _ & _ & _ & _ & _ & Hr & _). exact Hr.
Qed.

(** The parsed envelope, with other rows in the store. *)
Lemma restore_payload_with_rows {R : Runtime} acc sp payload r w :
  online w = true ->
  exists cleared : bool,
    restore_payload acc sp payload (with_rows r w)
    = (fst (restore_payload acc sp payload w),
       with_rows (if cleared then delete acc r else r)
         (snd (restore_payload acc sp payload w))) /\
    rows (snd (restore_payload acc sp payload w))
    = if cleared then delete acc (rows w) else rows w.
Proof.
  intros Ho.
  destruct (get_prop payload "data") as [data |] eqn:Hd.
  2:{ rewrite !restore_payload_null by assumption. exists false. auto. }
  destruct (truthy data) eqn:Ht.
  2:{ destruct (restore_payload_unknown acc sp payload data w Hd Ht) as (ty & E).
      destruct (restore_payload_unknown acc sp payload data (with_rows r w) Hd Ht)
        as (ty' & E').
      assert (ty' = ty) as ->.
      { unfold restore_payload, bind, lift in E, E'. rewrite Hd in E, E'.
        cbn in E, E'. rewrite Ht in E, E'.
        destruct (get_prop payload "type"); unfold ret, throw in E, E';
          [| discriminate].
        injection E as E. injection E' as E'. congruence. }
      rewrite E, E'. exists false. auto. }
  destruct (decode_files data) as [files |] eqn:Hf.
  - rewrite !(restore_payload_files acc sp payload data files) by assumption.
    rewrite restore_files_with_rows. exists false.
    split; [reflexivity | apply restore_files_rows].
  - rewrite !(restore_payload_corrupt acc sp payload data) by assumption.
    cbv zeta. cbn [online with_rows]. rewrite Ho. exists true. auto.
Qed.

(** X20.  The restore of an account does not depend on the rows of the
    other accounts and leaves them alone: with any rows that hold the
    same blob for the account, [preRestoreSession] gives the same answer,
    the same file system and the same trace of calls, and the rows of
    the other accounts are as they were given. *)
Theorem preRestoreSession_isolated {R : Runtime}
    (accountId dataPath : string) (w : world) (others : gmap string string) :
  others !! accountId = rows w !! accountId ->
  exists r w1 w2,
    preRestoreSession accountId dataPath w = (Ok r, w1) /\
    preRestoreSession accountId dataPath (with_rows others w) = (Ok r, w2) /\
    fs w2 = fs w1 /\ trace w2 = trace w1 /\
    rows w2 !! accountId = rows w1 !! accountId /\
    forall other, other <> accountId -> rows w2 !! other = others !! other.
Proof.
  intros Hsame.
  assert (Hdel : forall m : gmap string string,
            forall other, other <> accountId ->
              delete accountId m !! other = m !! other).
  { intros m other Hne. apply lookup_delete_ne. congruence. }
  unfold preRestoreSession, try_catch. rewrite !preRestoreSession_body_eq.
  cbn [cwd fs online rows with_rows].
  set (sp := path_join [dataPath; accountId]).
  destruct (String.eqb dataPath "").
  { unfold bind, log, ret. eexists _, _, _. splits; try reflexivity. exact Hsame. }
  destruct (mkdir_p (resolve (cwd w) dataPath) (fs w)) as [t1 |].
  2:{ unfold bind, log, ret. eexists _, _, _. splits; try reflexivity. exact Hsame. }
  destruct (mkdir_p (resolve (cwd w) sp) t1) as [t2 |].
  2:{ unfold bind, log, ret. eexists _, _, _. splits; try reflexivity. exact Hsame. }
  cbv zeta.
  destruct (online w) eqn:Ho.
  2:{ unfold bind, log, ret. eexists _, _, _. splits; try reflexivity. exact Hsame. }
  rewrite Hsame.
  destruct (rows w !! accountId) as [[| c blob] |] eqn:Hrow.
  1,3: eexists _, _, _; splits; try reflexivity; cbn; congruence.
  destruct (JSON_parse _) as [payload |].
  2:{ eexists _, _, _. splits; try reflexivity.
      - cbn. rewrite !lookup_delete_eq. reflexivity.
      - intros other Hne. apply Hdel, Hne. }
  set (w0 := emit (DbGet accountId)
               (emit (Log Info "[Session] Checking database" [VStr accountId])
                  (with_fs t2 w))).
  change (emit (DbGet accountId)
            (emit (Log Info "[Session] Checking database" [VStr accountId])
               (with_fs t2 (with_rows others w))))
    with (with_rows others w0).
  destruct (restore_payload_with_rows accountId sp payload others w0 Ho)
    as (cleared & Hrun & Hrows).
  rewrite Hrun.
  destruct (restore_payload accountId sp payload w0) as [res w1] eqn:Hp.
  cbn [fst snd] in *.
  pose proof (restore_payload_result _ _ _ _ _ _ Hp) as Hres.
  destruct Hres as [-> | (b & ->)].
  - unfold bind, log, ret. eexists _, _, _. splits; try reflexivity.
    + cbn. rewrite Hrows. destruct cleared.
      * rewrite !lookup_delete_eq. reflexivity.
      * cbn. congruence.
    + intros other Hne. cbn. destruct cleared; [apply Hdel, Hne | reflexivity].
  - eexists _, _, _. splits; try reflexivity.
    + cbn. rewrite Hrows. destruct cleared.
      * rewrite !lookup_delete_eq. reflexivity.
      * cbn. congruence.
    + intros other Hne. cbn. destruct cleared; [apply Hdel, Hne | reflexivity].
Qed.

Lemma preRestoreSession_isolated_witness :
  exists r w1 w2,
    preRestoreSession "acc1" "./wa-sessions-temp" (world_of (Dir []) ∅)
      = (Ok r, w1) /\
    preRestoreSession "acc1" "./wa-sessions-temp"
      (with_rows {["acc2" := "AAAA"]} (world_of (Dir []) ∅)) = (Ok r, w2) /\
    fs w2 = fs w1 /\ trace w2 = trace w1 /\
    rows w2 !! "acc1" = rows w1 !! "acc1" /\
    forall other, other <> "acc1" ->
      rows w2 !! other = ({["acc2" := "AAAA"]} : gmap string string) !! other.
Proof.
  apply (preRestoreSession_isolated "acc1" "./wa-sessions-temp"
           (world_of (Dir []) ∅) {["acc2" := "AAAA"]}).
  reflexivity.
Defined.
